(** * docs/generate.py: the documentation generator of bemuse

    A shallow embedding of [docs/generate.py] (Python 2): the line scanner
    [FileProcessor.process_line], the rule cascade
    [FileProcessor.process_post_comment], the node store behind [RootNode],
    the serializer ([__str__] of the node classes, [indent3]), the two
    halves of [main] and the file names [get_source_files] yields.

    Python objects are shared and mutated in place ([current_class] is the
    very object that sits in its module's [contents]), so nodes live in a
    store and are named by their location; [dict]s are [gmap]s; a Python 2
    [str] is a byte string, here [string]. An uncaught exception aborts the
    run: every operation that can raise returns a [result]. *)

From Stdlib Require Import Ascii.
From stdpp Require Import gmap strings list fin_maps sorting.

(** ** Strings *)

Module Str.

(** The line feed, the one character [.] refuses. *)
Definition LF : ascii := "010"%char.

(** [\w] without flags, on a byte string: [[a-zA-Z0-9_]]. *)
Definition is_word (c : ascii) : bool :=
  let n := nat_of_ascii c in
  ((48 <=? n) && (n <=? 57)) || ((65 <=? n) && (n <=? 90))
  || ((97 <=? n) && (n <=? 122)) || (n =? 95).

(** [\s] and [str.isspace]: tab, line feed, vertical tab, form feed,
    carriage return and space. *)
Definition is_space (c : ascii) : bool := Ascii.is_space c.

Definition not_LF (c : ascii) : bool := negb (Ascii.eqb c LF).

(** [s.lstrip()], [s.rstrip()] and [s.strip()]. *)
Fixpoint lstrip (s : string) : string :=
  match s with
  | String c s' => if is_space c then lstrip s' else s
  | "" => ""
  end.

Fixpoint rstrip (s : string) : string :=
  match s with
  | String c s' =>
      match rstrip s' with
      | "" => if is_space c then "" else String c ""
      | r => String c r
      end
  | "" => ""
  end.

Definition strip (s : string) : string := rstrip (lstrip s).

(** [s.endswith(suf)]: some suffix of [s] is [suf]. *)
Fixpoint endswith (s suf : string) : bool :=
  String.eqb s suf ||
  match s with
  | String _ s' => endswith s' suf
  | "" => false
  end.

(** [s[:-n]] for [n > 0]: all but the last [n] characters. *)
Fixpoint slice_to_neg (n : nat) (s : string) : string :=
  match s with
  | String c s' =>
      if String.length s <=? n then "" else String c (slice_to_neg n s')
  | "" => ""
  end.

(** [sep.join(l)]. *)
Definition join (sep : string) (l : list string) : string :=
  String.concat sep l.

(** Every character of [s] is in the class [p]. *)
Fixpoint all (p : ascii → bool) (s : string) : bool :=
  match s with
  | String c s' => p c && all p s'
  | "" => true
  end.

(** The carriage return; with the line feed, the line breaks of a byte
    string. *)
Definition CR : ascii := "013"%char.

Definition is_break (c : ascii) : bool := Ascii.eqb c LF || Ascii.eqb c CR.

(** [s.splitlines()] of a byte string. A line ends at a line feed, at a
    carriage return, or at a carriage return and a line feed taken
    together; the breaks are not kept, and what follows the last break
    is a line only when it is not empty. *)
Fixpoint splitlines (s : string) : list string :=
  match s with
  | "" => []
  | String c s' =>
      if Ascii.eqb c LF then "" :: splitlines s'
      else if Ascii.eqb c CR then
        match s' with
        | String d s'' =>
            if Ascii.eqb d LF then "" :: splitlines s''
            else "" :: splitlines s'
        | "" => [""]
        end
      else
        match splitlines s' with
        | [] => [String c ""]
        | line :: lines => String c line :: lines
        end
  end.

(** [s * n]. *)
Fixpoint mul (s : string) (n : nat) : string :=
  match n with
  | 0 => ""
  | S n' => s +:+ mul s n'
  end.

End Str.

(** ** Regular expressions

    Each pattern of the script is written out as the matcher [re] runs for
    it. A greedy run ([\w+], [\S+], [\s*]) takes the longest run: in every
    pattern below the item after the run cannot start with a character of
    the run, so giving characters back never helps. A lazy [.*?] grows one
    character (not a line feed) at a time until the rest of the pattern
    matches. [$] (no MULTILINE) holds at the end of the subject and just
    before a line feed that ends it. *)

Module Re.
Import Str.

(** A literal: the subject without it, when it starts with it. *)
Fixpoint lit (p s : string) : option string :=
  match p with
  | "" => Some s
  | String c p' =>
      match s with
      | String d s' => if Ascii.eqb c d then lit p' s' else None
      | "" => None
      end
  end.

(** The longest run of characters in a class, and the rest. *)
Fixpoint span (p : ascii → bool) (s : string) : string * string :=
  match s with
  | String c s' =>
      if p c then let '(a, b) := span p s' in (String c a, b) else ("", s)
  | "" => ("", "")
  end.

(** [x+], greedy. *)
Definition plus (p : ascii → bool) (s : string) : option (string * string) :=
  match span p s with
  | ("", _) => None
  | (a, b) => Some (a, b)
  end.

(** [$]. *)
Definition eol (s : string) : bool :=
  match s with
  | "" => true
  | String c "" => Ascii.eqb c LF
  | _ => false
  end.

(** [.*?] followed by the rest of the pattern [k]: the shortest run. *)
Fixpoint lazy_dot (k : string → bool) (s : string) : option string :=
  if k s then Some ""
  else match s with
       | String c s' =>
           if not_LF c
           then match lazy_dot k s' with
                | Some a => Some (String c a)
                | None => None
                end
           else None
       | "" => None
       end.

(** A literal and then [$]. *)
Definition lit_eol (p s : string) : bool :=
  match lit p s with
  | Some r => eol r
  | None => false
  end.

(** [CODEDOC_RE = ^>> (\S+)$], group 1. *)
Definition CODEDOC_RE (s : string) : option string :=
  r ← lit ">> " s;
  '(tok, r') ← plus (λ c, negb (is_space c)) r;
  if eol r' then Some tok else None.

(** [COMMENT_RE = ^(?://|#)(?: (.*$)|$)]: [Some g] when it matches, [g]
    being group 1, which is [None] when the second branch matched. *)
Definition COMMENT_RE (s : string) : option (option string) :=
  r ← match lit "//" s with
       | Some r => Some r
       | None => lit "#" s
       end;
  match lit " " r with
  | Some r' =>
      let '(g, r'') := span not_LF r' in
      if eol r'' then Some (Some g) else None
  | None => if eol r then Some None else None
  end.

(** [CLASS_RE = ^(?:export )?class (\w+)], group 1. *)
Definition CLASS_RE (s : string) : option string :=
  let after_class (s : string) :=
    r ← lit "class " s; fst <$> plus is_word r in
  match lit "export " s with
  | Some r =>
      match after_class r with
      | Some g => Some g
      | None => after_class s
      end
  | None => after_class s
  end.

(** [EXPORT_LET_RE = ^export let (\w+)], group 1. *)
Definition EXPORT_LET_RE (s : string) : option string :=
  r ← lit "export let " s; fst <$> plus is_word r.

(** [CONSTRUCTOR_RE = ^constructor\((.*?)\) \{$], group 1. *)
Definition CONSTRUCTOR_RE (s : string) : option string :=
  r ← lit "constructor(" s; lazy_dot (lit_eol ") {") r.

(** [METHOD_RE = ^(\w+\(.*?\)) {$], group 1: the name, the parenthesis,
    the arguments and the closing parenthesis. *)
Definition METHOD_RE (s : string) : option string :=
  '(name, r) ← plus is_word s;
  r' ← lit "(" r;
  args ← lazy_dot (lit_eol ") {") r';
  Some (name +:+ "(" +:+ args +:+ ")").

(** [GETTER_RE = ^get (\w+)\(\) {$], group 1. *)
Definition GETTER_RE (s : string) : option string :=
  r ← lit "get " s;
  '(name, r') ← plus is_word r;
  if lit_eol "() {" r' then Some name else None.

(** [ATTRIBUTE_RE = ^this.(\w+)\s*=], group 1; the dot after [this] is
    not escaped and stands for any character but a line feed. *)
Definition ATTRIBUTE_RE (s : string) : option string :=
  r ← lit "this" s;
  match r with
  | String c r' =>
      if not_LF c
      then '(name, r'') ← plus is_word r';
           let '(_, r''') := span is_space r'' in
           _ ← lit "=" r''';
           Some name
      else None
  | "" => None
  end.

(** [MODULE_RE = src/(.*?)\.js$] at one position of the subject. *)
Definition MODULE_RE_at (s : string) : option string :=
  r ← lit "src/" s; lazy_dot (lit_eol ".js") r.

(** [MODULE_RE.search(s)], group 1: the leftmost position that matches. *)
Fixpoint MODULE_RE_search (s : string) : option string :=
  match MODULE_RE_at s with
  | Some g => Some g
  | None =>
      match s with
      | String _ s' => MODULE_RE_search s'
      | "" => None
      end
  end.

End Re.

(** ** Exceptions

    Nothing in the script catches an exception raised while a file is
    processed: the first one ends the run. *)

Inductive exn := AttributeError | IndexError | TypeError.

Inductive result (A : Type) :=
| Ok (a : A)
| Raise (e : exn).
Arguments Ok {A} a.
Arguments Raise {A} e.

Global Instance result_ret : MRet result := λ A a, Ok a.
Global Instance result_bind : MBind result := λ A B f m,
  match m with
  | Ok a => f a
  | Raise e => Raise e
  end.

(** ** The document tree

    A node object is a cell of the store, named by its index there;
    [contents] holds strings and references to other nodes, in the order
    they were appended. *)

Inductive Content :=
| Text (s : string)
| Child (l : nat).

(** The classes of nodes with the attributes [initialize] gives them:
    [Node] itself (a codedoc file), [ModuleNode], and the four
    [DomainNode]s. *)
Inductive Kind :=
| PlainNode
| ModuleNode (name : string)
| ClassNode (module : nat) (name arguments : string)
| MethodNode (class_node : nat) (name : string)
| AttributeNode (class_node : nat) (name : string)
| DataNode (module : nat) (name : string).

Record Node := mkNode { kind : Kind; contents : list Content }.

(** [RootNode]: its two dictionaries, and the node objects of the run. *)
Record RootNode := mkRoot {
  heap : list Node;
  modules : gmap string nat;
  files : gmap string nat
}.

Definition RootNode_init : RootNode := mkRoot [] ∅ ∅.

Global Instance Content_eq_dec : EqDecision Content.
Proof. solve_decision. Defined.
Global Instance Kind_eq_dec : EqDecision Kind.
Proof. solve_decision. Defined.
Global Instance Node_eq_dec : EqDecision Node.
Proof. solve_decision. Defined.

(** Calling a node class: a new object, with empty [contents]. *)
Definition alloc (k : Kind) (r : RootNode) : nat * RootNode :=
  (length (heap r), mkRoot (heap r ++ [mkNode k []]) (modules r) (files r)).

(** [Node.add]: [self.contents.append(item)], on the object at [l]. *)
Definition add (l : nat) (item : Content) (r : RootNode) : RootNode :=
  mkRoot (alter (λ n, mkNode (kind n) (contents n ++ [item])) l (heap r))
         (modules r) (files r).

(** [Node.add_text]: [self.contents.append('\n'.join(buf))]. *)
Definition add_text (l : nat) (buf : list string) (r : RootNode) : RootNode :=
  add l (Text (Str.join (String Str.LF "") buf)) r.

(** [RootNode.file]: the node of an output file, created on first use. *)
Definition file (file_name : string) (k : Kind) (r : RootNode)
  : nat * RootNode :=
  match files r !! file_name with
  | Some l => (l, r)
  | None =>
      let '(l, r') := alloc k r in
      (l, mkRoot (heap r') (modules r') (<[file_name := l]> (files r')))
  end.

(** [RootNode.module]: the node of a module, created on first use as the
    file [modules/<name>.rst]. *)
Definition module (module_name : string) (r : RootNode) : nat * RootNode :=
  match modules r !! module_name with
  | Some l => (l, r)
  | None =>
      let file_name := "modules/" +:+ module_name +:+ ".rst" in
      let '(l, r') := file file_name (ModuleNode module_name) r in
      (l, mkRoot (heap r') (<[module_name := l]> (modules r')) (files r'))
  end.

(** [self.module.name] of a class or data node. *)
Definition ModuleNode_name (r : RootNode) (l : nat) : option string :=
  match kind <$> heap r !! l with
  | Some (ModuleNode name) => Some name
  | _ => None
  end.

(** [ClassNode.index]. *)
Definition ClassNode_index (r : RootNode) (l : nat) : option string :=
  match kind <$> heap r !! l with
  | Some (ClassNode m name _) =>
      mname ← ModuleNode_name r m; Some (mname +:+ "; " +:+ name)
  | _ => None
  end.

(** [index()] of the domain node at [l]. *)
Definition index (r : RootNode) (l : nat) : option string :=
  match kind <$> heap r !! l with
  | Some (ClassNode _ _ _) => ClassNode_index r l
  | Some (MethodNode c name) | Some (AttributeNode c name) =>
      ci ← ClassNode_index r c; Some (ci +:+ "#" +:+ name)
  | Some (DataNode m name) =>
      mname ← ModuleNode_name r m; Some (mname +:+ "; " +:+ name)
  | _ => None
  end.

(** [directive()] of the domain node at [l]. *)
Definition directive (r : RootNode) (l : nat) : option string :=
  match kind <$> heap r !! l with
  | Some (ClassNode _ name arguments) =>
      Some ("js:class:: " +:+ name +:+ "(" +:+ arguments +:+ ")")
  | Some (MethodNode _ name) => Some ("js:function:: " +:+ name)
  | Some (AttributeNode _ name) => Some ("js:attribute:: " +:+ name)
  | Some (DataNode _ name) => Some ("js:data:: " +:+ name)
  | _ => None
  end.

(** ** FileProcessor

    One [FileProcessor] is made for each source file. [buffer] is the open
    comment block, [None] when there is none. [last_codedoc] is an attribute
    that [__init__] and [process] never set: it is [None] here until the
    codedoc rule assigns it, and reading it before that raises
    [AttributeError]. [root] is the shared [RootNode], threaded next to the
    processor. [current_line] is the argument [line] of the functions below
    and [current_match] is the value bound by the [match] on a pattern:
    [group] always reads the match object of the test just passed. *)

Inductive PostState := post_class.

Record FileProcessor := mkFP {
  path : string;
  buffer : option (list string);
  post_state : option PostState;
  current_class : option nat;
  last_codedoc : option nat
}.

(** [FileProcessor.__init__]. *)
Definition FileProcessor_init (path : string) : FileProcessor :=
  mkFP path None None None None.

Definition set_buffer (b : option (list string)) (fp : FileProcessor) :=
  mkFP (path fp) b (post_state fp) (current_class fp) (last_codedoc fp).
Definition set_post_state (s : option PostState) (fp : FileProcessor) :=
  mkFP (path fp) (buffer fp) s (current_class fp) (last_codedoc fp).
Definition set_current_class (c : option nat) (fp : FileProcessor) :=
  mkFP (path fp) (buffer fp) (post_state fp) c (last_codedoc fp).
Definition set_last_codedoc (c : option nat) (fp : FileProcessor) :=
  mkFP (path fp) (buffer fp) (post_state fp) (current_class fp) c.

(** [FileProcessor.module_doc]; [match.group] on a failed search raises. *)
Definition module_doc (fp : FileProcessor) (r : RootNode)
  : result (nat * RootNode) :=
  match Re.MODULE_RE_search (path fp) with
  | None => Raise AttributeError
  | Some modulename =>
      let modulename :=
        if Str.endswith modulename "/index"
        then Str.slice_to_neg 6 modulename else modulename in
      Ok (module modulename r)
  end.

(** The test of the attribute rule:
    [self.match(GETTER_RE) or self.match(ATTRIBUTE_RE)]. *)
Definition getter_or_attribute (line : string) : option string :=
  match Re.GETTER_RE line with
  | Some g => Some g
  | None => Re.ATTRIBUTE_RE line
  end.

(** [FileProcessor.process_post_comment]. In the last branch
    [self.match(1)] calls [match] on the integer [1], which has no such
    method. *)
Definition process_post_comment (line : string) (fp : FileProcessor)
  (r : RootNode) : result (FileProcessor * RootNode) :=
  match post_state fp with
  | None =>
      match buffer fp with
      | None => Raise TypeError
      | Some [] => Raise IndexError
      | Some ((b0 :: rest) as buf) =>
          match Re.CODEDOC_RE b0 with
          | Some tok =>
              let file_name := "_codedoc/" +:+ tok +:+ ".txt" in
              let '(codedoc, r) := file file_name PlainNode r in
              Ok (set_last_codedoc (Some codedoc) fp, add_text codedoc rest r)
          | None =>
          if String.eqb b0 ">>" then
            match last_codedoc fp with
            | None => Raise AttributeError
            | Some codedoc => Ok (fp, add_text codedoc rest r)
            end
          else
          match Re.CLASS_RE line with
          | Some name =>
              '(module_node, r) ← module_doc fp r;
              let '(class_node, r) := alloc (ClassNode module_node name "") r in
              let fp := set_current_class (Some class_node) fp in
              let r := add module_node (Child class_node) r in
              let r := add_text class_node buf r in
              Ok (set_post_state (Some post_class) fp, r)
          | None =>
          match c ← current_class fp; g ← Re.METHOD_RE line; Some (c, g) with
          | Some (c, name) =>
              let '(method_node, r) := alloc (MethodNode c name) r in
              let r := add_text method_node buf r in
              Ok (fp, add c (Child method_node) r)
          | None =>
          match c ← current_class fp; g ← getter_or_attribute line;
                Some (c, g) with
          | Some (c, name) =>
              let '(attr_node, r) := alloc (AttributeNode c name) r in
              let r := add_text attr_node buf r in
              Ok (fp, add c (Child attr_node) r)
          | None =>
          match Re.EXPORT_LET_RE line with
          | Some name =>
              '(module_node, r) ← module_doc fp r;
              let '(data_node, r) := alloc (DataNode module_node name) r in
              let r := add_text data_node buf r in
              Ok (fp, add module_node (Child data_node) r)
          | None => Ok (fp, r)
          end end end end end
      end
  | Some post_class =>
      match Re.CONSTRUCTOR_RE line with
      | Some _ => Raise AttributeError
      | None => Ok (fp, r)
      end
  end.

(** [FileProcessor.process_line], on the stripped line. *)
Definition process_line (line : string) (fp : FileProcessor) (r : RootNode)
  : result (FileProcessor * RootNode) :=
  match Re.COMMENT_RE line with
  | Some g =>
      let buf := default [] (buffer fp) in
      Ok (set_buffer (Some (buf ++ [default "" g])) fp, r)
  | None =>
      match buffer fp with
      | Some _ =>
          '(fp, r) ← process_post_comment line (set_post_state None fp) r;
          Ok (set_buffer None fp, r)
      | None => Ok (fp, r)
      end
  end.

(** The loop of [process] over the lines the file yields. *)
Fixpoint process_lines (lines : list string) (fp : FileProcessor)
  (r : RootNode) : result (FileProcessor * RootNode) :=
  match lines with
  | [] => Ok (fp, r)
  | line :: lines' =>
      '(fp, r) ← process_line (Str.strip line) fp r;
      process_lines lines' fp r
  end.

(** [FileProcessor.process]; [lines] is what iterating over the open file
    gives. ([self.state] is assigned and never read.) *)
Definition process (lines : list string) (fp : FileProcessor) (r : RootNode)
  : result (FileProcessor * RootNode) :=
  process_lines lines (set_current_class None fp) r.

(** ** main

    A source file is its path and its lines. [main] makes one processor per
    file, then writes every node of [root.files] and the modules index. *)

Definition source : Type := string * list string.

Fixpoint process_all (srcs : list source) (r : RootNode) : result RootNode :=
  match srcs with
  | [] => Ok r
  | (p, lines) :: srcs' =>
      '(_, r) ← process lines (FileProcessor_init p) r;
      process_all srcs' r
  end.

(** [sorted(root.modules)]: the keys of the dictionary, in the order of
    [str] comparison (byte by byte, a proper prefix first). *)
Definition sorted (m : gmap string nat) : list string :=
  merge_sort String.le (map_to_list m).*1.

(** The lines printed to [modules/index.rst]. *)
Definition index_header : list string :=
  ["Modules Index"; "============="; ".. toctree::"; "   :maxdepth: 2"; ""].

Definition index_body (r : RootNode) : list string :=
  (λ key, "   " +:+ key) <$> sorted (modules r).

Definition index_rst (r : RootNode) : list string :=
  index_header ++ index_body r.

(** [main], as far as the tree and the index go: the final tree and the
    lines of the index, or the exception that ended the run. *)
Definition main (srcs : list source) : result (RootNode * list string) :=
  r ← process_all srcs RootNode_init;
  Ok (r, index_rst r).

(** ** The serializer

    [str(node)], by the class of the node. A node renders its contents
    through [text_contents], which renders the child nodes in turn: the
    recursion follows the references of the store, so [str] takes the
    depth it may go to, and [None] stands for a rendering that gives no
    string (the depth is used up, or a reference or an attribute is
    missing). *)

(** The one-character string of a line feed. *)
Definition NL : string := String Str.LF "".

Definition indent3 (x : string) : string :=
  Str.join NL ((λ line, "   " +:+ line) <$> Str.splitlines x).

(** [Node.text_contents], given [str] for the child nodes; a string of
    [contents] is its own [str]. *)
Definition text_contents (str : nat → option string) (n : Node)
  : option string :=
  parts ← mapM (λ item, match item with
                         | Text s => Some s
                         | Child c => str c
                         end) (contents n);
  Some (Str.join (NL +:+ NL) parts).

(** [ModuleNode.__str__], on the name and the text of the contents. *)
Definition ModuleNode_str (name body : string) : string :=
  name +:+ NL +:+ Str.mul "=" (String.length name) +:+ NL +:+ body.

(** [DomainNode.__str__], on the values of [index()], [directive()] and
    [text_contents()]. *)
Definition DomainNode_str (index directive body : string) : string :=
  ".. index::" +:+ NL +:+ "   single: " +:+ index +:+ NL +:+ NL +:+
  ".. " +:+ directive +:+ NL +:+ "   :noindex:" +:+ NL +:+ NL +:+
  indent3 body.

(** [str(node)] for the node at [l]. *)
Fixpoint str (depth : nat) (r : RootNode) (l : nat) : option string :=
  match depth with
  | 0 => None
  | S depth' =>
      n ← heap r !! l;
      body ← text_contents (str depth' r) n;
      match kind n with
      | PlainNode => Some body
      | ModuleNode name => Some (ModuleNode_str name body)
      | _ =>
          i ← index r l; d ← directive r l;
          Some (DomainNode_str i d body)
      end
  end.

(** [print >> f, line] for every line. *)
Definition print_lines (lines : list string) : string :=
  Str.join "" ((λ line, line +:+ NL) <$> lines).

(** The second half of [main]: the files written, by name, with what
    each one holds in the end. Every node of [root.files] is rendered and
    written to its file name (a [dict] is gone through in some order of
    its keys, here that of [map_to_list]); [modules/index.rst] is written
    last. The directories [mkpath] makes are left out. *)
Definition write_files (depth : nat) (r : RootNode)
  : option (gmap string string) :=
  texts ← mapM (λ '(filename, l), text ← str depth r l;
                                   Some (filename, text))
               (map_to_list (files r));
  Some (<["modules/index.rst" := print_lines (index_rst r)]>
          (list_to_map texts)).

(** ** get_source_files

    [os.walk] is given by what it yields: the directories, each with the
    names of its files. [fnmatch.filter(filenames, '*' + ext)] keeps the
    names that end with [ext] (on a POSIX system, where [fnmatch] tells
    upper case from lower case). *)

Definition walk : Type := list (string * list string).

Definition fnmatch_filter (filenames : list string) (ext : string)
  : list string :=
  List.filter (λ filename, Str.endswith filename ext) filenames.

Definition walk_files (w : walk) (ext : string) : list string :=
  '(root, filenames) ← w;
  (λ filename, root +:+ "/" +:+ filename) <$> fnmatch_filter filenames ext.

Definition get_source_files (src docs : walk) : list string :=
  walk_files src ".js" ++ walk_files docs ".py".

(** ** Vocabulary of the statements *)

Section vocabulary.
Import Str Re.
Implicit Types (r : RootNode) (fp : FileProcessor) (line : string).

(** A line of the file is a comment line. *)
Definition comment_line (raw : string) : bool :=
  match COMMENT_RE (strip raw) with
  | Some _ => true
  | None => false
  end.

(** The name [module_doc] hands to [root.module]. *)
Definition modulename_of (path : string) : option string :=
  modulename ← MODULE_RE_search path;
  Some (if endswith modulename "/index"
        then slice_to_neg 6 modulename else modulename).

(** The buffer is not a narrative block. *)
Definition plain_buffer (b0 : string) : Prop :=
  CODEDOC_RE b0 = None ∧ b0 ≠ ">>".

(** The method and attribute rules are out of reach: no active class, or
    a line that is none of the three shapes. *)
Definition no_member_rule fp line : Prop :=
  current_class fp = None ∨
  (METHOD_RE line = None ∧ GETTER_RE line = None ∧ ATTRIBUTE_RE line = None).

(** The classes of the node objects, in the order they were made. *)
Definition kinds r : list Kind := kind <$> heap r.

(** A module node at most, made on the way to a class or data node. *)
Definition module_or_none (mods : list Kind) : Prop :=
  mods = [] ∨ ∃ mname, mods = [ModuleNode mname].

(** The line is a triggering line that the class rule takes. *)
Definition class_rule_fires fp line : Prop :=
  COMMENT_RE line = None ∧
  ∃ b0 rest, buffer fp = Some (b0 :: rest) ∧ CODEDOC_RE b0 = None ∧
             b0 ≠ ">>" ∧ is_Some (CLASS_RE line).

(** [line] is a bare signature [name(args) {] and [sig] is [name(args)]. *)
Definition bare_signature (line sig : string) : Prop :=
  ∃ name args, name ≠ "" ∧ all is_word name = true ∧
    all not_LF args = true ∧
    line = name +:+ "(" +:+ args +:+ ") {" ∧
    sig = name +:+ "(" +:+ args +:+ ")".

(** Some node made on the way from [r] to [r'] is a [MethodNode]. *)
Definition creates_method r r' : Prop :=
  ∃ c name, MethodNode c name ∈ drop (length (heap r)) (kinds r').

(** The nodes one line makes, by rule: none; the node of a codedoc file;
    a class node, after the node of its module when that is new; a method
    node; an attribute node; a data node, after the node of its module
    when that is new. A class node starts with empty [arguments] and
    becomes the active class; a method node is made by the method rule
    only. [news] are the classes of the nodes made on the way from [r],
    and [fp'] is the processor afterwards. *)
Definition made_by line fp r fp' (news : list Kind) : Prop :=
  news = [] ∨ news = [PlainNode]
  ∨ (∃ mods m name, news = mods ++ [ClassNode m name ""] ∧
       module_or_none mods ∧ class_rule_fires fp line ∧
       CLASS_RE line = Some name ∧
       current_class fp' = Some (length (kinds r ++ mods)))
  ∨ (∃ c name b0 rest, news = [MethodNode c name] ∧
       COMMENT_RE line = None ∧ buffer fp = Some (b0 :: rest) ∧
       CODEDOC_RE b0 = None ∧ b0 ≠ ">>" ∧ current_class fp = Some c ∧
       METHOD_RE line = Some name)
  ∨ (∃ c name, news = [AttributeNode c name])
  ∨ (∃ mods m name, news = mods ++ [DataNode m name] ∧
       module_or_none mods).

(** One line and the active class: either the class rule takes the line,
    and the active class becomes the new node of that class; or it does
    not, and the active class stays. *)
Definition active_class_step line fp r fp' r' : Prop :=
  (class_rule_fires fp line ∧
   ∃ c m name, CLASS_RE line = Some name ∧ current_class fp' = Some c ∧
     length (heap r) ≤ c ∧ kinds r' !! c = Some (ClassNode m name ""))
  ∨ (¬ class_rule_fires fp line ∧ current_class fp' = current_class fp).

(** The arguments of every class node are empty. *)
Definition no_arguments (ks : list Kind) : Prop :=
  ∀ m name a, ClassNode m name a ∈ ks → a = "".

(** Two processors that [process_line] cannot tell apart: the same path
    and buffer, and an active class and a last narrative node in both or
    in neither. *)
Definition same_view fp1 fp2 : Prop :=
  path fp1 = path fp2 ∧ buffer fp1 = buffer fp2
  ∧ (current_class fp1 = None ↔ current_class fp2 = None)
  ∧ (last_codedoc fp1 = None ↔ last_codedoc fp2 = None).

(** Two runs of the same lines, from two trees, end alike: both raise, or
    both return, with processors that look the same and trees that have
    gained the same module names. *)
Definition alike (m1 m2 : result (FileProcessor * RootNode)) r1 r2 : Prop :=
  match m1, m2 with
  | Ok (fp1, r1'), Ok (fp2, r2') =>
      same_view fp1 fp2 ∧
      ∃ D : gset string, dom (modules r1') = dom (modules r1) ∪ D
                         ∧ dom (modules r2') = dom (modules r2) ∪ D
  | Raise _, Raise _ => True
  | _, _ => False
  end.

(** The module names a source file brings, when processing it returns. *)
Definition touched (src : source) : option (gset string) :=
  match process src.2 (FileProcessor_init src.1) RootNode_init with
  | Ok (_, r) => Some (dom (modules r))
  | Raise _ => None
  end.

Fixpoint touched_all (srcs : list source) : option (gset string) :=
  match srcs with
  | [] => Some ∅
  | src :: srcs' =>
      D ← touched src; D' ← touched_all srcs'; Some (D ∪ D')
  end.

(** No narrative block has been opened in the run: the tree has no
    codedoc file. *)
Definition no_narrative r : Prop :=
  ∀ tok, files r !! ("_codedoc/" +:+ tok +:+ ".txt") = None.

(** The last narrative node of the processor, when it has one, is the
    node of a codedoc file of the tree. *)
Definition narrative_known fp r : Prop :=
  ∀ l, last_codedoc fp = Some l →
       ∃ tok, files r !! ("_codedoc/" +:+ tok +:+ ".txt") = Some l.

(** [process_line] as a relation: one constructor for each way through
    [process_line] and [process_post_comment], with the state it ends
    in. *)
Inductive outcome line fp r : result (FileProcessor * RootNode) → Prop :=
| out_comment g :
    COMMENT_RE line = Some g →
    outcome line fp r
      (Ok (set_buffer (Some (default [] (buffer fp) ++ [default "" g])) fp, r))
| out_idle :
    COMMENT_RE line = None → buffer fp = None →
    outcome line fp r (Ok (fp, r))
| out_empty :
    COMMENT_RE line = None → buffer fp = Some [] →
    outcome line fp r (Raise IndexError)
| out_codedoc b0 rest tok :
    COMMENT_RE line = None → buffer fp = Some (b0 :: rest) →
    CODEDOC_RE b0 = Some tok →
    let o := file ("_codedoc/" +:+ tok +:+ ".txt") PlainNode r in
    outcome line fp r
      (Ok (set_buffer None
             (set_last_codedoc (Some o.1) (set_post_state None fp)),
           add_text o.1 rest o.2))
| out_continue rest codedoc :
    COMMENT_RE line = None → buffer fp = Some (">>" :: rest) →
    last_codedoc fp = Some codedoc →
    outcome line fp r
      (Ok (set_buffer None (set_post_state None fp),
           add_text codedoc rest r))
| out_continue_raise rest :
    COMMENT_RE line = None → buffer fp = Some (">>" :: rest) →
    last_codedoc fp = None →
    outcome line fp r (Raise AttributeError)
| out_class b0 rest name mname :
    COMMENT_RE line = None → buffer fp = Some (b0 :: rest) →
    plain_buffer b0 → CLASS_RE line = Some name →
    modulename_of (path fp) = Some mname →
    let o := module mname r in
    let class_node := length (heap o.2) in
    outcome line fp r
      (Ok (set_buffer None
             (set_post_state (Some post_class)
                (set_current_class (Some class_node)
                   (set_post_state None fp))),
           add_text class_node (b0 :: rest)
             (add o.1 (Child class_node)
                (alloc (ClassNode o.1 name "") o.2).2)))
| out_class_raise b0 rest name :
    COMMENT_RE line = None → buffer fp = Some (b0 :: rest) →
    plain_buffer b0 → CLASS_RE line = Some name →
    modulename_of (path fp) = None →
    outcome line fp r (Raise AttributeError)
| out_method b0 rest c name :
    COMMENT_RE line = None → buffer fp = Some (b0 :: rest) →
    plain_buffer b0 → CLASS_RE line = None →
    current_class fp = Some c → METHOD_RE line = Some name →
    let method_node := length (heap r) in
    outcome line fp r
      (Ok (set_buffer None (set_post_state None fp),
           add c (Child method_node)
             (add_text method_node (b0 :: rest)
                (alloc (MethodNode c name) r).2)))
| out_attribute b0 rest c name :
    COMMENT_RE line = None → buffer fp = Some (b0 :: rest) →
    plain_buffer b0 → CLASS_RE line = None →
    current_class fp = Some c → METHOD_RE line = None →
    getter_or_attribute line = Some name →
    let attr_node := length (heap r) in
    outcome line fp r
      (Ok (set_buffer None (set_post_state None fp),
           add c (Child attr_node)
             (add_text attr_node (b0 :: rest)
                (alloc (AttributeNode c name) r).2)))
| out_data b0 rest name mname :
    COMMENT_RE line = None → buffer fp = Some (b0 :: rest) →
    plain_buffer b0 → CLASS_RE line = None → no_member_rule fp line →
    EXPORT_LET_RE line = Some name →
    modulename_of (path fp) = Some mname →
    let o := module mname r in
    let data_node := length (heap o.2) in
    outcome line fp r
      (Ok (set_buffer None (set_post_state None fp),
           add o.1 (Child data_node)
             (add_text data_node (b0 :: rest)
                (alloc (DataNode o.1 name) o.2).2)))
| out_data_raise b0 rest name :
    COMMENT_RE line = None → buffer fp = Some (b0 :: rest) →
    plain_buffer b0 → CLASS_RE line = None → no_member_rule fp line →
    EXPORT_LET_RE line = Some name →
    modulename_of (path fp) = None →
    outcome line fp r (Raise AttributeError)
| out_nothing b0 rest :
    COMMENT_RE line = None → buffer fp = Some (b0 :: rest) →
    plain_buffer b0 → CLASS_RE line = None → no_member_rule fp line →
    EXPORT_LET_RE line = None →
    outcome line fp r (Ok (set_buffer None (set_post_state None fp), r)).

End vocabulary.

(** ** Vocabulary of the tree *)

Section tree_vocabulary.
Implicit Types (r : RootNode) (fp : FileProcessor) (n : Node) (k : Kind).

(** The node a domain node hangs from: its [module] or its
    [class_node]. *)
Definition parent k : option nat :=
  match k with
  | ClassNode m _ _ | DataNode m _ => Some m
  | MethodNode c _ | AttributeNode c _ => Some c
  | PlainNode | ModuleNode _ => None
  end.

(** The references and the strings of [contents], in order. *)
Definition children n : list nat :=
  omap (λ item, match item with Child c => Some c | Text _ => None end)
       (contents n).

Definition texts n : list string :=
  omap (λ item, match item with Text s => Some s | Child _ => None end)
       (contents n).

(** The levels: classes and data under a module, methods and attributes
    under a class. *)
Definition under (pk k : Kind) : Prop :=
  match k, pk with
  | ClassNode _ _ _, ModuleNode _ | DataNode _ _, ModuleNode _
  | MethodNode _ _, ClassNode _ _ _ | AttributeNode _ _, ClassNode _ _ _ =>
      True
  | _, _ => False
  end.

(** The node [n] at [l]: no node is in its contents twice; the nodes in
    its contents were made after it and name it as their module or
    class; a codedoc file holds strings only, a module nodes only, and
    a domain node its documentation first and then nodes only. *)
Definition node_ok r (l : nat) n : Prop :=
  NoDup (children n)
  ∧ (∀ c, c ∈ children n →
          l < c ∧ ∃ k, kinds r !! c = Some k ∧ parent k = Some l)
  ∧ match kind n with
    | PlainNode => contents n = Text <$> texts n
    | ModuleNode _ => contents n = Child <$> children n
    | _ => ∃ doc, contents n = Text doc :: (Child <$> children n)
    end.

(** The node at [c], of class [k], is in the contents of the node it
    names as its module or class, which is of the level above. *)
Definition owned r (c : nat) k : Prop :=
  ∀ p, parent k = Some p →
       ∃ n, heap r !! p = Some n ∧ c ∈ children n ∧ under (kind n) k.

(** The tree: every node is as [node_ok] and [owned] say; a module name
    goes to a [ModuleNode] of that name, which is also the node of the
    file [modules/<name>.rst]; a file name is that of a codedoc file,
    with a plain [Node], or that of a module; and a plain [Node] or a
    [ModuleNode] is the node of some file, and of one only. *)
Definition tree_ok r : Prop :=
  (∀ l n, heap r !! l = Some n → node_ok r l n ∧ owned r l (kind n))
  ∧ (∀ name l, modules r !! name = Some l →
       kinds r !! l = Some (ModuleNode name)
       ∧ files r !! ("modules/" +:+ name +:+ ".rst") = Some l)
  ∧ (∀ f l, files r !! f = Some l →
       (∃ tok, f = "_codedoc/" +:+ tok +:+ ".txt"
               ∧ kinds r !! l = Some PlainNode)
       ∨ (∃ name, f = "modules/" +:+ name +:+ ".rst"
                  ∧ modules r !! name = Some l))
  ∧ (∀ l k, kinds r !! l = Some k → parent k = None →
       ∃ f, files r !! f = Some l)
  ∧ (∀ f f' l, files r !! f = Some l → files r !! f' = Some l → f = f').

(** The active class is a class node and the last narrative node a
    plain node. *)
Definition processor_ok fp r : Prop :=
  (∀ c, current_class fp = Some c →
        ∃ m name a, kinds r !! c = Some (ClassNode m name a))
  ∧ (∀ l, last_codedoc fp = Some l → kinds r !! l = Some PlainNode).

(** From [r] to [r'] the tree has only grown: every node is still
    there, of the same class and with the same attributes, its contents
    longer at the end at most; and the two dictionaries have kept their
    entries. *)
Definition grows r r' : Prop :=
  (∀ l n, heap r !! l = Some n →
     ∃ n', heap r' !! l = Some n' ∧ kind n' = kind n
           ∧ contents n `prefix_of` contents n')
  ∧ modules r ⊆ modules r' ∧ files r ⊆ files r'.

End tree_vocabulary.

(** ** Vocabulary of the comment blocks *)

Section block_vocabulary.
Import Str Re.

(** The lines of a file, read as the scanner reads them: the comment
    blocks that a line which is no comment line follows, each with that
    line (stripped), in the order of the file; and the block that is
    still open after the last line, if there is one. [buf] is the block
    open before the first line. *)
Fixpoint scan (buf : option (list string)) (lines : list string)
  : list (list string * string) * option (list string) :=
  match lines with
  | [] => ([], buf)
  | raw :: lines' =>
      match COMMENT_RE (strip raw) with
      | Some g => scan (Some (default [] buf ++ [default "" g])) lines'
      | None =>
          let '(blocks, open) := scan None lines' in
          (match buf with
           | Some b => (b, strip raw) :: blocks
           | None => blocks
           end, open)
      end
  end.

Definition comment_blocks (lines : list string)
  : list (list string * string) := (scan None lines).1.

Definition open_block (lines : list string) : option (list string) :=
  (scan None lines).2.

(** The token of a block that opens a narrative block: its first line
    is [>> token]. *)
Definition opens (block : list string * string) : option string :=
  b0 ← head block.1; CODEDOC_RE b0.

(** The tokens of the narrative blocks the lines open, in order. *)
Definition opened (lines : list string) : list string :=
  omap opens (comment_blocks lines).

End block_vocabulary.

(** ** Facts about strings and the matchers *)

Section string_facts.
Import Str Re.
Local Arguments String.append : simpl nomatch.

Lemma str_app_nil_r (s : string) : s +:+ "" = s.
Proof. induction s; simpl; congruence. Qed.

Lemma str_app_assoc (a b c : string) : (a +:+ b) +:+ c = a +:+ b +:+ c.
Proof. induction a; simpl; congruence. Qed.

Lemma str_app_length (a b : string) :
  String.length (a +:+ b) = String.length a + String.length b.
Proof. induction a; simpl; congruence. Qed.

Lemma all_app p (a b : string) : all p (a +:+ b) = all p a && all p b.
Proof. induction a as [|c a IH]; simpl; [done|]. by rewrite IH, andb_assoc. Qed.

Lemma lit_app (p r : string) : lit p (p +:+ r) = Some r.
Proof. induction p; simpl; [done|]. by rewrite Ascii.eqb_refl. Qed.

Lemma lit_Some (p s r : string) : lit p s = Some r → s = p +:+ r.
Proof.
  revert s. induction p as [|c p IH]; intros [|d s] H; simplify_eq/=; [done..|].
  destruct (Ascii.eqb_spec c d); [subst|done]. by rewrite (IH s H).
Qed.

Lemma eol_true (s : string) : eol s = true → s = "" ∨ s = String LF "".
Proof.
  destruct s as [|c [|]]; simpl; intros H; try done; [by left|].
  apply Ascii.eqb_eq in H. subst. by right.
Qed.

Lemma span_app p (s a b : string) : span p s = (a, b) → s = a +:+ b.
Proof.
  revert a b. induction s as [|c s IH]; intros a b H; simplify_eq/=; [done|].
  destruct (p c); simplify_eq/=; [|done].
  destruct (span p s) as [a' b'] eqn:E. simplify_eq/=. by rewrite (IH a' b).
Qed.

Lemma span_all p (s a b : string) : span p s = (a, b) → all p a = true.
Proof.
  revert a b. induction s as [|c s IH]; intros a b H; simplify_eq/=; [done|].
  destruct (p c) eqn:Hc; simplify_eq/=; [|done].
  destruct (span p s) as [a' b'] eqn:E. simplify_eq/=.
  rewrite Hc. simpl. eauto.
Qed.

(** A run followed by a character outside the class is the longest run. *)
Lemma span_run p (a : string) c (b : string) :
  all p a = true → p c = false → span p (a +:+ String c b) = (a, String c b).
Proof.
  intros Ha Hc. induction a as [|d a IH]; simpl in *.
  - by rewrite Hc.
  - apply andb_true_iff in Ha as [-> Ha]. by rewrite (IH Ha).
Qed.

Lemma span_run_end p (a : string) : all p a = true → span p a = (a, "").
Proof.
  intros Ha. induction a as [|d a IH]; simpl in *; [done|].
  apply andb_true_iff in Ha as [-> Ha]. by rewrite (IH Ha).
Qed.

Lemma plus_Some p (s a b : string) :
  plus p s = Some (a, b) → s = a +:+ b ∧ a ≠ "" ∧ all p a = true.
Proof.
  unfold plus. destruct (span p s) as [a' b'] eqn:E.
  destruct a'; intros; simplify_eq/=.
  split_and!; [by apply (span_app p _ (String _ _))|done|by apply (span_all _ _ _ _ E)].
Qed.

Lemma plus_run p (a : string) c (b : string) :
  a ≠ "" → all p a = true → p c = false →
  plus p (a +:+ String c b) = Some (a, String c b).
Proof.
  intros Hne Ha Hc. unfold plus. rewrite span_run by done. by destruct a.
Qed.

Lemma lazy_dot_Some k (s a : string) :
  lazy_dot k s = Some a →
  all not_LF a = true ∧ ∃ r, s = a +:+ r ∧ k r = true.
Proof.
  revert a. induction s as [|c s IH]; intros a; simpl.
  - destruct (k "") eqn:Hk; intros; simplify_eq/=. eauto.
  - destruct (k (String c s)) eqn:Hk; intros H; simplify_eq/=; [eauto|].
    destruct (not_LF c) eqn:Hc; [|done].
    destruct (lazy_dot k s) as [a'|]; simplify_eq/=.
    destruct (IH a' eq_refl) as (Ha & r & -> & Hr).
    rewrite Hc, Ha. eauto.
Qed.

(** The shortest run is the whole of [a] when the rest of the pattern
    accepts nothing that starts inside [a]. *)
Lemma lazy_dot_run k (a r : string) :
  all not_LF a = true → k r = true →
  (∀ a1 c a2, a = a1 +:+ String c a2 → k (String c a2 +:+ r) = false) →
  lazy_dot k (a +:+ r) = Some a.
Proof.
  revert r. induction a as [|c a IH]; intros r Ha Hr Hk.
  - simpl. destruct r; simpl; by rewrite Hr.
  - simpl in Ha. apply andb_true_iff in Ha as [Hc Ha].
    change (String c a +:+ r) with (String c (a +:+ r)).
    pose proof (Hk "" c a eq_refl) as H0. simpl in H0 |- *. rewrite H0, Hc.
    rewrite IH; [done..|].
    intros a1 d a2 ->. apply (Hk (String c a1)). done.
Qed.

(** [p] followed by [$] accepts [x +:+ p] only for an empty [x], as soon
    as [p] is not of the form [c p' = p' LF]. *)
Lemma lit_eol_app (p x : string) :
  (∀ c, String c p ≠ p +:+ String LF "") →
  lit_eol p (x +:+ p) = true → x = "".
Proof.
  intros Hp. unfold lit_eol. destruct (lit p (x +:+ p)) as [r|] eqn:E; [|done].
  intros Hr. apply lit_Some in E. apply eol_true in Hr as [->| ->].
  - rewrite str_app_nil_r in E. apply (f_equal String.length) in E.
    rewrite str_app_length in E. destruct x; [done|simpl in E; lia].
  - destruct x as [|c [|c' x]]; [done| |].
    + by destruct (Hp c).
    + apply (f_equal String.length) in E. rewrite !str_app_length in E.
      simpl in E. lia.
Qed.

Lemma lit_eol_refl (p : string) : lit_eol p p = true.
Proof.
  unfold lit_eol. rewrite <-(str_app_nil_r p) at 2. by rewrite lit_app.
Qed.

Lemma lit_eol_true (p s : string) :
  lit_eol p s = true → s = p ∨ s = p +:+ String LF "".
Proof.
  unfold lit_eol. destruct (lit p s) as [r|] eqn:E; [|done].
  intros Hr. apply lit_Some in E. apply eol_true in Hr as [->| ->].
  - left. by rewrite str_app_nil_r in E.
  - by right.
Qed.

Lemma lazy_dot_lit_eol (p a : string) :
  (∀ c, String c p ≠ p +:+ String LF "") →
  all not_LF a = true → lazy_dot (lit_eol p) (a +:+ p) = Some a.
Proof.
  intros Hp Ha. apply lazy_dot_run; [done|apply lit_eol_refl|].
  intros a1 c a2 _. destruct (lit_eol p (String c a2 +:+ p)) eqn:E; [|done].
  by apply lit_eol_app in E.
Qed.

End string_facts.

Section regex_facts.
Import Str Re.
Local Arguments String.append : simpl nomatch.
Local Arguments lit : simpl never.
Local Arguments lazy_dot : simpl never.
Local Arguments plus : simpl never.
Local Arguments span : simpl never.

Lemma paren_brace_ok c : String c ") {" ≠ ") {" +:+ String LF "".
Proof. done. Qed.

Lemma dot_js_ok c : String c ".js" ≠ ".js" +:+ String LF "".
Proof. done. Qed.

(** *** [METHOD_RE] *)

Lemma METHOD_RE_intro (name args : string) :
  name ≠ "" → all is_word name = true → all not_LF args = true →
  METHOD_RE (name +:+ "(" +:+ args +:+ ") {")
  = Some (name +:+ "(" +:+ args +:+ ")").
Proof.
  intros Hne Hw Ha. unfold METHOD_RE.
  change ("(" +:+ args +:+ ") {") with (String "(" (args +:+ ") {")).
  rewrite plus_run by done. simpl.
  change (lit "(" (String "(" (args +:+ ") {"))) with (Some (args +:+ ") {")).
  simpl. by rewrite (lazy_dot_lit_eol _ _ paren_brace_ok Ha).
Qed.

Lemma METHOD_RE_elim (l sig : string) :
  METHOD_RE l = Some sig →
  ∃ name args, name ≠ "" ∧ all is_word name = true ∧
    all not_LF args = true ∧ sig = name +:+ "(" +:+ args +:+ ")" ∧
    (l = name +:+ "(" +:+ args +:+ ") {" ∨
     l = name +:+ "(" +:+ args +:+ ") {" +:+ String LF "").
Proof.
  unfold METHOD_RE. intros H.
  destruct (plus is_word l) as [[name r]|] eqn:E1; [simpl in H|done].
  destruct (lit "(" r) as [r'|] eqn:E2; [simpl in H|done].
  destruct (lazy_dot (lit_eol ") {") r') as [args|] eqn:E3; [simpl in H|done].
  injection H as <-.
  apply plus_Some in E1 as (-> & Hne & Hw).
  apply lit_Some in E2 as ->.
  apply lazy_dot_Some in E3 as (Ha & r'' & -> & Hr).
  exists name, args. split_and!; [done..|].
  apply lit_eol_true in Hr as [->| ->]; [by left|by right].
Qed.

Lemma METHOD_RE_get (x : string) : METHOD_RE ("get " +:+ x) = None.
Proof. done. Qed.

(** What [\w+] takes from a subject that starts with a literal word and
    then a space. *)
Lemma plus_word_space (w x : string) :
  w ≠ "" → all is_word w = true →
  plus is_word (w +:+ String " " x) = Some (w, String " " x).
Proof. intros. by apply plus_run. Qed.

Lemma METHOD_RE_word_space (w x : string) :
  w ≠ "" → all is_word w = true → METHOD_RE (w +:+ String " " x) = None.
Proof. intros. unfold METHOD_RE. by rewrite plus_word_space. Qed.

Lemma CLASS_RE_Some (l g : string) :
  CLASS_RE l = Some g → ∃ x, l = "class " +:+ x ∨ l = "export " +:+ x.
Proof.
  unfold CLASS_RE. intros H.
  destruct (lit "export " l) as [r|] eqn:E1.
  { apply lit_Some in E1. eauto. }
  destruct (lit "class " l) as [r|] eqn:E2; [|done].
  apply lit_Some in E2. eauto.
Qed.

Lemma METHOD_RE_not_class (l g : string) :
  CLASS_RE l = Some g → METHOD_RE l = None.
Proof.
  intros (x & [->| ->])%CLASS_RE_Some.
  - by apply (METHOD_RE_word_space "class").
  - by apply (METHOD_RE_word_space "export").
Qed.

Lemma COMMENT_RE_Some (l : string) g :
  COMMENT_RE l = Some g → ∃ x, l = "//" +:+ x ∨ l = "#" +:+ x.
Proof.
  unfold COMMENT_RE. intros H.
  destruct (lit "//" l) as [r|] eqn:E1.
  { apply lit_Some in E1. eauto. }
  destruct (lit "#" l) as [r|] eqn:E2; [|done].
  apply lit_Some in E2. eauto.
Qed.

Lemma METHOD_RE_not_comment (l : string) g :
  COMMENT_RE l = Some g → METHOD_RE l = None.
Proof. by intros (x & [->| ->])%COMMENT_RE_Some. Qed.

(** *** [strip] *)

End regex_facts.

Section strip_facts.
Import Str Re.
Local Arguments String.append : simpl nomatch.

Lemma rstrip_last (s x : string) c :
  rstrip s = x +:+ String c "" → is_space c = false.
Proof.
  revert x. induction s as [|d s IH]; intros x; simpl.
  - by destruct x.
  - destruct (rstrip s) as [|e r] eqn:E.
    + destruct (is_space d) eqn:Hd; [by destruct x|].
      destruct x as [|? [|]]; intros; simplify_eq/=. done.
    + destruct x as [|? x]; intros; simplify_eq/=. eauto.
Qed.

Lemma strip_no_LF_end (s x : string) : strip s ≠ x +:+ String LF "".
Proof. intros H. by apply rstrip_last in H. Qed.

End strip_facts.

Section module_facts.
Import Str Re.
Local Arguments String.append : simpl nomatch.
Local Arguments lit : simpl never.
Local Arguments lazy_dot : simpl never.

(** *** [MODULE_RE], [endswith] and the slice *)

Lemma MODULE_RE_search_here (s g : string) :
  MODULE_RE_at s = Some g → MODULE_RE_search s = Some g.
Proof. intros H. destruct s; cbn [MODULE_RE_search]; by rewrite H. Qed.

Lemma MODULE_RE_search_src (p : string) :
  all not_LF p = true → MODULE_RE_search ("src/" +:+ p +:+ ".js") = Some p.
Proof.
  intros Hp. apply MODULE_RE_search_here.
  unfold MODULE_RE_at. rewrite lit_app. simpl. by apply lazy_dot_lit_eol.
Qed.

Lemma endswith_app (p suf : string) : endswith (p +:+ suf) suf = true.
Proof.
  induction p as [|c p IH].
  - change ("" +:+ suf) with suf.
    destruct suf; cbn [endswith]; by rewrite String.eqb_refl.
  - change (String c p +:+ suf) with (String c (p +:+ suf)).
    cbn [endswith]. rewrite IH. apply orb_true_r.
Qed.

Lemma slice_to_neg_app (p suf : string) :
  slice_to_neg (String.length suf) (p +:+ suf) = p.
Proof.
  induction p as [|c p IH].
  - simpl. destruct suf as [|d suf]; [done|].
    simpl. by rewrite Nat.leb_refl.
  - change (String c p +:+ suf) with (String c (p +:+ suf)).
    cbn [slice_to_neg]. rewrite IH.
    change (String.length (String c (p +:+ suf)))
      with (S (String.length (p +:+ suf))).
    rewrite str_app_length.
    by destruct (Nat.leb_spec (S (String.length p + String.length suf))
                   (String.length suf)); [lia|].
Qed.

End module_facts.

(** ** The store *)

Section store_facts.
Implicit Types (r : RootNode) (l : nat) (k : Kind).

Lemma alloc_fst k r : (alloc k r).1 = length (heap r).
Proof. done. Qed.

Lemma heap_alloc k r : heap (alloc k r).2 = heap r ++ [mkNode k []].
Proof. done. Qed.

Lemma heap_alloc_new k r :
  heap (alloc k r).2 !! length (heap r) = Some (mkNode k []).
Proof. rewrite heap_alloc. by apply list_lookup_middle. Qed.

Lemma heap_alloc_old k r l n :
  heap r !! l = Some n → heap (alloc k r).2 !! l = Some n.
Proof. intros. rewrite heap_alloc. by apply lookup_app_l_Some. Qed.

Lemma kind_add l item r i :
  kind <$> heap (add l item r) !! i = kind <$> heap r !! i.
Proof.
  unfold add. simpl. rewrite list_lookup_alter.
  case_decide; simplify_eq; by destruct (heap r !! i).
Qed.

Lemma kind_add_text l buf r i :
  kind <$> heap (add_text l buf r) !! i = kind <$> heap r !! i.
Proof. apply kind_add. Qed.

Lemma length_heap_add l item r : length (heap (add l item r)) = length (heap r).
Proof. unfold add. simpl. apply length_alter. Qed.

Lemma modules_add l item r : modules (add l item r) = modules r.
Proof. done. Qed.

Lemma files_add l item r : files (add l item r) = files r.
Proof. done. Qed.

Lemma modules_alloc k r : modules (alloc k r).2 = modules r.
Proof. done. Qed.

Lemma files_alloc k r : files (alloc k r).2 = files r.
Proof. done. Qed.

Lemma modules_file f k r : modules (file f k r).2 = modules r.
Proof. unfold file. by destruct (files r !! f). Qed.

(** [root.module(name)] makes [name] a key of [root.modules] and touches
    no other key. *)
Lemma dom_modules_module name r :
  dom (modules (module name r).2) = dom (modules r) ∪ {[name]}.
Proof.
  unfold module. destruct (modules r !! name) as [l|] eqn:E; simpl.
  - apply (elem_of_dom_2 (D:=gset string)) in E.
    symmetry. rewrite union_comm_L.
    apply subseteq_union_1_L. by apply singleton_subseteq_l.
  - destruct (file _ _ r) as [l r'] eqn:F. simpl.
    rewrite dom_insert_L.
    replace (modules r') with (modules (file ("modules/" +:+ name +:+ ".rst")
                                          (ModuleNode name) r).2)
      by by rewrite F.
    rewrite modules_file. apply union_comm_L.
Qed.

End store_facts.

(** ** One line at a time *)

Section step_facts.
Import Str Re.
Implicit Types (r : RootNode) (fp : FileProcessor) (line : string).

(** A comment line only grows the buffer. *)
Lemma process_line_comment line g fp r :
  COMMENT_RE line = Some g →
  process_line line fp r
  = Ok (set_buffer (Some (default [] (buffer fp) ++ [default "" g])) fp, r).
Proof. intros H. unfold process_line. by rewrite H. Qed.

(** Any other line is ignored when no buffer is open. *)
Lemma process_line_idle line fp r :
  COMMENT_RE line = None → buffer fp = None →
  process_line line fp r = Ok (fp, r).
Proof. intros H1 H2. unfold process_line. by rewrite H1, H2. Qed.

(** With a buffer open it is the triggering line: the buffer is routed
    and then cleared. *)
Lemma process_line_route line fp r buf :
  COMMENT_RE line = None → buffer fp = Some buf →
  process_line line fp r
  = '(fp', r') ← process_post_comment line (set_post_state None fp) r;
    Ok (set_buffer None fp', r').
Proof. intros H1 H2. unfold process_line. by rewrite H1, H2. Qed.

Lemma process_lines_app (l1 l2 : list string) fp r :
  process_lines (l1 ++ l2) fp r
  = '(fp', r') ← process_lines l1 fp r; process_lines l2 fp' r'.
Proof.
  revert fp r. induction l1 as [|x l1 IH]; intros fp r; simpl; [done|].
  destruct (process_line (strip x) fp r) as [[fp' r']|e]; simpl; [|done].
  apply IH.
Qed.

(** The rules of [process_post_comment], one equation each. *)

Lemma route_codedoc line fp r b0 rest tok :
  buffer fp = Some (b0 :: rest) → CODEDOC_RE b0 = Some tok →
  process_post_comment line (set_post_state None fp) r
  = let '(codedoc, r') := file ("_codedoc/" +:+ tok +:+ ".txt") PlainNode r in
    Ok (set_last_codedoc (Some codedoc) (set_post_state None fp),
        add_text codedoc rest r').
Proof. intros H1 H2. unfold process_post_comment. simpl. by rewrite H1, H2. Qed.

Lemma route_continue line fp r rest :
  buffer fp = Some (">>" :: rest) →
  process_post_comment line (set_post_state None fp) r
  = match last_codedoc fp with
    | None => Raise AttributeError
    | Some codedoc => Ok (set_post_state None fp, add_text codedoc rest r)
    end.
Proof. intros H1. unfold process_post_comment. simpl. by rewrite H1. Qed.

Lemma route_class line fp r b0 rest name :
  buffer fp = Some (b0 :: rest) → CODEDOC_RE b0 = None → b0 ≠ ">>" →
  CLASS_RE line = Some name →
  process_post_comment line (set_post_state None fp) r
  = '(module_node, r1) ← module_doc fp r;
    let class_node := length (heap r1) in
    Ok (set_post_state (Some post_class)
          (set_current_class (Some class_node) (set_post_state None fp)),
        add_text class_node (b0 :: rest)
          (add module_node (Child class_node)
             (alloc (ClassNode module_node name "") r1).2)).
Proof.
  intros H1 H2 H3%String.eqb_neq H4. unfold process_post_comment. simpl.
  rewrite H1, H2, H3, H4. unfold module_doc. simpl.
  destruct (MODULE_RE_search (path fp)); [|done]. simpl.
  by destruct (module _ r).
Qed.

Lemma route_method line fp r b0 rest c name :
  buffer fp = Some (b0 :: rest) → CODEDOC_RE b0 = None → b0 ≠ ">>" →
  CLASS_RE line = None → current_class fp = Some c →
  METHOD_RE line = Some name →
  process_post_comment line (set_post_state None fp) r
  = let method_node := length (heap r) in
    Ok (set_post_state None fp,
        add c (Child method_node)
          (add_text method_node (b0 :: rest)
             (alloc (MethodNode c name) r).2)).
Proof.
  intros H1 H2 H3%String.eqb_neq H4 H5 H6. unfold process_post_comment.
  simpl. by rewrite H1, H2, H3, H4, H5, H6.
Qed.

Lemma route_attribute line fp r b0 rest c name :
  buffer fp = Some (b0 :: rest) → CODEDOC_RE b0 = None → b0 ≠ ">>" →
  CLASS_RE line = None → current_class fp = Some c →
  METHOD_RE line = None → getter_or_attribute line = Some name →
  process_post_comment line (set_post_state None fp) r
  = let attr_node := length (heap r) in
    Ok (set_post_state None fp,
        add c (Child attr_node)
          (add_text attr_node (b0 :: rest)
             (alloc (AttributeNode c name) r).2)).
Proof.
  intros H1 H2 H3%String.eqb_neq H4 H5 H6 H7. unfold process_post_comment.
  simpl. by rewrite H1, H2, H3, H4, H5, H6, H7.
Qed.

Lemma route_data line fp r b0 rest name :
  buffer fp = Some (b0 :: rest) → CODEDOC_RE b0 = None → b0 ≠ ">>" →
  CLASS_RE line = None → no_member_rule fp line →
  EXPORT_LET_RE line = Some name →
  process_post_comment line (set_post_state None fp) r
  = '(module_node, r1) ← module_doc fp r;
    let data_node := length (heap r1) in
    Ok (set_post_state None fp,
        add module_node (Child data_node)
          (add_text data_node (b0 :: rest)
             (alloc (DataNode module_node name) r1).2)).
Proof.
  intros H1 H2 H3%String.eqb_neq H4 H5 H6. unfold process_post_comment.
  simpl. rewrite H1, H2, H3, H4, H6.
  assert ((c ← current_class fp; g ← METHOD_RE line; Some (c, g)) = None) as ->.
  { destruct H5 as [->|(-> & _)]; [done|]. by destruct (current_class fp). }
  assert ((c ← current_class fp; g ← getter_or_attribute line; Some (c, g))
          = None) as ->.
  { unfold getter_or_attribute.
    destruct H5 as [->|(_ & -> & ->)]; [done|]. by destruct (current_class fp). }
  unfold module_doc. simpl.
  destruct (MODULE_RE_search (path fp)); [|done]. simpl.
  by destruct (module _ r).
Qed.

Lemma route_nothing line fp r b0 rest :
  buffer fp = Some (b0 :: rest) → CODEDOC_RE b0 = None → b0 ≠ ">>" →
  CLASS_RE line = None → no_member_rule fp line →
  EXPORT_LET_RE line = None →
  process_post_comment line (set_post_state None fp) r
  = Ok (set_post_state None fp, r).
Proof.
  intros H1 H2 H3%String.eqb_neq H4 H5 H6. unfold process_post_comment.
  simpl. rewrite H1, H2, H3, H4, H6.
  assert ((c ← current_class fp; g ← METHOD_RE line; Some (c, g)) = None) as ->.
  { destruct H5 as [->|(-> & _)]; [done|]. by destruct (current_class fp). }
  assert ((c ← current_class fp; g ← getter_or_attribute line; Some (c, g))
          = None) as ->; [|done].
  unfold getter_or_attribute.
  destruct H5 as [->|(_ & -> & ->)]; [done|]. by destruct (current_class fp).
Qed.

End step_facts.

Section scanner.
Import Str Re.
Implicit Types (r : RootNode) (fp : FileProcessor) (line : string).

(** After a line that is not a comment no buffer is open. *)
Lemma buffer_cleared line fp r fp' r' :
  COMMENT_RE line = None →
  process_line line fp r = Ok (fp', r') → buffer fp' = None.
Proof.
  intros Hc. destruct (buffer fp) as [buf|] eqn:Hb.
  - rewrite (process_line_route _ _ _ buf) by done.
    destruct (process_post_comment _ _ _) as [[fp1 r1]|]; [|done].
    simpl. by intros [= <- <-].
  - rewrite process_line_idle by done. by intros [= <- <-].
Qed.

(** C6. A buffer that is not a narrative block and whose triggering line
    fits no construct rule in the current state (no class declaration, no
    method, getter or attribute line under an active class, no
    [export let]) is dropped: no node is made, the tree, the active class
    and the last narrative node stay as they were, and the buffer is
    cleared ([post_state] is the scratch flag every routing starts by
    resetting). The buffer is cleared as well after any other routing
    that returns. *)
Theorem unmatched_buffer_is_dropped line fp r b0 rest :
  buffer fp = Some (b0 :: rest) →
  COMMENT_RE line = None →
  CODEDOC_RE b0 = None → b0 ≠ ">>" →
  CLASS_RE line = None →
  no_member_rule fp line →
  EXPORT_LET_RE line = None →
  process_line line fp r = Ok (set_buffer None (set_post_state None fp), r)
  ∧ ∀ fp0 r0 fp' r',
      process_line line fp0 r0 = Ok (fp', r') → buffer fp' = None.
Proof.
  intros Hb Hc H1 H2 H3 H4 H5. split.
  - rewrite (process_line_route _ _ _ _ Hc Hb).
    by rewrite (route_nothing _ _ _ _ _ Hb H1 H2 H3 H4 H5).
  - intros fp0 r0 fp' r'. by apply buffer_cleared.
Qed.

Lemma unmatched_buffer_is_dropped_witness :
  process_line "let x = 1" (mkFP "src/a.js" (Some ["doc"]) None (Some 1) None)
    RootNode_init
  = Ok (mkFP "src/a.js" None None (Some 1) None, RootNode_init).
Proof.
  refine (proj1 (unmatched_buffer_is_dropped "let x = 1"
                   (mkFP "src/a.js" (Some ["doc"]) None (Some 1) None)
                   RootNode_init "doc" [] eq_refl eq_refl eq_refl _ eq_refl
                   (or_intror (conj eq_refl (conj eq_refl eq_refl))) eq_refl)).
  discriminate.
Defined.

(** Comment lines change nothing but the buffer. *)
Lemma process_lines_comments (tail : list string) fp r :
  forallb comment_line tail = true →
  ∃ b, process_lines tail fp r = Ok (set_buffer b fp, r).
Proof.
  revert fp. induction tail as [|x tail IH]; intros fp H; simpl in *.
  - exists (buffer fp). by destruct fp.
  - apply andb_true_iff in H as [Hx H]. unfold comment_line in Hx.
    destruct (COMMENT_RE (strip x)) as [g|] eqn:E; [|done].
    rewrite (process_line_comment _ g) by done. simpl.
    destruct (IH (set_buffer (Some (default [] (buffer fp) ++ [default "" g])) fp) H)
      as [b ->].
    by exists b.
Qed.

Lemma process_all_app (s1 s2 : list source) r :
  process_all (s1 ++ s2) r = r' ← process_all s1 r; process_all s2 r'.
Proof.
  revert r. induction s1 as [|[p ls] s1 IH]; intros r; simpl; [done|].
  destruct (process ls (FileProcessor_init p) r) as [[fp' r']|e]; simpl; [|done].
  apply IH.
Qed.

(** C7. Comment lines at the end of a file are never routed: processing
    the file with them gives the tree that processing it without them
    gives (and the same exception when it raises); only the buffer of the
    processor, which is thrown away with it, differs. So the whole run
    ends with the same tree and the same index. *)
Theorem trailing_comments_are_dropped (lines tail : list string) :
  forallb comment_line tail = true →
  (∀ fp r,
     match process lines fp r with
     | Ok (fp1, r1) =>
         ∃ b, process (lines ++ tail) fp r = Ok (set_buffer b fp1, r1)
     | Raise e => process (lines ++ tail) fp r = Raise e
     end)
  ∧ ∀ p before after,
      main (before ++ (p, lines ++ tail) :: after)
      = main (before ++ (p, lines) :: after).
Proof.
  intros Ht.
  assert (∀ fp r,
     match process lines fp r with
     | Ok (fp1, r1) =>
         ∃ b, process (lines ++ tail) fp r = Ok (set_buffer b fp1, r1)
     | Raise e => process (lines ++ tail) fp r = Raise e
     end) as Hfile.
  { intros fp r. unfold process. rewrite process_lines_app.
    destruct (process_lines lines _ r) as [[fp1 r1]|e]; simpl; [|done].
    destruct (process_lines_comments tail fp1 r1 Ht) as [b ->]. by exists b. }
  split; [done|].
  intros p before after. unfold main. f_equal.
  rewrite !process_all_app.
  destruct (process_all before RootNode_init) as [r|e]; simpl; [|done].
  specialize (Hfile (FileProcessor_init p) r).
  destruct (process lines (FileProcessor_init p) r) as [[fp1 r1]|e].
  - destruct Hfile as [b ->]. done.
  - by rewrite Hfile.
Qed.

Lemma trailing_comments_are_dropped_witness :
  main [("src/a.js", ["// A"; "class A {"] ++ ["// tail"; "//"])]
  = main [("src/a.js", ["// A"; "class A {"])].
Proof.
  apply (proj2 (trailing_comments_are_dropped
                  ["// A"; "class A {"] ["// tail"; "//"] eq_refl)
               "src/a.js" [] []).
Defined.

End scanner.

(** ** Every line takes one of the ways of [outcome] *)

Section outcomes.
Import Str Re.
Implicit Types (r : RootNode) (fp : FileProcessor) (line : string).

Lemma module_doc_eq fp r :
  module_doc fp r = match modulename_of (path fp) with
                    | Some name => Ok (module name r)
                    | None => Raise AttributeError
                    end.
Proof.
  unfold module_doc, modulename_of.
  by destruct (MODULE_RE_search (path fp)).
Qed.

Lemma no_member_rule_dec fp line :
  no_member_rule fp line ∨
  ∃ c, current_class fp = Some c ∧
       ((∃ name, METHOD_RE line = Some name) ∨
        (METHOD_RE line = None ∧ ∃ name, getter_or_attribute line = Some name)).
Proof.
  unfold no_member_rule, getter_or_attribute.
  destruct (current_class fp) as [c|]; [|by left; left].
  destruct (METHOD_RE line) as [m|]; [right; eauto|].
  destruct (GETTER_RE line) as [g|]; [right; eauto 10|].
  destruct (ATTRIBUTE_RE line) as [a|]; [right; eauto 10|].
  left. by right.
Qed.

(** [process_line] always takes exactly one of these ways. *)
Lemma process_line_outcome line fp r : outcome line fp r (process_line line fp r).
Proof.
  destruct (COMMENT_RE line) as [g|] eqn:Hc.
  { rewrite (process_line_comment _ g) by done. by constructor. }
  destruct (buffer fp) as [[|b0 rest]|] eqn:Hb.
  - rewrite (process_line_route _ _ _ []) by done.
    unfold process_post_comment. simpl. rewrite Hb. simpl. by apply out_empty.
  - rewrite (process_line_route _ _ _ (b0 :: rest)) by done.
    destruct (CODEDOC_RE b0) as [tok|] eqn:H1.
    { rewrite (route_codedoc _ _ _ _ _ tok Hb H1).
      pose proof (out_codedoc line fp r b0 rest tok Hc Hb H1) as Ho.
      simpl in Ho. by destruct (file _ _ r). }
    destruct (decide (b0 = ">>")) as [->|H2].
    { rewrite (route_continue _ _ _ _ Hb).
      destruct (last_codedoc fp) eqn:Hl; simpl.
      - by eapply out_continue.
      - by eapply out_continue_raise. }
    assert (plain_buffer b0) as Hp by done.
    destruct (CLASS_RE line) as [name|] eqn:H3.
    { rewrite (route_class _ _ _ _ _ name Hb H1 H2 H3), module_doc_eq.
      destruct (modulename_of (path fp)) as [mname|] eqn:Hm; simpl.
      - pose proof (out_class line fp r b0 rest name mname Hc Hb Hp H3 Hm) as Ho.
        simpl in Ho. by destruct (module mname r).
      - by eapply out_class_raise. }
    destruct (no_member_rule_dec fp line)
      as [Hn|(c & Hcc & [[name H4]|[H4 [name H5]]])].
    + destruct (EXPORT_LET_RE line) as [name|] eqn:H6.
      * rewrite (route_data _ _ _ _ _ name Hb H1 H2 H3 Hn H6), module_doc_eq.
        destruct (modulename_of (path fp)) as [mname|] eqn:Hm; simpl.
        -- pose proof (out_data line fp r b0 rest name mname
                         Hc Hb Hp H3 Hn H6 Hm) as Ho.
           simpl in Ho. by destruct (module mname r).
        -- by eapply out_data_raise.
      * rewrite (route_nothing _ _ _ _ _ Hb H1 H2 H3 Hn H6). simpl.
        by eapply out_nothing.
    + rewrite (route_method _ _ _ _ _ c name Hb H1 H2 H3 Hcc H4). simpl.
      by eapply out_method.
    + rewrite (route_attribute _ _ _ _ _ c name Hb H1 H2 H3 Hcc H4 H5). simpl.
      by eapply out_attribute.
  - rewrite process_line_idle by done. by constructor.
Qed.

(** To prove a property of the state a line leaves, prove it of the
    result of [process_line]. *)
Lemma by_outcome line fp r (P : FileProcessor → RootNode → Prop) :
  match process_line line fp r with
  | Ok (fp', r') => P fp' r'
  | Raise _ => True
  end →
  ∀ fp' r', process_line line fp r = Ok (fp', r') → P fp' r'.
Proof. intros H fp' r' E. by rewrite E in H. Qed.

End outcomes.

(** ** Narrative blocks *)

Section narrative.
Import Str Re.
Implicit Types (r : RootNode) (fp : FileProcessor) (line : string).

(** Routing a bare [>>] buffer in a processor that has a last narrative
    node appends to it. *)
Lemma continue_appends line fp r rest codedoc :
  COMMENT_RE line = None → buffer fp = Some (">>" :: rest) →
  last_codedoc fp = Some codedoc →
  process_line line fp r
  = Ok (set_buffer None (set_post_state None fp), add_text codedoc rest r).
Proof.
  intros Hc Hb Hl. rewrite (process_line_route _ _ _ _ Hc Hb).
  by rewrite (route_continue _ _ _ _ Hb), Hl.
Qed.

(** And raises in one that has none. *)
Lemma continue_raises line fp r rest :
  COMMENT_RE line = None → buffer fp = Some (">>" :: rest) →
  last_codedoc fp = None →
  process_line line fp r = Raise AttributeError.
Proof.
  intros Hc Hb Hl. rewrite (process_line_route _ _ _ _ Hc Hb).
  by rewrite (route_continue _ _ _ _ Hb), Hl.
Qed.

(** Only the codedoc rule assigns [last_codedoc]. *)
Lemma last_codedoc_assigned line fp r fp' r' :
  process_line line fp r = Ok (fp', r') →
  last_codedoc fp' = last_codedoc fp ∨
  ∃ b0 rest tok, COMMENT_RE line = None ∧ buffer fp = Some (b0 :: rest) ∧
    CODEDOC_RE b0 = Some tok ∧
    last_codedoc fp' = Some (file ("_codedoc/" +:+ tok +:+ ".txt") PlainNode r).1.
Proof.
  intros H. pose proof (process_line_outcome line fp r) as Ho.
  rewrite H in Ho. inversion Ho; subst; try by left.
  right. eauto 10.
Qed.

Lemma process_raise_later pre t post fp0 r fp r1 e :
  process pre fp0 r = Ok (fp, r1) →
  process_line (strip t) fp r1 = Raise e →
  process (pre ++ t :: post) fp0 r = Raise e.
Proof.
  unfold process. intros H1 H2.
  rewrite process_lines_app, H1. simpl. by rewrite H2.
Qed.

(** The files of the tree only grow. *)
Lemma files_file f k r : files r ⊆ files (file f k r).2.
Proof.
  unfold file. destruct (files r !! f) eqn:E; simpl; [done|].
  by apply insert_subseteq.
Qed.

Lemma files_module name r : files r ⊆ files (module name r).2.
Proof.
  unfold module. destruct (modules r !! name); simpl; [done|].
  pose proof (files_file ("modules/" +:+ name +:+ ".rst") (ModuleNode name) r).
  by destruct (file _ _ r).
Qed.

Local Arguments alloc : simpl never.
Local Arguments add : simpl never.
Local Arguments add_text : simpl never.
Local Arguments module : simpl never.
Local Arguments file : simpl never.

Lemma narrative_known_weaken fp r r' :
  files r ⊆ files r' → narrative_known fp r → narrative_known fp r'.
Proof.
  intros Hsub Hk l Hl. destruct (Hk l Hl) as [tok Ht].
  exists tok. by eapply lookup_weaken.
Qed.

Lemma narrative_known_step line fp r fp' r' :
  process_line line fp r = Ok (fp', r') →
  narrative_known fp r → narrative_known fp' r'.
Proof.
  revert fp' r'.
  apply (by_outcome line fp r
           (λ fp' r', narrative_known fp r → narrative_known fp' r')).
  destruct (process_line_outcome line fp r)
    as [g Hc|Hc Hb|Hc Hb|b0 rest tok Hc Hb H1 o|rest l Hc Hb Hl|rest Hc Hb Hl
       |b0 rest name mname Hc Hb Hp H3 Hm o cn|b0 rest name Hc Hb Hp H3 Hm
       |b0 rest c name Hc Hb Hp H3 Hcc H4 n
       |b0 rest c name Hc Hb Hp H3 Hcc H4 H5 n
       |b0 rest name mname Hc Hb Hp H3 Hn H6 Hm o dn
       |b0 rest name Hc Hb Hp H3 Hn H6 Hm
       |b0 rest Hc Hb Hp H3 Hn H6];
    cbv beta; try done.
  - intros _ l [= <-]. exists tok. subst o. unfold file.
    destruct (files r !! ("_codedoc/" +:+ tok +:+ ".txt")) eqn:E; simpl.
    + done.
    + by rewrite lookup_insert_eq.
  - intros Hk. apply (narrative_known_weaken fp r); [|done].
    apply (files_module mname r).
  - intros Hk. apply (narrative_known_weaken fp r); [|done].
    apply (files_module mname r).
Qed.

Lemma narrative_known_lines lines fp r fp' r' :
  process_lines lines fp r = Ok (fp', r') →
  narrative_known fp r → narrative_known fp' r'.
Proof.
  revert fp r. induction lines as [|x lines IH]; intros fp r; simpl.
  - by intros [= <- <-].
  - destruct (process_line (strip x) fp r) as [[fp1 r1]|] eqn:E; [|done].
    simpl. intros H Hk. eapply IH; [done|]. by eapply narrative_known_step.
Qed.

(** As long as no narrative block has been opened in the run, the
    processor of the file has no last narrative node. *)
Lemma no_narrative_no_last_codedoc p pre r fp r1 :
  process pre (FileProcessor_init p) r = Ok (fp, r1) →
  no_narrative r1 → last_codedoc fp = None.
Proof.
  intros H Hn. apply narrative_known_lines in H; [|done].
  destruct (last_codedoc fp) as [l|] eqn:Hl; [|done].
  destruct (H l Hl) as [tok Ht]. by rewrite Hn in Ht.
Qed.

(** C5. A comment buffer whose first line is the bare marker [>>],
    routed while no narrative block has been opened in the run (the tree
    has no codedoc file, and so the processor has no last narrative
    node), raises [AttributeError], and the run ends with it: nothing is
    appended, and no later line or file is processed. *)
Theorem bare_marker_without_narrative_aborts
    (before after : list source) (p : string) (pre post : list string)
    (t : string) r0 fp r1 rest :
  process_all before RootNode_init = Ok r0 →
  process pre (FileProcessor_init p) r0 = Ok (fp, r1) →
  buffer fp = Some (">>" :: rest) →
  no_narrative r1 →
  COMMENT_RE (strip t) = None →
  main (before ++ (p, pre ++ t :: post) :: after) = Raise AttributeError.
Proof.
  intros H0 H1 Hb Hn Hc. unfold main.
  rewrite process_all_app, H0. simpl.
  rewrite (process_raise_later pre t post _ _ fp r1 AttributeError H1); [done|].
  apply (continue_raises _ _ _ rest); [done..|].
  by eapply no_narrative_no_last_codedoc.
Qed.

Lemma bare_marker_without_narrative_aborts_witness :
  main ([("src/a.js", ["// A"; "class A {"])]
        ++ ("src/b.js", ["x"; "// >>"; "// more"] ++ "y" :: ["z"]) :: [])
  = Raise AttributeError.
Proof.
  eapply (bare_marker_without_narrative_aborts
            [("src/a.js", ["// A"; "class A {"])] []
            "src/b.js" ["x"; "// >>"; "// more"] ["z"] "y");
    [reflexivity..| |reflexivity].
  intros tok. simpl. apply lookup_insert_None. split; [apply lookup_empty|].
  intros H. vm_compute in H. discriminate H.
Defined.

(** C2, as stated, fails: the block [>> foo] is opened in the first
    file, and the bare [>>] buffer of the second file is not appended to
    its node; the run raises. *)
Lemma continuation_across_files_raises :
  let a := ("src/a.js", ["// >> foo"; "// text"; "x"]) in
  let b := ("src/b.js", ["// >>"; "// more"; "y"]) in
  process_all [a] RootNode_init
  = Ok (mkRoot [mkNode PlainNode [Text "text"]] ∅
          {[ "_codedoc/foo.txt" := 0 ]})
  ∧ main [a; b] = Raise AttributeError.
Proof. split; reflexivity. Qed.

End narrative.

(** ** The nodes a line makes *)

Section new_nodes.
Import Str Re.
Implicit Types (r : RootNode) (fp : FileProcessor) (line : string).

Lemma kinds_add l item r : kinds (add l item r) = kinds r.
Proof.
  apply list_eq. intros i. unfold kinds. rewrite !list_lookup_fmap.
  apply kind_add.
Qed.

Lemma kinds_add_text l buf r : kinds (add_text l buf r) = kinds r.
Proof. apply kinds_add. Qed.

Lemma kinds_alloc k r : kinds (alloc k r).2 = kinds r ++ [k].
Proof. unfold kinds. by rewrite heap_alloc, fmap_app. Qed.

Lemma length_kinds r : length (kinds r) = length (heap r).
Proof. apply length_fmap. Qed.

Lemma kinds_file f k r :
  kinds (file f k r).2 = kinds r ∨ kinds (file f k r).2 = kinds r ++ [k].
Proof.
  unfold file. destruct (files r !! f); [by left|right].
  apply kinds_alloc.
Qed.

Lemma kinds_module name r :
  ∃ mods, kinds (module name r).2 = kinds r ++ mods ∧ module_or_none mods.
Proof.
  unfold module. destruct (modules r !! name).
  { exists []. by rewrite app_nil_r; split; [|left]. }
  destruct (kinds_file ("modules/" +:+ name +:+ ".rst") (ModuleNode name) r)
    as [E|E]; destruct (file _ _ r) as [l r'] eqn:F; simpl in *.
  - exists []. rewrite app_nil_r. split; [done|by left].
  - exists [ModuleNode name]. split; [done|right; eauto].
Qed.

Local Arguments alloc : simpl never.
Local Arguments add : simpl never.
Local Arguments add_text : simpl never.

Lemma process_line_kinds line fp r fp' r' :
  process_line line fp r = Ok (fp', r') →
  ∃ news, kinds r' = kinds r ++ news ∧ made_by line fp r fp' news.
Proof.
  revert fp' r'. apply by_outcome. unfold made_by.
  destruct (process_line_outcome line fp r)
    as [g Hc|Hc Hb|Hc Hb|b0 rest tok Hc Hb H1 o|rest l Hc Hb Hl|rest Hc Hb Hl
       |b0 rest name mname Hc Hb Hp H3 Hm o cn|b0 rest name Hc Hb Hp H3 Hm
       |b0 rest c name Hc Hb Hp H3 Hcc H4 n
       |b0 rest c name Hc Hb Hp H3 Hcc H4 H5 n
       |b0 rest name mname Hc Hb Hp H3 Hn H6 Hm o dn
       |b0 rest name Hc Hb Hp H3 Hn H6 Hm
       |b0 rest Hc Hb Hp H3 Hn H6];
    try done.
  - exists []. rewrite app_nil_r. eauto.
  - exists []. rewrite app_nil_r. eauto.
  - rewrite kinds_add_text.
    destruct (kinds_file ("_codedoc/" +:+ tok +:+ ".txt") PlainNode r) as [E|E];
      fold o in E; rewrite E.
    + exists []. rewrite app_nil_r. eauto.
    + exists [PlainNode]. eauto.
  - exists []. rewrite kinds_add_text, app_nil_r. eauto.
  - destruct (kinds_module mname r) as (mods & E & Hmods). fold o in E.
    exists (mods ++ [ClassNode o.1 name ""]).
    rewrite kinds_add_text, kinds_add, kinds_alloc, E, <-(assoc_L (++)).
    split; [done|]. do 2 right. left. exists mods, o.1, name.
    split_and!; [done..| | |].
    + destruct Hp. split; [done|]. exists b0, rest. by rewrite H3.
    + done.
    + simpl. subst cn. by rewrite <-length_kinds, E.
  - exists [MethodNode c name].
    rewrite kinds_add, kinds_add_text, kinds_alloc. split; [done|].
    do 3 right. left. exists c, name, b0, rest. by destruct Hp.
  - exists [AttributeNode c name].
    rewrite kinds_add, kinds_add_text, kinds_alloc. split; [done|].
    do 4 right. left. eauto.
  - destruct (kinds_module mname r) as (mods & E & Hmods). fold o in E.
    exists (mods ++ [DataNode o.1 name]).
    rewrite kinds_add, kinds_add_text, kinds_alloc, E, <-(assoc_L (++)).
    split; [done|]. do 5 right. eauto.
  - exists []. rewrite app_nil_r. eauto.
Qed.

End new_nodes.

(** ** Classes and their members *)

Section classes.
Import Str Re.
Implicit Types (r : RootNode) (fp : FileProcessor) (line : string).
Local Arguments alloc : simpl never.
Local Arguments add : simpl never.
Local Arguments add_text : simpl never.

Lemma kinds_lookup r l : kinds r !! l = kind <$> heap r !! l.
Proof. apply list_lookup_fmap. Qed.

Lemma not_class_rule_comment fp line g :
  COMMENT_RE line = Some g → ¬ class_rule_fires fp line.
Proof. intros H [H' _]. congruence. Qed.

Lemma not_class_rule_no_class fp line :
  CLASS_RE line = None → ¬ class_rule_fires fp line.
Proof. intros H (_ & b0 & rest & _ & _ & _ & [x Hx]). congruence. Qed.

Lemma active_class_step_holds line fp r fp' r' :
  process_line line fp r = Ok (fp', r') → active_class_step line fp r fp' r'.
Proof.
  revert fp' r'. apply by_outcome. unfold active_class_step.
  destruct (process_line_outcome line fp r)
    as [g Hc|Hc Hb|Hc Hb|b0 rest tok Hc Hb H1 o|rest l Hc Hb Hl|rest Hc Hb Hl
       |b0 rest name mname Hc Hb Hp H3 Hm o cn|b0 rest name Hc Hb Hp H3 Hm
       |b0 rest c name Hc Hb Hp H3 Hcc H4 n
       |b0 rest c name Hc Hb Hp H3 Hcc H4 H5 n
       |b0 rest name mname Hc Hb Hp H3 Hn H6 Hm o dn
       |b0 rest name Hc Hb Hp H3 Hn H6 Hm
       |b0 rest Hc Hb Hp H3 Hn H6];
    try done.
  - right. split; [by eapply not_class_rule_comment|done].
  - right. split; [|done].
    intros (_ & b0 & rest & Hb' & _). congruence.
  - right. split; [|done].
    intros (_ & b & rs & Hb' & H1' & _). congruence.
  - right. split; [|done].
    intros (_ & b & rs & Hb' & _ & H2' & _). congruence.
  - left. destruct Hp as [H1 H2]. split.
    { split; [done|]. exists b0, rest. by rewrite H3. }
    exists cn, o.1, name. split_and!; [done..| |].
    + destruct (kinds_module mname r) as (mods & E & _). fold o in E.
      subst cn. rewrite <-!length_kinds, E, length_app. lia.
    + rewrite kinds_add_text, kinds_add, kinds_alloc.
      subst cn. rewrite <-length_kinds. by apply list_lookup_middle.
  - right. split; [by apply not_class_rule_no_class|done].
  - right. split; [by apply not_class_rule_no_class|done].
  - right. split; [by apply not_class_rule_no_class|done].
  - right. split; [by apply not_class_rule_no_class|done].
Qed.

(** C3, as the code has it. The active class changes on one kind of line
    only: a class declaration that is the triggering line of a comment
    buffer which is not a narrative block; from then on it is the node of
    that class. Every other line leaves it as it is, and a class
    declaration with no comment block before it is skipped like any
    other line: the processor and the tree stay the same. *)
Theorem active_class_follows_documented_classes line fp r :
  (∀ fp' r', process_line line fp r = Ok (fp', r') →
             active_class_step line fp r fp' r')
  ∧ (∀ name, CLASS_RE line = Some name → COMMENT_RE line = None →
             buffer fp = None → process_line line fp r = Ok (fp, r)).
Proof.
  split.
  - intros fp' r'. apply active_class_step_holds.
  - intros name _ Hc Hb. by apply process_line_idle.
Qed.

Lemma active_class_follows_documented_classes_witness :
  process_line "class B {" (mkFP "src/z.js" None None (Some 1) None)
    RootNode_init
  = Ok (mkFP "src/z.js" None None (Some 1) None, RootNode_init).
Proof.
  apply (proj2 (active_class_follows_documented_classes "class B {"
                  (mkFP "src/z.js" None None (Some 1) None) RootNode_init)
               "B"); reflexivity.
Defined.

(** C3, as stated, fails: [class B] is the most recent class declaration
    before [foo() {], but it has no comment block, so the active class is
    still the node of [A] (at 1) and the method goes under [A]. *)
Lemma undocumented_class_is_not_active :
  let lines := ["// A"; "class A {"; "class B {"; "// m"; "foo() {"] in
  CLASS_RE (strip "class B {") = Some "B"
  ∧ ∃ fp r,
      process lines (FileProcessor_init "src/z.js") RootNode_init
      = Ok (fp, r)
      ∧ current_class fp = Some 1
      ∧ heap r = [mkNode (ModuleNode "z") [Child 1];
                  mkNode (ClassNode 0 "A" "") [Text "A"; Child 2];
                  mkNode (MethodNode 1 "foo()") [Text "m"]].
Proof. split; [reflexivity|]. eexists _, _. split_and!; reflexivity. Qed.

(** *** Methods *)

Lemma bare_signature_METHOD_RE line sig :
  bare_signature line sig → METHOD_RE line = Some sig.
Proof.
  intros (name & args & Hne & Hw & Ha & -> & ->). by apply METHOD_RE_intro.
Qed.

Lemma METHOD_RE_bare_signature raw sig :
  METHOD_RE (strip raw) = Some sig → bare_signature (strip raw) sig.
Proof.
  intros (name & args & Hne & Hw & Ha & -> & [H|H])%METHOD_RE_elim.
  - by exists name, args.
  - exfalso. apply (strip_no_LF_end raw (name +:+ "(" +:+ args +:+ ") {")).
    by rewrite H, !str_app_assoc.
Qed.

Lemma method_rule line fp r c b0 rest sig :
  current_class fp = Some c → buffer fp = Some (b0 :: rest) →
  plain_buffer b0 → METHOD_RE line = Some sig →
  process_line line fp r
  = Ok (set_buffer None (set_post_state None fp),
        add c (Child (length (heap r)))
          (add_text (length (heap r)) (b0 :: rest)
             (alloc (MethodNode c sig) r).2)).
Proof.
  intros Hcc Hb [H1 H2] H4.
  assert (COMMENT_RE line = None) as Hc.
  { destruct (COMMENT_RE line) eqn:E; [|done].
    apply METHOD_RE_not_comment in E. congruence. }
  assert (CLASS_RE line = None) as H3.
  { destruct (CLASS_RE line) eqn:E; [|done].
    apply METHOD_RE_not_class in E. congruence. }
  rewrite (process_line_route _ _ _ _ Hc Hb).
  by rewrite (route_method _ _ _ _ _ c sig Hb H1 H2 H3 Hcc H4).
Qed.

Lemma kinds_method_rule c sig buf r :
  kinds (add c (Child (length (heap r)))
           (add_text (length (heap r)) buf (alloc (MethodNode c sig) r).2))
  = kinds r ++ [MethodNode c sig].
Proof. by rewrite kinds_add, kinds_add_text, kinds_alloc. Qed.

Lemma elem_of_module_or_none k mods :
  k ∈ mods → module_or_none mods → ∃ mname, k = ModuleNode mname.
Proof.
  intros Hk [->|[mname ->]].
  - by apply elem_of_nil in Hk.
  - apply list_elem_of_singleton in Hk. eauto.
Qed.

(** C4, as the code has it. With an active class and a buffer that is
    not a narrative block, the method rule takes the triggering line, and
    makes a [MethodNode], exactly when the stripped line is a bare
    signature [name(args) {]. A [constructor(args) {] line is such a
    signature, so a comment block before it makes a [MethodNode] named
    [constructor(args)]; a line that starts with [get] and a space never
    is. *)
Theorem method_rule_takes_bare_signatures raw fp r c b0 rest :
  current_class fp = Some c →
  buffer fp = Some (b0 :: rest) →
  plain_buffer b0 →
  (∀ sig, bare_signature (strip raw) sig →
     let r' := add c (Child (length (heap r)))
                 (add_text (length (heap r)) (b0 :: rest)
                    (alloc (MethodNode c sig) r).2) in
     process_line (strip raw) fp r
     = Ok (set_buffer None (set_post_state None fp), r')
     ∧ creates_method r r')
  ∧ (∀ fp' r', process_line (strip raw) fp r = Ok (fp', r') →
       creates_method r r' → ∃ sig, bare_signature (strip raw) sig)
  ∧ (∀ args, all not_LF args = true →
       bare_signature ("constructor(" +:+ args +:+ ") {")
                      ("constructor(" +:+ args +:+ ")"))
  ∧ (∀ x sig, ¬ bare_signature ("get " +:+ x) sig).
Proof.
  intros Hcc Hb Hp. split_and!.
  - intros sig Hs r'. pose proof (bare_signature_METHOD_RE _ _ Hs) as H4.
    split; [by apply method_rule|].
    exists c, sig. subst r'.
    rewrite kinds_method_rule, <-length_kinds, drop_app_length.
    by apply list_elem_of_singleton.
  - intros fp' r' H (c' & name & Hin).
    apply process_line_kinds in H as (news & E & Hnews).
    rewrite E, <-length_kinds, drop_app_length in Hin.
    destruct Hnews as [->|[->|[(mods & m & cname & -> & Hmods & _)|
      [(c1 & sig & b1 & rest1 & -> & _ & _ & _ & _ & _ & H4)|
       [(c1 & aname & ->)|(mods & m & dname & -> & Hmods)]]]]].
    + by apply elem_of_nil in Hin.
    + by apply list_elem_of_singleton in Hin.
    + apply elem_of_app in Hin as [Hin|Hin%list_elem_of_singleton]; [|done].
      by destruct (elem_of_module_or_none _ _ Hin Hmods).
    + exists sig. by apply METHOD_RE_bare_signature.
    + by apply list_elem_of_singleton in Hin.
    + apply elem_of_app in Hin as [Hin|Hin%list_elem_of_singleton]; [|done].
      by destruct (elem_of_module_or_none _ _ Hin Hmods).
  - intros args Ha. by exists "constructor", args.
  - intros x sig Hs%bare_signature_METHOD_RE.
    by rewrite METHOD_RE_get in Hs.
Qed.

Lemma method_rule_takes_bare_signatures_witness :
  process_line (strip "  constructor(a, b) {")
    (mkFP "src/z.js" (Some ["make"]) None (Some 1) None)
    (mkRoot [mkNode (ModuleNode "z") [Child 1];
             mkNode (ClassNode 0 "A" "") [Text "A"]]
            {[ "z" := 0 ]} {[ "modules/z.rst" := 0 ]})
  = Ok (mkFP "src/z.js" None None (Some 1) None,
        mkRoot [mkNode (ModuleNode "z") [Child 1];
                mkNode (ClassNode 0 "A" "") [Text "A"; Child 2];
                mkNode (MethodNode 1 "constructor(a, b)") [Text "make"]]
               {[ "z" := 0 ]} {[ "modules/z.rst" := 0 ]}).
Proof.
  pose proof (method_rule_takes_bare_signatures "  constructor(a, b) {"
    (mkFP "src/z.js" (Some ["make"]) None (Some 1) None)
    (mkRoot [mkNode (ModuleNode "z") [Child 1];
             mkNode (ClassNode 0 "A" "") [Text "A"]]
            {[ "z" := 0 ]} {[ "modules/z.rst" := 0 ]})
    1 "make" [] eq_refl eq_refl
    (conj eq_refl (λ H : "make" = ">>", eq_ind "make"
       (λ s, match s with String "m" _ => True | _ => False end) I _ H)))
    as (H & _ & Hc & _).
  exact (proj1 (H "constructor(a, b)" (Hc "a, b" eq_refl))).
Defined.

(** C4, as stated, fails: with the class [A] active, the comment block
    before the [constructor(a, b) {] line makes a [MethodNode]. *)
Lemma constructor_line_makes_a_method :
  let lines := ["// A"; "class A {"; "  // make"; "  constructor(a, b) {"] in
  METHOD_RE (strip "  constructor(a, b) {") = Some "constructor(a, b)"
  ∧ ∃ fp r,
      process lines (FileProcessor_init "src/z.js") RootNode_init
      = Ok (fp, r)
      ∧ heap r !! 2
        = Some (mkNode (MethodNode 1 "constructor(a, b)") [Text "make"])
      ∧ creates_method RootNode_init r.
Proof.
  split; [reflexivity|]. eexists _, _. split_and!; [reflexivity..|].
  exists 1, "constructor(a, b)". vm_compute.
  apply list_elem_of_lookup. by exists 2.
Qed.

End classes.

(** ** Names, index entries and directives *)

Section names.
Import Str Re.
Implicit Types (r : RootNode) (fp : FileProcessor) (line : string).
Local Arguments alloc : simpl never.
Local Arguments add : simpl never.
Local Arguments add_text : simpl never.
Local Arguments String.append : simpl never.

Lemma kind_lookup_app r (news : list Kind) r' l k :
  kinds r' = kinds r ++ news → kinds r !! l = Some k →
  kind <$> heap r' !! l = Some k.
Proof.
  intros E H. rewrite <-kinds_lookup, E. by apply lookup_app_l_Some.
Qed.

(** C10. When the method rule takes a line, the name stored in the new
    [MethodNode] is group 1 of [METHOD_RE], the whole signature
    [name(args)], that is the stripped line without its last two
    characters. So the index entry of the method is
    [module; Class#name(args)] and its directive is
    [js:function:: name(args)]. *)
Theorem method_name_is_the_signature raw fp r c m cname cargs mname
    b0 rest sig :
  current_class fp = Some c →
  kinds r !! c = Some (ClassNode m cname cargs) →
  kinds r !! m = Some (ModuleNode mname) →
  buffer fp = Some (b0 :: rest) →
  plain_buffer b0 →
  METHOD_RE (strip raw) = Some sig →
  ∃ fp' r',
    process_line (strip raw) fp r = Ok (fp', r')
    ∧ kinds r' !! length (heap r) = Some (MethodNode c sig)
    ∧ bare_signature (strip raw) sig
    ∧ strip raw = sig +:+ " {"
    ∧ index r' (length (heap r))
      = Some (mname +:+ "; " +:+ cname +:+ "#" +:+ sig)
    ∧ directive r' (length (heap r)) = Some ("js:function:: " +:+ sig).
Proof.
  intros Hcc Hc Hm Hb Hp H4.
  eexists _, _. split; [by apply (method_rule _ _ _ c b0 rest sig)|].
  pose proof (kinds_method_rule c sig (b0 :: rest) r) as E.
  set (r' := add c _ _) in *.
  assert (kind <$> heap r' !! length (heap r) = Some (MethodNode c sig)) as Hn.
  { rewrite <-kinds_lookup, E, <-length_kinds. by apply list_lookup_middle. }
  pose proof (METHOD_RE_bare_signature _ _ H4) as Hs.
  split_and!.
  - by rewrite kinds_lookup.
  - done.
  - destruct Hs as (name & args & _ & _ & _ & -> & ->).
    by rewrite !str_app_assoc.
  - unfold index. rewrite Hn. unfold ClassNode_index, ModuleNode_name.
    rewrite (kind_lookup_app _ _ _ _ _ E Hc), (kind_lookup_app _ _ _ _ _ E Hm).
    simpl. by rewrite !str_app_assoc.
  - unfold directive. by rewrite Hn.
Qed.

Lemma method_name_is_the_signature_witness :
  ∃ fp' r',
    process_line (strip "  report(current, total, extra) {")
      (mkFP "src/progress.js" (Some ["Reports the progress."]) None
         (Some 1) None)
      (mkRoot [mkNode (ModuleNode "progress") [Child 1];
               mkNode (ClassNode 0 "Progress" "") [Text "doc"]]
         {[ "progress" := 0 ]} {[ "modules/progress.rst" := 0 ]})
    = Ok (fp', r')
    ∧ kinds r' !! 2 = Some (MethodNode 1 "report(current, total, extra)")
    ∧ index r' 2
      = Some "progress; Progress#report(current, total, extra)"
    ∧ directive r' 2 = Some "js:function:: report(current, total, extra)".
Proof.
  destruct (method_name_is_the_signature
    "  report(current, total, extra) {"
    (mkFP "src/progress.js" (Some ["Reports the progress."]) None
       (Some 1) None)
    (mkRoot [mkNode (ModuleNode "progress") [Child 1];
             mkNode (ClassNode 0 "Progress" "") [Text "doc"]]
       {[ "progress" := 0 ]} {[ "modules/progress.rst" := 0 ]})
    1 0 "Progress" "" "progress" "Reports the progress." []
    "report(current, total, extra)" eq_refl eq_refl eq_refl eq_refl
    (conj eq_refl (λ H : "Reports the progress." = ">>",
       eq_ind "Reports the progress."
         (λ s, match s with String "R" _ => True | _ => False end) I _ H))
    eq_refl) as (fp' & r' & H1 & H2 & _ & _ & H3 & H4).
  exists fp', r'. split_and!; [exact H1|exact H2|exact H3|exact H4].
Defined.

(** *** Constructor arguments *)

Lemma no_arguments_step line fp r fp' r' :
  process_line line fp r = Ok (fp', r') →
  no_arguments (kinds r) → no_arguments (kinds r').
Proof.
  intros H Hr m name a.
  apply process_line_kinds in H as (news & -> & Hnews).
  intros [Hin|Hin]%elem_of_app; [by eapply Hr|].
  destruct Hnews as [->|[->|[(mods & m' & cname & -> & Hmods & _)|
    [(c1 & sig & b1 & rest1 & -> & _)|
     [(c1 & aname & ->)|(mods & m' & dname & -> & Hmods)]]]]].
  - by apply elem_of_nil in Hin.
  - by apply list_elem_of_singleton in Hin.
  - apply elem_of_app in Hin as [Hin|Hin%list_elem_of_singleton].
    + by destruct (elem_of_module_or_none _ _ Hin Hmods).
    + congruence.
  - by apply list_elem_of_singleton in Hin.
  - by apply list_elem_of_singleton in Hin.
  - apply elem_of_app in Hin as [Hin|Hin%list_elem_of_singleton]; [|done].
    by destruct (elem_of_module_or_none _ _ Hin Hmods).
Qed.

Lemma no_arguments_lines lines fp r fp' r' :
  process_lines lines fp r = Ok (fp', r') →
  no_arguments (kinds r) → no_arguments (kinds r').
Proof.
  revert fp r. induction lines as [|x lines IH]; intros fp r; simpl.
  - by intros [= <- <-].
  - destruct (process_line (strip x) fp r) as [[fp1 r1]|] eqn:E; [|done].
    simpl. intros H Hr. eapply IH; [done|]. by eapply no_arguments_step.
Qed.

Lemma no_arguments_all srcs r r' :
  process_all srcs r = Ok r' →
  no_arguments (kinds r) → no_arguments (kinds r').
Proof.
  revert r. induction srcs as [|[p lines] srcs IH]; intros r; simpl.
  - by intros [= <-].
  - destruct (process lines _ r) as [[fp1 r1]|] eqn:E; [|done].
    simpl. intros H Hr. eapply IH; [done|]. by eapply no_arguments_lines.
Qed.

(** X1. Whatever the sources, no class of the final tree has
    constructor arguments: every class directive ends in [()]. *)
Lemma class_directive_has_no_arguments srcs r idx l m name a :
  main srcs = Ok (r, idx) →
  kinds r !! l = Some (ClassNode m name a) →
  a = "" ∧ directive r l = Some ("js:class:: " +:+ name +:+ "()").
Proof.
  unfold main. destruct (process_all srcs RootNode_init) as [r0|] eqn:E; [|done].
  simpl. intros [= <- _] Hl.
  assert (a = "") as ->.
  { eapply (no_arguments_all _ _ _ E).
    - intros ??? Hin. by apply elem_of_nil in Hin.
    - apply list_elem_of_lookup. eauto. }
  split; [done|]. unfold directive. by rewrite <-kinds_lookup, Hl.
Qed.

Lemma class_directive_has_no_arguments_witness :
  "" = ""
  ∧ directive
      (mkRoot [mkNode (ModuleNode "foo") [Child 1];
               mkNode (ClassNode 0 "Foo" "") [Text "Doc"]]
         {[ "foo" := 0 ]} {[ "modules/foo.rst" := 0 ]}) 1
    = Some ("js:class:: " +:+ "Foo" +:+ "()").
Proof.
  apply (class_directive_has_no_arguments
           [("src/foo.js", ["// Doc"; "class Foo {"; "  constructor(a, b) {"])]
           (mkRoot [mkNode (ModuleNode "foo") [Child 1];
                    mkNode (ClassNode 0 "Foo" "") [Text "Doc"]]
              {[ "foo" := 0 ]} {[ "modules/foo.rst" := 0 ]})
           (index_header ++ ["   foo"]) 1 0 "Foo" "");
    reflexivity.
Defined.

(** C1 fails on the code. The line after [class Foo {] is the constructor
    signature, and still the class node keeps empty arguments and its
    directive is [js:class:: Foo()], not [js:class:: Foo(a, b)]: a line
    without a comment block before it never reaches
    [process_post_comment], and [post_state] is reset before every
    routing. *)
Theorem constructor_arguments_are_not_captured :
  let lines := ["// Doc"; "class Foo {"; "  constructor(a, b) {"] in
  CONSTRUCTOR_RE (strip "  constructor(a, b) {") = Some "a, b"
  ∧ ∃ fp r,
      process lines (FileProcessor_init "src/foo.js") RootNode_init
      = Ok (fp, r)
      ∧ heap r = [mkNode (ModuleNode "foo") [Child 1];
                  mkNode (ClassNode 0 "Foo" "") [Text "Doc"]]
      ∧ directive r 1 = Some "js:class:: Foo()".
Proof. split; [reflexivity|]. eexists _, _. split_and!; reflexivity. Qed.

End names.

(** ** Module names *)

Section module_names.
Import Str Re.
Implicit Types (r : RootNode) (fp : FileProcessor).
Local Arguments String.append : simpl never.

Lemma MODULE_RE_search_skip c (s : string) :
  c ≠ "s"%char → MODULE_RE_search (String c s) = MODULE_RE_search s.
Proof.
  intros Hc. cbn [MODULE_RE_search].
  assert (MODULE_RE_at (String c s) = None) as ->; [|done].
  unfold MODULE_RE_at. cbn [lit]. 
  destruct (Ascii.eqb_spec "s" c); [congruence|done].
Qed.

Lemma modulename_of_src (root p : string) :
  root = "" ∨ root = "../" →
  all not_LF p = true →
  modulename_of (root +:+ "src/" +:+ p +:+ ".js")
  = Some (if endswith p "/index" then slice_to_neg 6 p else p).
Proof.
  intros Hroot Hp. unfold modulename_of.
  assert (MODULE_RE_search (root +:+ "src/" +:+ p +:+ ".js") = Some p) as ->.
  { destruct Hroot as [->| ->].
    - by apply MODULE_RE_search_src.
    - change ("../" +:+ "src/" +:+ p +:+ ".js")
        with (String "." (String "." (String "/" ("src/" +:+ p +:+ ".js")))).
      rewrite !MODULE_RE_search_skip by done.
      by apply MODULE_RE_search_src. }
  done.
Qed.

(** C8, as the code has it. For a path [src/p.js] (also under the [../]
    that the script walks from) whose [p] has no line feed, the module
    is [p] without a final [/index]: [src/p/index.js] gives [p], and
    [src/p.js] with [p] not ending in [/index] gives [p]. *)
Theorem module_name_of_path (root p : string) fp r :
  root = "" ∨ root = "../" →
  all not_LF p = true →
  (path fp = root +:+ "src/" +:+ p +:+ "/index.js" →
   module_doc fp r = Ok (module p r))
  ∧ (path fp = root +:+ "src/" +:+ p +:+ ".js" →
     endswith p "/index" = false →
     module_doc fp r = Ok (module p r))
  ∧ modulename_of "src/game/index.js" = Some "game"
  ∧ modulename_of "src/game/input.js" = Some "game/input".
Proof.
  intros Hroot Hp. split_and!; [| |reflexivity..].
  - intros Hpath. rewrite module_doc_eq, Hpath.
    change (p +:+ "/index.js") with (p +:+ "/index" +:+ ".js").
    rewrite <-(str_app_assoc p "/index" ".js").
    rewrite modulename_of_src; [|done|].
    + rewrite endswith_app.
      change 6 with (String.length "/index").
      by rewrite slice_to_neg_app.
    + rewrite all_app, Hp. done.
  - intros Hpath He. rewrite module_doc_eq, Hpath.
    rewrite modulename_of_src by done. by rewrite He.
Qed.

Lemma module_name_of_path_witness :
  module_doc (mkFP "../src/game/index.js" None None None None) RootNode_init
  = Ok (module "game" RootNode_init).
Proof.
  apply (proj1 (module_name_of_path "../" "game"
                  (mkFP "../src/game/index.js" None None None None)
                  RootNode_init (or_intror eq_refl) eq_refl)).
  reflexivity.
Defined.

(** C8, as stated, fails for a path with a line feed inside [p]: [.]
    does not match it, the search finds nothing and [module_doc] raises;
    and when a second [src/] follows the line feed the module is named
    after what follows that one. *)
Lemma module_name_with_line_feed :
  let p := "a" +:+ String LF "b" in
  let q := "a" +:+ String LF "src/b" in
  (∀ r, module_doc (mkFP ("src/" +:+ p +:+ "/index.js") None None None None) r
        = Raise AttributeError)
  ∧ main [("src/" +:+ p +:+ "/index.js", ["// A"; "class A {"])]
    = Raise AttributeError
  ∧ modulename_of ("src/" +:+ q +:+ "/index.js") = Some "b".
Proof. split_and!; reflexivity. Qed.

End module_names.

(** ** The modules index *)

Section index_file.
Import Str Re.
Implicit Types (r : RootNode) (fp : FileProcessor) (line : string).

Lemma same_view_refl fp : same_view fp fp.
Proof. done. Qed.

Lemma same_view_buffer b fp1 fp2 :
  same_view fp1 fp2 → same_view (set_buffer b fp1) (set_buffer b fp2).
Proof. intros (?&?&?&?). done. Qed.

Lemma same_view_routed fp1 fp2 :
  same_view fp1 fp2 →
  same_view (set_buffer None (set_post_state None fp1))
            (set_buffer None (set_post_state None fp2)).
Proof. intros (?&?&?&?). done. Qed.

Lemma no_member_rule_view fp1 fp2 line :
  same_view fp1 fp2 → no_member_rule fp1 line → no_member_rule fp2 line.
Proof.
  intros (_ & _ & Hcc & _) [H|H]; [left; by apply Hcc|by right].
Qed.

Lemma active_view fp1 fp2 c :
  same_view fp1 fp2 → current_class fp1 = Some c →
  ∃ c', current_class fp2 = Some c'.
Proof.
  intros (_ & _ & Hcc & _) H.
  destruct (current_class fp2) as [c'|]; [eauto|].
  destruct Hcc as [_ Hcc]. rewrite Hcc in H; done.
Qed.

Lemma modules_add_text l buf r : modules (add_text l buf r) = modules r.
Proof. done. Qed.

Lemma alike_Ok fp1 fp2 r1' r2' r1 r2 (D : gset string) :
  same_view fp1 fp2 →
  dom (modules r1') = dom (modules r1) ∪ D →
  dom (modules r2') = dom (modules r2) ∪ D →
  alike (Ok (fp1, r1')) (Ok (fp2, r2')) r1 r2.
Proof. intros. split; [done|]. by exists D. Qed.

Lemma alike_same fp1 fp2 r1 r2 :
  same_view fp1 fp2 → alike (Ok (fp1, r1)) (Ok (fp2, r2)) r1 r2.
Proof. intros. apply (alike_Ok _ _ _ _ _ _ ∅); by rewrite ?union_empty_r_L. Qed.

Lemma dom_modules_module_snd name r m r' :
  module name r = (m, r') → dom (modules r') = dom (modules r) ∪ {[name]}.
Proof. intros E. by rewrite <-(dom_modules_module name r), E. Qed.

Lemma modules_file_snd f k r l r' :
  file f k r = (l, r') → modules r' = modules r.
Proof. intros E. by rewrite <-(modules_file f k r), E. Qed.

Local Arguments alloc : simpl never.
Local Arguments add : simpl never.
Local Arguments add_text : simpl never.
Local Arguments module : simpl never.
Local Arguments file : simpl never.

(** One line, two trees. *)
Lemma process_line_alike line fp1 fp2 r1 r2 :
  same_view fp1 fp2 →
  alike (process_line line fp1 r1) (process_line line fp2 r2) r1 r2.
Proof.
  intros Hv. pose proof Hv as (Hpath & Hbuf & Hcc & Hlc).
  destruct (process_line_outcome line fp1 r1)
    as [g Hc|Hc Hb|Hc Hb|b0 rest tok Hc Hb H1 o|rest l Hc Hb Hl|rest Hc Hb Hl
       |b0 rest name mname Hc Hb Hp H3 Hm o cn|b0 rest name Hc Hb Hp H3 Hm
       |b0 rest c name Hc Hb Hp H3 Hcc1 H4 n
       |b0 rest c name Hc Hb Hp H3 Hcc1 H4 H5 n
       |b0 rest name mname Hc Hb Hp H3 Hn H6 Hm o dn
       |b0 rest name Hc Hb Hp H3 Hn H6 Hm
       |b0 rest Hc Hb Hp H3 Hn H6];
    try rewrite Hbuf in Hb; try rewrite Hpath in Hm;
    try (destruct Hp as [H1 H2]).
  - rewrite (process_line_comment _ g) by done.
    apply alike_same. rewrite Hbuf. by apply same_view_buffer.
  - rewrite process_line_idle by done. by apply alike_same.
  - rewrite (process_line_route _ _ _ _ Hc Hb).
    unfold process_post_comment. simpl. by rewrite Hb.
  - rewrite (process_line_route _ _ _ _ Hc Hb).
    rewrite (route_codedoc _ _ _ _ _ tok Hb H1).
    destruct (file _ PlainNode r2) as [l2 r2'] eqn:F2.
    apply (alike_Ok _ _ _ _ _ _ ∅).
    + destruct Hv as (?&?&?&?). done.
    + subst o. by rewrite modules_add_text, modules_file, union_empty_r_L.
    + by rewrite modules_add_text, (modules_file_snd _ _ _ _ _ F2),
        union_empty_r_L.
  - rewrite (process_line_route _ _ _ _ Hc Hb).
    rewrite (route_continue _ _ _ _ Hb).
    destruct (last_codedoc fp2) as [l2|] eqn:Hl2.
    + apply (alike_Ok _ _ _ _ _ _ ∅);
        [by apply same_view_routed|by rewrite modules_add_text, union_empty_r_L..].
    + destruct Hlc as [_ Hlc]. rewrite Hlc in Hl; done.
  - rewrite (process_line_route _ _ _ _ Hc Hb).
    rewrite (route_continue _ _ _ _ Hb).
    destruct Hlc as [Hlc _]. by rewrite (Hlc Hl).
  - rewrite (process_line_route _ _ _ _ Hc Hb).
    rewrite (route_class _ _ _ _ _ name Hb H1 H2 H3), module_doc_eq, Hm.
    destruct (module mname r2) as [m2 r2'] eqn:M2.
    apply (alike_Ok _ _ _ _ _ _ {[mname]}).
    + destruct Hv as (?&?&?&?). done.
    + subst o. rewrite modules_add_text, modules_add, modules_alloc.
      apply dom_modules_module.
    + rewrite modules_add_text, modules_add, modules_alloc.
      by apply (dom_modules_module_snd _ _ m2).
  - rewrite (process_line_route _ _ _ _ Hc Hb).
    by rewrite (route_class _ _ _ _ _ name Hb H1 H2 H3), module_doc_eq, Hm.
  - destruct (active_view _ _ _ Hv Hcc1) as [c2 Hcc2].
    rewrite (process_line_route _ _ _ _ Hc Hb).
    rewrite (route_method _ _ _ _ _ c2 name Hb H1 H2 H3 Hcc2 H4).
    apply (alike_Ok _ _ _ _ _ _ ∅); [by apply same_view_routed|..];
      by rewrite modules_add, modules_add_text, modules_alloc, union_empty_r_L.
  - destruct (active_view _ _ _ Hv Hcc1) as [c2 Hcc2].
    rewrite (process_line_route _ _ _ _ Hc Hb).
    rewrite (route_attribute _ _ _ _ _ c2 name Hb H1 H2 H3 Hcc2 H4 H5).
    apply (alike_Ok _ _ _ _ _ _ ∅); [by apply same_view_routed|..];
      by rewrite modules_add, modules_add_text, modules_alloc, union_empty_r_L.
  - pose proof (no_member_rule_view _ _ _ Hv Hn) as Hn2.
    rewrite (process_line_route _ _ _ _ Hc Hb).
    rewrite (route_data _ _ _ _ _ name Hb H1 H2 H3 Hn2 H6), module_doc_eq, Hm.
    destruct (module mname r2) as [m2 r2'] eqn:M2.
    apply (alike_Ok _ _ _ _ _ _ {[mname]}); [by apply same_view_routed|..].
    + subst o. rewrite modules_add, modules_add_text, modules_alloc.
      apply dom_modules_module.
    + rewrite modules_add, modules_add_text, modules_alloc.
      by apply (dom_modules_module_snd _ _ m2).
  - pose proof (no_member_rule_view _ _ _ Hv Hn) as Hn2.
    rewrite (process_line_route _ _ _ _ Hc Hb).
    by rewrite (route_data _ _ _ _ _ name Hb H1 H2 H3 Hn2 H6), module_doc_eq, Hm.
  - pose proof (no_member_rule_view _ _ _ Hv Hn) as Hn2.
    rewrite (process_line_route _ _ _ _ Hc Hb).
    rewrite (route_nothing _ _ _ _ _ Hb H1 H2 H3 Hn2 H6).
    by apply alike_same, same_view_routed.
Qed.

Lemma process_lines_alike lines fp1 fp2 r1 r2 :
  same_view fp1 fp2 →
  alike (process_lines lines fp1 r1) (process_lines lines fp2 r2) r1 r2.
Proof.
  revert fp1 fp2 r1 r2.
  induction lines as [|x lines IH]; intros fp1 fp2 r1 r2 Hv; simpl.
  - by apply alike_same.
  - pose proof (process_line_alike (strip x) fp1 fp2 r1 r2 Hv) as H.
    destruct (process_line (strip x) fp1 r1) as [[fp1' r1']|],
             (process_line (strip x) fp2 r2) as [[fp2' r2']|];
      simpl in *; try done.
    destruct H as (Hv' & D & E1 & E2).
    specialize (IH fp1' fp2' r1' r2' Hv'). unfold alike in *.
    destruct (process_lines lines fp1' r1') as [[fp1'' r1'']|],
             (process_lines lines fp2' r2') as [[fp2'' r2'']|]; try done.
    destruct IH as (Hv'' & D' & E1' & E2'). split; [done|].
    exists (D ∪ D'). by rewrite E1', E2', E1, E2, !(assoc_L (∪)).
Qed.

(** What a file brings does not depend on the tree it is added to. *)
Lemma process_touched (src : source) r :
  match process src.2 (FileProcessor_init src.1) r with
  | Ok (_, r') =>
      ∃ D, touched src = Some D ∧ dom (modules r') = dom (modules r) ∪ D
  | Raise _ => touched src = None
  end.
Proof.
  unfold touched, process.
  pose proof (process_lines_alike src.2
    (set_current_class None (FileProcessor_init src.1))
    (set_current_class None (FileProcessor_init src.1))
    r RootNode_init (same_view_refl _)) as H.
  unfold alike in H.
  destruct (process_lines src.2 _ r) as [[fp1 r1]|],
           (process_lines src.2 _ RootNode_init) as [[fp2 r2]|]; try done.
  destruct H as (_ & D & E1 & E2). exists D. split; [|done].
  rewrite E2. simpl. by rewrite dom_empty_L, (left_id_L ∅ (∪)).
Qed.

Lemma process_all_touched srcs r :
  match process_all srcs r with
  | Ok r' =>
      ∃ D, touched_all srcs = Some D ∧ dom (modules r') = dom (modules r) ∪ D
  | Raise _ => touched_all srcs = None
  end.
Proof.
  revert r. induction srcs as [|[p lines] srcs IH]; intros r; simpl.
  - exists ∅. by rewrite union_empty_r_L.
  - pose proof (process_touched (p, lines) r) as H. simpl in H.
    destruct (process lines (FileProcessor_init p) r) as [[fp1 r1]|]; simpl.
    + destruct H as (D & -> & E). simpl.
      specialize (IH r1). destruct (process_all srcs r1) as [r'|].
      * destruct IH as (D' & -> & E'). simpl. exists (D ∪ D').
        by rewrite E', E, (assoc_L (∪)).
      * by rewrite IH.
    + by rewrite H.
Qed.

Lemma touched_all_Permutation srcs srcs' :
  srcs ≡ₚ srcs' → touched_all srcs = touched_all srcs'.
Proof.
  induction 1 as [|x l l' _ IH|x y l|l l' l'' _ IH1 _ IH2]; simpl.
  - done.
  - by rewrite IH.
  - destruct (touched x) as [Dx|], (touched y) as [Dy|],
             (touched_all l) as [Dl|]; simpl; try done.
    f_equal. by rewrite !(assoc_L (∪)), (comm_L (∪) Dy Dx).
  - by rewrite IH1.
Qed.

(** *** [sorted] *)

Lemma elem_of_keys (m : gmap string nat) k :
  k ∈ (map_to_list m).*1 ↔ is_Some (m !! k).
Proof.
  rewrite list_elem_of_fmap. split.
  - intros ([k' v] & -> & H%elem_of_map_to_list). eauto.
  - intros [v H]. exists (k, v). split; [done|]. by apply elem_of_map_to_list.
Qed.

Lemma elem_of_sorted (m : gmap string nat) k :
  k ∈ sorted m ↔ is_Some (m !! k).
Proof. unfold sorted. by rewrite merge_sort_Permutation, elem_of_keys. Qed.

Lemma Sorted_sorted (m : gmap string nat) : Sorted String.le (sorted m).
Proof. apply (Sorted_merge_sort _). Qed.

Lemma NoDup_sorted (m : gmap string nat) : NoDup (sorted m).
Proof.
  unfold sorted. rewrite merge_sort_Permutation.
  apply NoDup_fst_map_to_list.
Qed.

(** A sorted list without repetition is strictly sorted. *)
Lemma StronglySorted_strict (l : list string) :
  StronglySorted String.le l → NoDup l →
  StronglySorted (strict String.le) l.
Proof.
  induction 1 as [|x l Hl IH Hx]; intros Hnd; [constructor|].
  apply NoDup_cons in Hnd as [Hnin Hnd]. constructor; [by apply IH|].
  apply Forall_forall. intros y Hy. split.
  - by eapply Forall_forall in Hx.
  - intros Hyx. eapply Forall_forall in Hx; [|done].
    assert (x = y) as -> by by apply (anti_symm String.le). done.
Qed.

(** [sorted] reads the keys only. *)
Lemma sorted_dom (m1 m2 : gmap string nat) :
  dom m1 = dom m2 → sorted m1 = sorted m2.
Proof.
  intros Hd. apply (Sorted_unique String.le); [apply Sorted_sorted..|].
  apply NoDup_Permutation; [apply NoDup_sorted..|].
  intros k. rewrite !elem_of_sorted, <-!(elem_of_dom (D:=gset string)).
  by rewrite Hd.
Qed.

(** C9. The lines of the modules index after its header are the keys of
    [root.modules], each after three spaces, in strictly increasing
    [str] order (byte-wise lexicographic), every key once. Processing the
    source files in another order gives the same keys, hence the same
    index; and it raises if and only if the first order raises. *)
Theorem index_is_sorted_whatever_the_order (srcs srcs' : list source) :
  srcs ≡ₚ srcs' →
  match main srcs, main srcs' with
  | Ok (r, idx), Ok (r', idx') =>
      dom (modules r) = dom (modules r') ∧ idx = idx'
      ∧ idx = index_header ++ ((λ key, "   " +:+ key) <$> sorted (modules r))
      ∧ StronglySorted (strict String.le) (sorted (modules r))
      ∧ ∀ k, k ∈ sorted (modules r) ↔ is_Some (modules r !! k)
  | Raise _, Raise _ => True
  | _, _ => False
  end.
Proof.
  intros Hp. unfold main.
  pose proof (process_all_touched srcs RootNode_init) as H1.
  pose proof (process_all_touched srcs' RootNode_init) as H2.
  rewrite <-(touched_all_Permutation _ _ Hp) in H2.
  destruct (process_all srcs RootNode_init) as [r|],
           (process_all srcs' RootNode_init) as [r'|]; simpl.
  - destruct H1 as (D & HD & E1), H2 as (D' & HD' & E2).
    assert (dom (modules r) = dom (modules r')) as Hd by congruence.
    split_and!.
    + done.
    + unfold index_rst, index_body. by rewrite (sorted_dom _ _ Hd).
    + done.
    + apply StronglySorted_strict; [|apply NoDup_sorted].
      apply Sorted_StronglySorted; [apply _|apply Sorted_sorted].
    + apply elem_of_sorted.
  - destruct H1 as (D & HD & _). congruence.
  - destruct H2 as (D & HD & _). congruence.
  - done.
Qed.

Lemma index_is_sorted_whatever_the_order_witness :
  let zeta := ("../src/zeta.js", ["// Z"; "class Z {"]) in
  let alpha := ("../src/alpha/index.js", ["// A"; "class A {"]) in
  let mid := ("../src/mid.js", ["// M"; "export let m = 1"]) in
  (snd <$> (match main [zeta; alpha; mid] with
            | Ok x => Some x | Raise _ => None end)
   = Some (index_header ++ ["   alpha"; "   mid"; "   zeta"]))
  ∧ match main [zeta; alpha; mid], main ([alpha; mid] ++ [zeta]) with
    | Ok (r, idx), Ok (r', idx') =>
        dom (modules r) = dom (modules r') ∧ idx = idx'
        ∧ idx = index_header
                ++ ((λ key, "   " +:+ key) <$> sorted (modules r))
        ∧ StronglySorted (strict String.le) (sorted (modules r))
        ∧ ∀ k, k ∈ sorted (modules r) ↔ is_Some (modules r !! k)
    | Raise _, Raise _ => True
    | _, _ => False
    end.
Proof.
  intros zeta alpha mid. split; [reflexivity|].
  exact (index_is_sorted_whatever_the_order [zeta; alpha; mid]
           ([alpha; mid] ++ [zeta])
           (Permutation_cons_append [alpha; mid] zeta)).
Defined.

End index_file.

(** ** Get-or-create, and what a gap does *)

Section get_or_create.
Import Str Re.
Implicit Types (r : RootNode) (fp : FileProcessor) (line : string).

Lemma file_lookup file_name k r :
  files (file file_name k r).2 !! file_name = Some (file file_name k r).1.
Proof.
  unfold file. destruct (files r !! file_name) as [l|] eqn:E; [done|].
  simpl. apply lookup_insert_eq.
Qed.

Lemma module_lookup name r :
  modules (module name r).2 !! name = Some (module name r).1.
Proof.
  unfold module. destruct (modules r !! name) as [l|] eqn:E; [done|].
  destruct (file _ _ r) as [l r']. simpl. apply lookup_insert_eq.
Qed.

(** X2. [root.file] is get-or-create: after a call the name is a key of
    [root.files] bound to the node returned, and a second call with the
    same name, whatever node type it asks for, returns that node and
    leaves the tree alone. *)
Theorem file_is_get_or_create file_name k k' r :
  files (file file_name k r).2 !! file_name = Some (file file_name k r).1
  ∧ file file_name k' (file file_name k r).2 = file file_name k r.
Proof.
  split; [apply file_lookup|].
  unfold file at 1. rewrite file_lookup. by destruct (file file_name k r).
Qed.

(** X3. [root.module] is get-or-create as well: after a call the name is
    a key of [root.modules] bound to the node returned, a second call
    returns that node and leaves the tree alone, and a module made by
    the call is the node of the file [modules/<name>.rst]. *)
Theorem module_is_get_or_create name r :
  modules (module name r).2 !! name = Some (module name r).1
  ∧ module name (module name r).2 = module name r
  ∧ (modules r !! name = None →
     files (module name r).2 !! ("modules/" +:+ name +:+ ".rst")
     = Some (module name r).1).
Proof.
  split; [apply module_lookup|]. split.
  - unfold module at 1. rewrite module_lookup. by destruct (module name r).
  - intros E. unfold module. rewrite E.
    pose proof (file_lookup ("modules/" +:+ name +:+ ".rst")
                  (ModuleNode name) r) as F.
    by destruct (file _ _ r) as [l r'].
Qed.

Lemma module_is_get_or_create_witness :
  modules (module "game" RootNode_init).2 !! "game" = Some 0
  ∧ files (module "game" RootNode_init).2 !! "modules/game.rst" = Some 0.
Proof.
  split.
  - exact (proj1 (module_is_get_or_create "game" RootNode_init)).
  - exact (proj2 (proj2 (module_is_get_or_create "game" RootNode_init))
             eq_refl).
Defined.

(** X4. Association is positional. After a line that is not a comment
    no buffer is open, so the next line that is not a comment is ignored:
    a construct line separated from its comment block by one other line
    gets nothing. *)
Theorem gap_detaches_the_comment gap line fp r fp1 r1 :
  COMMENT_RE gap = None → COMMENT_RE line = None →
  process_line gap fp r = Ok (fp1, r1) →
  process_line line fp1 r1 = Ok (fp1, r1).
Proof.
  intros Hg Hl H. apply process_line_idle; [done|].
  exact (buffer_cleared gap fp r fp1 r1 Hg H).
Qed.

Lemma gap_detaches_the_comment_witness :
  process_line "class Foo {"
    (mkFP "src/foo.js" None None None None) RootNode_init
  = Ok (mkFP "src/foo.js" None None None None, RootNode_init).
Proof.
  apply (gap_detaches_the_comment "let x = 1" "class Foo {"
           (mkFP "src/foo.js" (Some ["Doc"]) None None None)
           RootNode_init); reflexivity.
Defined.

End get_or_create.

(** ** Lines as they are read *)

Section lines_read.
Import Str Re.
Implicit Types (r : RootNode) (fp : FileProcessor) (line : string).
Local Arguments String.append : simpl nomatch.
Local Arguments is_space : simpl never.

Lemma lstrip_space (ws : string) : all is_space ws = true → lstrip ws = "".
Proof.
  induction ws as [|c ws IH]; simpl; [done|].
  intros [-> H]%andb_true_iff. auto.
Qed.

Lemma rstrip_space (ws : string) : all is_space ws = true → rstrip ws = "".
Proof.
  induction ws as [|c ws IH]; simpl; [done|].
  intros [-> H]%andb_true_iff. by rewrite IH.
Qed.

Lemma lstrip_app_space (ws s : string) :
  all is_space ws = true → lstrip (ws +:+ s) = lstrip s.
Proof.
  induction ws as [|c ws IH]; simpl; [done|].
  intros [-> H]%andb_true_iff. auto.
Qed.

Lemma rstrip_app_space (s ws : string) :
  all is_space ws = true → rstrip (s +:+ ws) = rstrip s.
Proof.
  intros H. induction s as [|c s IH]; simpl.
  - by apply rstrip_space.
  - by rewrite IH.
Qed.

Lemma strip_app_space (s ws : string) :
  all is_space ws = true → strip (s +:+ ws) = strip s.
Proof.
  intros H. unfold strip. induction s as [|c s IH]; simpl.
  - by rewrite lstrip_space.
  - destruct (is_space c); [done|].
    by apply (rstrip_app_space (String c s)).
Qed.

Lemma strip_spaces (ws1 s ws2 : string) :
  all is_space ws1 = true → all is_space ws2 = true →
  strip (ws1 +:+ s +:+ ws2) = strip s.
Proof.
  intros H1 H2. unfold strip. rewrite lstrip_app_space by done.
  by apply strip_app_space.
Qed.

(** The stripped line has no white space at either end, so stripping
    again changes nothing. *)
Lemma lstrip_rstrip (s : string) : lstrip (rstrip s) = rstrip (lstrip s).
Proof.
  induction s as [|c s IH]; [done|].
  cbn [lstrip rstrip]. destruct (is_space c) eqn:Hc.
  - rewrite <-IH. destruct (rstrip s) as [|d x] eqn:E; [done|].
    cbn [lstrip]. by rewrite Hc.
  - cbn [rstrip]. destruct (rstrip s) as [|d x] eqn:E;
      rewrite ?Hc; cbn [lstrip]; by rewrite Hc.
Qed.

Lemma lstrip_idemp (s : string) : lstrip (lstrip s) = lstrip s.
Proof.
  induction s as [|c s IH]; simpl; [done|].
  destruct (is_space c) eqn:Hc; [done|]. simpl. by rewrite Hc.
Qed.

Lemma rstrip_idemp (s : string) : rstrip (rstrip s) = rstrip s.
Proof.
  induction s as [|c s IH]; simpl; [done|].
  destruct (rstrip s) as [|d x] eqn:E.
  - destruct (is_space c) eqn:Hc; simpl; [done|]. by rewrite Hc.
  - simpl in *. by rewrite IH.
Qed.

Lemma strip_idemp (s : string) : strip (strip s) = strip s.
Proof.
  unfold strip. by rewrite <-lstrip_rstrip, rstrip_idemp, lstrip_rstrip,
    lstrip_idemp.
Qed.

Lemma process_lines_strip (lines lines' : list string) fp r :
  Forall2 (λ l l', strip l' = strip l) lines lines' →
  process_lines lines' fp r = process_lines lines fp r.
Proof.
  intros H. revert fp r.
  induction H as [|l l' ls ls' E _ IH]; intros fp r; simpl; [done|].
  rewrite E.
  destruct (process_line (strip l) fp r) as [[fp1 r1]|e]; simpl; [|done].
  apply IH.
Qed.

(** X6. White space around a line never matters: [process] strips every
    line it reads, so indenting the lines of a file, or padding them at
    the end (with the line feed they are read with, say), gives the
    same processor and the same tree, or the same exception. A line
    that is stripped already is processed as it is. *)
Theorem white_space_around_lines_is_ignored (lines lines' : list string)
    fp r :
  Forall2 (λ l l', ∃ ws1 ws2, all is_space ws1 = true ∧
                      all is_space ws2 = true ∧
                      l' = ws1 +:+ l +:+ ws2) lines lines' →
  process lines' fp r = process lines fp r
  ∧ process (strip <$> lines) fp r = process lines fp r.
Proof.
  intros H. unfold process. split; apply process_lines_strip.
  - eapply Forall2_impl; [done|].
    intros l l' (ws1 & ws2 & H1 & H2 & ->). by apply strip_spaces.
  - apply Forall2_fmap_r, Forall2_same_length_lookup_2; [done|].
    intros i x y Hx Hy. simplify_eq. apply strip_idemp.
Qed.

Lemma white_space_around_lines_is_ignored_witness :
  process ["  // Doc" +:+ NL; String "009" "class Foo {" +:+ NL]
    (FileProcessor_init "src/foo.js") RootNode_init
  = process ["// Doc"; "class Foo {"]
      (FileProcessor_init "src/foo.js") RootNode_init.
Proof.
  refine (proj1 (white_space_around_lines_is_ignored
                   ["// Doc"; "class Foo {"]
                   ["  // Doc" +:+ NL; String "009" "class Foo {" +:+ NL]
                   (FileProcessor_init "src/foo.js") RootNode_init _)).
  repeat constructor.
  - by exists "  ", NL.
  - by exists (String "009" ""), NL.
Defined.

(** X7. What a comment line is. A line without line feed (a stripped
    line of a file has none) matches [COMMENT_RE] exactly when it is
    [//] or [#] alone, and then group 1 is unset, or [//] or [#], one
    space, and a text, which is group 1. So [//text], with no space, is
    not a comment line. *)
Theorem comment_line_shape line (g : option string) :
  all not_LF line = true →
  COMMENT_RE line = Some g ↔
    match g with
    | None => line = "//" ∨ line = "#"
    | Some text => line = "// " +:+ text ∨ line = "# " +:+ text
    end.
Proof.
  intros Hl.
  assert (∀ pre x : string, line = pre +:+ x →
            match lit " " x with
            | Some r' =>
                let '(g, r'') := span not_LF r' in
                if eol r'' then Some (Some g) else None
            | None => if eol x then Some None else None
            end = Some g →
            match g with
            | None => line = pre
            | Some text => line = pre +:+ " " +:+ text
            end) as Hfwd.
  { intros pre x -> H. rewrite all_app in Hl.
    apply andb_true_iff in Hl as [_ Hr].
    destruct (lit " " x) as [r'|] eqn:E.
    - apply lit_Some in E as ->. rewrite all_app in Hr.
      apply andb_true_iff in Hr as [_ Hr].
      rewrite (span_run_end _ _ Hr) in H. simpl in H. by simplify_eq.
    - destruct (eol x) eqn:Er; [|done]. simplify_eq.
      apply eol_true in Er as [->| ->]; [by rewrite str_app_nil_r|done]. }
  split.
  - unfold COMMENT_RE. destruct (lit "//" line) as [x|] eqn:E1.
    + apply lit_Some in E1. simpl. intros H.
      specialize (Hfwd "//" x E1 H). destruct g; by left.
    + destruct (lit "#" line) as [x|] eqn:E2; [|done].
      apply lit_Some in E2. simpl. intros H.
      specialize (Hfwd "#" x E2 H). destruct g; by right.
  - destruct g as [text|]; intros [->| ->]; try done.
    + rewrite (all_app _ "// ") in Hl. apply andb_true_iff in Hl as [_ Hl].
      unfold COMMENT_RE. simpl. by rewrite (span_run_end _ _ Hl).
    + rewrite (all_app _ "# ") in Hl. apply andb_true_iff in Hl as [_ Hl].
      unfold COMMENT_RE. simpl. by rewrite (span_run_end _ _ Hl).
Qed.

Lemma comment_line_shape_witness :
  COMMENT_RE "//text" = Some None ↔ "//text" = "//" ∨ "//text" = "#".
Proof. exact (comment_line_shape "//text" None eq_refl). Defined.

Local Arguments lit : simpl never.
Local Arguments plus : simpl never.
Local Arguments span : simpl never.

(** X21. What an attribute line is. [ATTRIBUTE_RE] matches a line
    exactly when it is [this], one character that is not a line feed
    (the dot of the pattern is not escaped), a name of word characters,
    white space or none, and [=]; what follows is free. So
    [this.x == 1] and [thisXy = 1] are attribute lines as well, for
    [x] and for [y]. *)
Theorem attribute_line_shape line (name : string) :
  ATTRIBUTE_RE line = Some name ↔
  ∃ c (ws rest : string),
    not_LF c = true ∧ name ≠ "" ∧ all is_word name = true
    ∧ all is_space ws = true
    ∧ line = "this" +:+ String c (name +:+ ws +:+ "=" +:+ rest).
Proof.
  unfold ATTRIBUTE_RE. split.
  - destruct (lit "this" line) as [x|] eqn:E; [|done].
    apply lit_Some in E as ->. simpl.
    destruct x as [|c x]; [done|].
    destruct (not_LF c) eqn:Hc; [|done].
    destruct (plus is_word x) as [[nm y]|] eqn:Ep; [|done]. simpl.
    apply plus_Some in Ep as (-> & Hne & Hw).
    destruct (span is_space y) as [ws z] eqn:Es.
    pose proof (span_app _ _ _ _ Es) as ->.
    apply span_all in Es.
    destruct (lit "=" z) as [rest|] eqn:El; simpl; [|done].
    apply lit_Some in El as ->. intros [= <-].
    exists c, ws, rest. split_and!; try done.
  - intros (c & ws & rest & Hc & Hne & Hw & Hs & ->).
    rewrite lit_app. simpl. rewrite Hc.
    change ("=" +:+ rest) with (String "=" rest).
    assert (plus is_word (name +:+ ws +:+ String "=" rest)
            = Some (name, ws +:+ String "=" rest)) as ->.
    { destruct ws as [|d ws].
      - by apply plus_run.
      - apply plus_run; [done..|].
        simpl in Hs. apply andb_true_iff in Hs as [Hd _].
        clear -Hd. by destruct d as [[] [] [] [] [] [] [] []]. }
    simpl. rewrite (span_run is_space ws "=" rest) by done.
    pose proof (lit_app "=" rest) as Hl.
    change ("=" +:+ rest) with (String "=" rest) in Hl. by rewrite Hl.
Qed.

End lines_read.

(** ** Lines and indentation *)

Section indentation.
Import Str Re.
Local Arguments String.append : simpl nomatch.

Lemma splitlines_line (x rest : string) :
  all (λ c, negb (is_break c)) x = true →
  splitlines (x +:+ NL +:+ rest) = x :: splitlines rest.
Proof.
  induction x as [|c x IH]; [done|].
  cbn [all]. intros [Hc Hx]%andb_true_iff.
  change (String c x +:+ NL +:+ rest) with (String c (x +:+ NL +:+ rest)).
  cbn [splitlines]. rewrite (IH Hx).
  unfold is_break in Hc. apply negb_true_iff, orb_false_iff in Hc as [-> ->].
  done.
Qed.

Lemma splitlines_one (x : string) :
  all (λ c, negb (is_break c)) x = true → x ≠ "" → splitlines x = [x].
Proof.
  induction x as [|c x IH]; [done|].
  cbn [all]. intros [Hc Hx]%andb_true_iff _.
  cbn [splitlines].
  unfold is_break in Hc. apply negb_true_iff, orb_false_iff in Hc as [-> ->].
  destruct x as [|d x]; [done|]. by rewrite (IH Hx).
Qed.

Lemma join_cons (sep x y : string) (l : list string) :
  join sep (x :: y :: l) = x +:+ sep +:+ join sep (y :: l).
Proof. done. Qed.

(** Joining lines with line feeds and splitting again gives the lines
    back, but for an empty last line. *)
Lemma splitlines_join (ls : list string) :
  Forall (λ l, all (λ c, negb (is_break c)) l = true) ls →
  last ls ≠ Some "" →
  splitlines (join NL ls) = ls.
Proof.
  induction 1 as [|x ls Hx Hls IH]; [done|].
  destruct ls as [|y ls].
  - intros Hl. apply splitlines_one; [done|]. intros ->. done.
  - intros Hl. rewrite join_cons, splitlines_line by done.
    f_equal. by apply IH.
Qed.

Lemma splitlines_join_empty (ls : list string) :
  Forall (λ l, all (λ c, negb (is_break c)) l = true) ls →
  last ls ≠ Some "" →
  splitlines (join NL (ls ++ [""])) = ls.
Proof.
  induction 1 as [|x ls Hx Hls IH]; [done|].
  destruct ls as [|y ls].
  - intros Hl. change (join NL ([x] ++ [""])) with (x +:+ NL +:+ "").
    by rewrite splitlines_line.
  - intros Hl. change ((x :: y :: ls) ++ [""]) with (x :: y :: (ls ++ [""])).
    rewrite join_cons, splitlines_line by done.
    f_equal. by apply IH.
Qed.

Lemma splitlines_no_break (s : string) :
  Forall (λ l, all (λ c, negb (is_break c)) l = true) (splitlines s).
Proof.
  assert (∀ n (s : string), String.length s < n →
            Forall (λ l, all (λ c, negb (is_break c)) l = true)
              (splitlines s)) as H; [|apply (H (S (String.length s))); lia].
  clear s. induction n as [|n IH]; intros s Hn; [lia|].
  destruct s as [|c s]; [constructor|].
  cbn [splitlines]. simpl in Hn.
  destruct (Ascii.eqb c LF) eqn:E1.
  { constructor; [done|]. apply IH. lia. }
  destruct (Ascii.eqb c CR) eqn:E2.
  { destruct s as [|d s]; [by repeat constructor|]. simpl in Hn.
    destruct (Ascii.eqb d LF); (constructor; [done|]); apply IH; simpl; lia. }
  assert (Forall (λ l, all (λ c, negb (is_break c)) l = true) (splitlines s))
    as H by (apply IH; lia).
  destruct (splitlines s) as [|l ls].
  - repeat constructor. cbn [all]. unfold is_break. by rewrite E1, E2.
  - inversion H; subst. constructor; [|done].
    cbn [all]. unfold is_break at 1. by rewrite E1, E2.
Qed.

Lemma indent_no_break (ls : list string) :
  Forall (λ l, all (λ c, negb (is_break c)) l = true) ls →
  Forall (λ l, all (λ c, negb (is_break c)) l = true)
    ((λ line, "   " +:+ line) <$> ls).
Proof. intros H. apply Forall_fmap. eapply Forall_impl; [done|]. by intros. Qed.

Lemma last_indent (ls : list string) :
  last ((λ line, "   " +:+ line) <$> ls) ≠ Some "".
Proof. rewrite fmap_last. by destruct (last ls). Qed.

End indentation.

(** ** The tree only grows, and stays a tree *)

Section tree.
Import Str Re.
Implicit Types (r : RootNode) (fp : FileProcessor) (line : string).
Implicit Types (n : Node) (k : Kind).
Local Arguments String.append : simpl nomatch.

(** *** Strings of file names *)

Lemma str_app_inv_r (a b s : string) : a +:+ s = b +:+ s → a = b.
Proof.
  revert b. induction a as [|c a IH]; intros [|d b] H.
  - done.
  - apply (f_equal String.length) in H.
    rewrite (str_app_length (String d b)) in H. simpl in H. lia.
  - apply (f_equal String.length) in H.
    rewrite (str_app_length (String c a)) in H. simpl in H. lia.
  - change (String c (a +:+ s) = String d (b +:+ s)) in H.
    injection H as -> H. by rewrite (IH b H).
Qed.

Lemma module_file_inj (a b : string) :
  "modules/" +:+ a +:+ ".rst" = "modules/" +:+ b +:+ ".rst" → a = b.
Proof. intros H. simpl in H. simplify_eq. by eapply str_app_inv_r. Qed.

Lemma codedoc_file_inj (a b : string) :
  "_codedoc/" +:+ a +:+ ".txt" = "_codedoc/" +:+ b +:+ ".txt" → a = b.
Proof. intros H. simpl in H. simplify_eq. by eapply str_app_inv_r. Qed.

Lemma codedoc_not_module (a b : string) :
  "_codedoc/" +:+ a +:+ ".txt" ≠ "modules/" +:+ b +:+ ".rst".
Proof. intros H. simpl in H. discriminate H. Qed.

(** *** Contents *)

Lemma children_app n item :
  children (mkNode (kind n) (contents n ++ [item]))
  = children n ++ match item with Child c => [c] | Text _ => [] end.
Proof. unfold children. simpl. rewrite omap_app. by destruct item. Qed.

Lemma texts_app n item :
  texts (mkNode (kind n) (contents n ++ [item]))
  = texts n ++ match item with Text s => [s] | Child _ => [] end.
Proof. unfold texts. simpl. rewrite omap_app. by destruct item. Qed.

Lemma children_prefix n n' c :
  contents n `prefix_of` contents n' → c ∈ children n → c ∈ children n'.
Proof.
  intros [x Hx]. unfold children. rewrite Hx, omap_app.
  intros H. apply elem_of_app. by left.
Qed.

(** *** The store after [add] *)

Lemma lookup_add l item r i :
  heap (add l item r) !! i
  = (λ n, if decide (i = l) then mkNode (kind n) (contents n ++ [item])
          else n) <$> heap r !! i.
Proof.
  unfold add. simpl. rewrite list_lookup_alter.
  case_decide; subst.
  - destruct (heap r !! i); simpl; [|done]. by rewrite decide_True.
  - destruct (heap r !! i); simpl; [|done]. by rewrite decide_False.
Qed.

Lemma add_add_ne l l' item item' r :
  l ≠ l' → add l item (add l' item' r) = add l' item' (add l item r).
Proof.
  intros Hne. unfold add. simpl. f_equal.
  apply list_eq. intros i. rewrite !list_lookup_alter.
  repeat case_decide; subst; try done; by destruct (heap r !! i).
Qed.

Lemma lookup_alloc k r i :
  heap (alloc k r).2 !! i
  = if decide (i = length (heap r)) then Some (mkNode k [])
    else heap r !! i.
Proof.
  rewrite heap_alloc. case_decide; subst.
  - by apply list_lookup_middle.
  - destruct (decide (i < length (heap r))).
    + by rewrite lookup_app_l.
    + rewrite !lookup_ge_None_2; [done|lia|].
      rewrite length_app. simpl. lia.
Qed.

(** *** [grows] *)

Lemma grows_refl r : grows r r.
Proof. split; [|done]. intros l n H. eauto. Qed.

Lemma grows_trans r1 r2 r3 : grows r1 r2 → grows r2 r3 → grows r1 r3.
Proof.
  intros (H1 & M1 & F1) (H2 & M2 & F2). split; [|split; by etrans].
  intros l n Hn. destruct (H1 l n Hn) as (n' & Hn' & Hk & Hc).
  destruct (H2 l n' Hn') as (n'' & Hn'' & Hk' & Hc').
  exists n''. split_and!; [done|congruence|by etrans].
Qed.

Lemma grows_add l item r : grows r (add l item r).
Proof.
  split; [|done]. intros i n Hn. rewrite lookup_add, Hn. simpl.
  eexists. split; [done|]. case_decide; simpl; [|done].
  split; [done|]. by apply prefix_app_r.
Qed.

Lemma grows_add_text l buf r : grows r (add_text l buf r).
Proof. apply grows_add. Qed.

Lemma grows_alloc k r : grows r (alloc k r).2.
Proof.
  split; [|done]. intros i n Hn. rewrite lookup_alloc.
  rewrite decide_False; [eauto|].
  apply lookup_lt_Some in Hn. lia.
Qed.

Lemma grows_file f k r : grows r (file f k r).2.
Proof.
  unfold file. destruct (files r !! f) eqn:E; [apply grows_refl|].
  simpl. split; [|split; [done|by apply insert_subseteq]].
  intros i n Hn. apply (grows_alloc k r) in Hn. done.
Qed.

Lemma grows_module name r : grows r (module name r).2.
Proof.
  unfold module. destruct (modules r !! name) eqn:E; [apply grows_refl|].
  pose proof (grows_file ("modules/" +:+ name +:+ ".rst")
                (ModuleNode name) r) as (H & M & F).
  pose proof (modules_file ("modules/" +:+ name +:+ ".rst")
                (ModuleNode name) r) as Hm.
  destruct (file _ _ r) as [l r'] eqn:Ef. simpl in *.
  split; [done|]. split; [|done].
  rewrite Hm. by apply insert_subseteq.
Qed.

Lemma grows_kinds r r' i k :
  grows r r' → kinds r !! i = Some k → kinds r' !! i = Some k.
Proof.
  intros (H & _) Hk. unfold kinds in *. rewrite list_lookup_fmap in *.
  destruct (heap r !! i) as [n|] eqn:E; [|done].
  destruct (H i n E) as (n' & -> & Hk' & _). simpl in *. congruence.
Qed.

Lemma owned_grows r r' c k : grows r r' → owned r c k → owned r' c k.
Proof.
  intros (G & _) H p Hp. destruct (H p Hp) as (n & Hn & Hc & Hu).
  destruct (G p n Hn) as (n' & Hn' & Hk & Hpre).
  exists n'. rewrite Hk. split_and!; [done| |done].
  by eapply children_prefix.
Qed.

Lemma node_ok_grows r r' l n : grows r r' → node_ok r l n → node_ok r' l n.
Proof.
  intros G (H1 & H2 & H3). split_and!; [done| |done].
  intros c Hc. destruct (H2 c Hc) as (Hlt & k & Hk & Hp).
  split; [done|]. exists k. split; [|done]. by eapply grows_kinds.
Qed.

Lemma processor_ok_grows fp r r' :
  grows r r' → processor_ok fp r → processor_ok fp r'.
Proof.
  intros G [H1 H2]. split.
  - intros c Hc. destruct (H1 c Hc) as (m & name & a & Hk).
    exists m, name, a. by eapply grows_kinds.
  - intros l Hl. eapply grows_kinds; [done|]. by apply H2.
Qed.

(** *** The operations keep the tree *)

Lemma tree_ok_init : tree_ok RootNode_init.
Proof. by split_and!. Qed.

(** Appending a string to a codedoc file. *)
Lemma tree_ok_add_text l buf r :
  tree_ok r → kinds r !! l = Some PlainNode → tree_ok (add_text l buf r).
Proof.
  intros (Hn & Hm & Hf & Hreg & Hinj) Hl.
  pose proof (grows_add_text l buf r) as G.
  split_and!; rewrite ?kinds_add_text; try done.
  intros i n'. unfold add_text at 1. rewrite lookup_add.
  destruct (heap r !! i) as [n|] eqn:E; [|done]. simpl. intros [= <-].
  destruct (Hn i n E) as [Hok Hown]. split.
  - case_decide; [subst|by eapply node_ok_grows].
    rewrite kinds_lookup, E in Hl. simpl in Hl. injection Hl as Hl.
    apply (node_ok_grows _ _ _ _ G) in Hok.
    destruct Hok as (H1 & H2 & H3). rewrite Hl in H3.
    unfold node_ok. rewrite children_app, texts_app, app_nil_r. simpl.
    split_and!; [done..|]. rewrite Hl, fmap_app. by f_equal.
  - eapply owned_grows; [done|]. by case_decide.
Qed.

(** A new file node: a codedoc file, or the file of a new module. *)
Lemma tree_ok_new_file r k f (mods' : gmap string nat) :
  tree_ok r → files r !! f = None →
  (k = PlainNode ∧ (∃ tok, f = "_codedoc/" +:+ tok +:+ ".txt")
   ∧ mods' = modules r)
  ∨ (∃ name, k = ModuleNode name ∧ f = "modules/" +:+ name +:+ ".rst"
             ∧ modules r !! name = None
             ∧ mods' = <[name := length (heap r)]> (modules r)) →
  tree_ok (mkRoot (heap r ++ [mkNode k []]) mods'
             (<[f := length (heap r)]> (files r))).
Proof.
  intros (Hn & Hm & Hf & Hreg & Hinj) Hnone Hk.
  set (r' := mkRoot _ _ _).
  assert (parent k = None) as Hpar.
  { by destruct Hk as [(-> & _)|(name & -> & _)]. }
  assert (modules r ⊆ mods') as Hsub.
  { destruct Hk as [(_ & _ & ->)|(name & _ & _ & ? & ->)]; [done|].
    by apply insert_subseteq. }
  assert (grows r r') as G.
  { split; [|split; [done|by apply insert_subseteq]].
    intros i n Hi. exists n. split; [|done]. by apply lookup_app_l_Some. }
  assert (kinds r' = kinds r ++ [k]) as Hks.
  { unfold kinds. simpl. by rewrite fmap_app. }
  assert (kinds r' !! length (heap r) = Some k) as Hnew.
  { rewrite Hks, <-length_kinds. by apply list_lookup_middle. }
  split_and!.
  - intros i n Hi. simpl in Hi.
    apply lookup_app_Some in Hi as [Hi|[Hge Hi]].
    + destruct (Hn i n Hi). split; [by eapply node_ok_grows|].
      by eapply owned_grows.
    + apply list_lookup_singleton_Some in Hi as [_ <-]. simpl. split.
      * split_and!; [constructor|by intros c ?%elem_of_nil|].
        by destruct Hk as [(-> & _)|(name & -> & _)].
      * intros p Hp. congruence.
  - intros name l Hl. simpl in Hl.
    destruct Hk as [(_ & _ & ->)|(name' & -> & -> & Hmn & ->)].
    + destruct (Hm name l Hl) as [H1 H2]. split; [by eapply grows_kinds|].
      simpl. by eapply lookup_weaken; [|apply insert_subseteq].
    + apply lookup_insert_Some in Hl as [[<- <-]|[Hne Hl]].
      * split; [done|]. simpl. apply lookup_insert_eq.
      * destruct (Hm name l Hl) as [H1 H2]. split; [by eapply grows_kinds|].
        simpl. by eapply lookup_weaken; [|apply insert_subseteq].
  - intros f' l Hl. simpl in Hl.
    apply lookup_insert_Some in Hl as [[<- <-]|[Hne Hl]].
    + destruct Hk as [(-> & [tok ->] & _)|(name & -> & -> & _ & ->)].
      * left. eauto.
      * right. exists name. split; [done|]. simpl. apply lookup_insert_eq.
    + destruct (Hf f' l Hl) as [(tok & -> & Hp)|(name & -> & Hmn)].
      * left. exists tok. split; [done|]. by eapply grows_kinds.
      * right. exists name. split; [done|]. simpl.
        by eapply lookup_weaken.
  - intros l k0 Hl Hp0. rewrite Hks in Hl.
    apply lookup_app_Some in Hl as [Hl|[Hge Hl]].
    + destruct (Hreg l k0 Hl Hp0) as [f0 Hf0]. exists f0. simpl.
      by eapply lookup_weaken; [|apply insert_subseteq].
    + apply list_lookup_singleton_Some in Hl as [Hz _].
      exists f. simpl. rewrite length_kinds in *.
      assert (l = length (heap r)) as -> by lia. apply lookup_insert_eq.
  - assert (∀ f0 l, files r !! f0 = Some l → l < length (heap r)) as Hlt.
    { intros f0 l Hl. rewrite <-length_kinds.
      destruct (Hf f0 l Hl) as [(tok & _ & Hp)|(name & _ & Hmn)].
      - by eapply lookup_lt_Some.
      - destruct (Hm name l Hmn) as [Hp _]. by eapply lookup_lt_Some. }
    intros f1 f2 l H1 H2. simpl in H1, H2.
    apply lookup_insert_Some in H1 as [[<- <-]|[Hne1 H1]];
      apply lookup_insert_Some in H2 as [[<- Hl2]|[Hne2 H2]]; try done.
    + apply Hlt in H2. lia.
    + apply Hlt in H1. lia.
    + by eapply Hinj.
Qed.

(** [root.file] for a codedoc file. *)
Lemma tree_ok_codedoc tok r :
  tree_ok r →
  tree_ok (file ("_codedoc/" +:+ tok +:+ ".txt") PlainNode r).2
  ∧ kinds (file ("_codedoc/" +:+ tok +:+ ".txt") PlainNode r).2
      !! (file ("_codedoc/" +:+ tok +:+ ".txt") PlainNode r).1
    = Some PlainNode.
Proof.
  intros Hr. unfold file.
  destruct (files r !! _) as [l|] eqn:E; simpl.
  - split; [done|]. destruct Hr as (_ & _ & Hf & _).
    destruct (Hf _ l E) as [(tok' & _ & Hp)|(name & Hname & _)]; [done|].
    by apply codedoc_not_module in Hname.
  - split.
    + apply tree_ok_new_file; [done..|]. left. eauto.
    + unfold kinds. simpl. rewrite fmap_app.
      rewrite <-(length_fmap kind). by apply list_lookup_middle.
Qed.

(** [root.module]. *)
Lemma tree_ok_module name r :
  tree_ok r →
  tree_ok (module name r).2
  ∧ kinds (module name r).2 !! (module name r).1 = Some (ModuleNode name).
Proof.
  intros Hr. unfold module.
  destruct (modules r !! name) as [l|] eqn:E; simpl.
  { split; [done|]. destruct Hr as (_ & Hm & _). by apply Hm. }
  unfold file.
  destruct (files r !! _) as [l|] eqn:Ef; simpl.
  { destruct Hr as (_ & _ & Hf & _).
    destruct (Hf _ l Ef) as [(tok & Htok & _)|(name' & Hname & Hl)].
    - symmetry in Htok. by apply codedoc_not_module in Htok.
    - apply module_file_inj in Hname as <-. congruence. }
  split.
  - apply tree_ok_new_file; [done..|]. right. exists name. eauto.
  - unfold kinds. simpl. rewrite fmap_app.
    rewrite <-(length_fmap kind). by apply list_lookup_middle.
Qed.

(** A new domain node under the node at [p]. *)
Lemma lookup_new_node p k buf r i :
  p < length (heap r) →
  heap (add p (Child (length (heap r)))
          (add_text (length (heap r)) buf (alloc k r).2)) !! i
  = if decide (i = length (heap r))
    then Some (mkNode k [Text (join (String LF "") buf)])
    else (λ n, if decide (i = p)
               then mkNode (kind n) (contents n ++ [Child (length (heap r))])
               else n) <$> heap r !! i.
Proof.
  intros Hp. unfold add_text. rewrite !lookup_add, lookup_alloc.
  destruct (decide (i = length (heap r))) as [->|Hi];
    destruct (decide (_ = p)) as [?|?]; try lia; simpl; try done;
    by destruct (heap r !! i).
Qed.

Lemma tree_ok_new_node p pn k buf r :
  tree_ok r → heap r !! p = Some pn → parent k = Some p →
  under (kind pn) k →
  tree_ok (add p (Child (length (heap r)))
             (add_text (length (heap r)) buf (alloc k r).2)).
Proof.
  intros (Hn & Hm & Hf & Hreg & Hinj) Hpn Hpar Hu.
  set (r' := add _ _ _).
  assert (p < length (heap r)) as Hlt by by eapply lookup_lt_Some.
  assert (grows r r') as G.
  { eapply grows_trans; [|apply grows_add].
    eapply grows_trans; [|apply grows_add_text]. apply grows_alloc. }
  assert (kinds r' = kinds r ++ [k]) as Hks.
  { unfold r'. by rewrite kinds_add, kinds_add_text, kinds_alloc. }
  assert (kinds r' !! length (heap r) = Some k) as Hnew.
  { rewrite Hks, <-length_kinds. by apply list_lookup_middle. }
  assert (modules r' = modules r) as Hmods by done.
  assert (files r' = files r) as Hfiles by done.
  split_and!.
  - intros i n'. unfold r'. rewrite lookup_new_node by done.
    case_decide as Hi.
    { intros [= <-]. subst i. split.
      - split_and!; [constructor|by intros c ?%elem_of_nil|].
        destruct k; simplify_eq/=; eauto.
      - intros p' Hp'. simpl in Hp'. assert (p' = p) as -> by congruence.
        exists (mkNode (kind pn) (contents pn ++ [Child (length (heap r))])).
        split_and!;
          [|rewrite children_app; apply elem_of_app; right;
            by apply list_elem_of_singleton|done].
        fold r'. unfold r'. rewrite lookup_new_node by done.
        rewrite decide_False by lia. rewrite Hpn. simpl.
        by rewrite decide_True. }
    destruct (heap r !! i) as [n|] eqn:E; [|done]. simpl. intros [= <-].
    destruct (Hn i n E) as [Hok Hown]. split.
    + case_decide as Hip; [subst i|by eapply node_ok_grows].
      assert (n = pn) as -> by congruence.
      apply (node_ok_grows _ _ _ _ G) in Hok. fold r'.
      destruct Hok as (H1 & H2 & H3).
      unfold node_ok. rewrite children_app. simpl. split_and!.
      * apply NoDup_app. split_and!; [done| |apply NoDup_singleton].
        intros c Hc ->%list_elem_of_singleton.
        destruct (Hn p pn E) as [(_ & H2' & _) _].
        destruct (H2' _ Hc) as (_ & k' & Hk' & _).
        apply lookup_lt_Some in Hk'. rewrite length_kinds in Hk'. lia.
      * intros c [Hc| ->%list_elem_of_singleton]%elem_of_app; [eauto|].
        split; [done|]. eauto.
      * clear -H3 Hu. destruct (kind pn); destruct k; try done;
          first [ by rewrite fmap_app, <-H3
                | destruct H3 as [doc H3]; exists doc;
                  by rewrite fmap_app, H3 ].
    + eapply owned_grows; [done|]. by case_decide.
  - intros name l Hl. rewrite Hmods in Hl. rewrite Hfiles.
    destruct (Hm name l Hl). split; [by eapply grows_kinds|done].
  - intros f l Hl. rewrite Hfiles in Hl. rewrite Hmods.
    destruct (Hf f l Hl) as [(tok & -> & Hp)|(name & -> & Hmn)]; [|eauto].
    left. exists tok. split; [done|]. by eapply grows_kinds.
  - intros l k0 Hl Hp0. rewrite Hfiles. rewrite Hks in Hl.
    apply lookup_app_Some in Hl as [Hl|[Hge Hl]]; [eauto|].
    apply list_lookup_singleton_Some in Hl as [_ <-]. congruence.
  - by rewrite Hfiles.
Qed.

(** *** One line, one file, the run *)

Local Arguments alloc : simpl never.
Local Arguments add : simpl never.
Local Arguments add_text : simpl never.
Local Arguments module : simpl never.
Local Arguments file : simpl never.

Lemma process_line_grows line fp r fp' r' :
  process_line line fp r = Ok (fp', r') → grows r r'.
Proof.
  revert fp' r'. apply by_outcome.
  destruct (process_line_outcome line fp r); try done;
    repeat first
      [ apply grows_refl
      | (eapply grows_trans; [|apply grows_add_text])
      | (eapply grows_trans; [|apply grows_add])
      | (eapply grows_trans; [|apply grows_alloc])
      | apply grows_file | apply grows_module ].
Qed.

Lemma process_line_tree_ok line fp r fp' r' :
  tree_ok r → processor_ok fp r →
  process_line line fp r = Ok (fp', r') →
  tree_ok r' ∧ processor_ok fp' r'.
Proof.
  intros Hr Hfp. revert fp' r'. apply by_outcome.
  destruct (process_line_outcome line fp r)
    as [g Hc|Hc Hb|Hc Hb|b0 rest tok Hc Hb H1 o|rest l Hc Hb Hl|rest Hc Hb Hl
       |b0 rest name mname Hc Hb Hp H3 Hm o cn|b0 rest name Hc Hb Hp H3 Hm
       |b0 rest c name Hc Hb Hp H3 Hcc H4 n
       |b0 rest c name Hc Hb Hp H3 Hcc H4 H5 n
       |b0 rest name mname Hc Hb Hp H3 Hn H6 Hm o dn
       |b0 rest name Hc Hb Hp H3 Hn H6 Hm
       |b0 rest Hc Hb Hp H3 Hn H6];
    try done.
  - (* codedoc *)
    destruct (tree_ok_codedoc tok r Hr) as [Ho Hk]. fold o in Ho, Hk.
    split; [by apply tree_ok_add_text|].
    assert (grows r (add_text o.1 rest o.2)) as G.
    { eapply grows_trans; [apply grows_file|apply grows_add_text]. }
    destruct (processor_ok_grows _ _ _ G Hfp) as [F1 F2].
    split; [done|]. simpl. intros l [= <-]. by rewrite kinds_add_text.
  - (* continue *)
    pose proof Hfp as [F1 F2].
    split; [apply tree_ok_add_text; [done|by apply F2]|].
    apply (processor_ok_grows fp r); [apply grows_add_text|done].
  - (* class *)
    destruct (tree_ok_module mname r Hr) as [Ho Hk]. fold o in Ho, Hk.
    rewrite kinds_lookup in Hk.
    destruct (heap o.2 !! o.1) as [pn|] eqn:Hpn; [|done].
    simpl in Hk. injection Hk as Hk.
    apply lookup_lt_Some in Hpn as Hlt.
    unfold add_text. rewrite add_add_ne by (unfold cn; lia).
    fold (add_text cn (b0 :: rest) (alloc (ClassNode o.1 name "") o.2).2).
    assert (grows r (add o.1 (Child cn) (add_text cn (b0 :: rest)
              (alloc (ClassNode o.1 name "") o.2).2))) as G.
    { eapply grows_trans; [|apply grows_add].
      eapply grows_trans; [|apply grows_add_text].
      eapply grows_trans; [|apply grows_alloc]. apply grows_module. }
    split.
    + eapply tree_ok_new_node; [done..|]. by rewrite Hk.
    + destruct (processor_ok_grows _ _ _ G Hfp) as [F1 F2].
      split; [|done]. intros c Hc'. cbn in Hc'. injection Hc' as <-.
      exists o.1, name, "".
      rewrite kinds_add, kinds_add_text, kinds_alloc.
      unfold cn. rewrite <-length_kinds. by apply list_lookup_middle.
  - (* method *)
    pose proof Hfp as [F1 F2]. destruct (F1 c Hcc) as (m & cname & a & Hk).
    rewrite kinds_lookup in Hk.
    destruct (heap r !! c) as [pn|] eqn:Hpn; [|done].
    simpl in Hk. injection Hk as Hk.
    split; [eapply tree_ok_new_node; [done..|by rewrite Hk]|].
    apply (processor_ok_grows fp r); [|done].
    eapply grows_trans; [|apply grows_add].
    eapply grows_trans; [|apply grows_add_text]. apply grows_alloc.
  - (* attribute *)
    pose proof Hfp as [F1 F2]. destruct (F1 c Hcc) as (m & cname & a & Hk).
    rewrite kinds_lookup in Hk.
    destruct (heap r !! c) as [pn|] eqn:Hpn; [|done].
    simpl in Hk. injection Hk as Hk.
    split; [eapply tree_ok_new_node; [done..|by rewrite Hk]|].
    apply (processor_ok_grows fp r); [|done].
    eapply grows_trans; [|apply grows_add].
    eapply grows_trans; [|apply grows_add_text]. apply grows_alloc.
  - (* data *)
    destruct (tree_ok_module mname r Hr) as [Ho Hk]. fold o in Ho, Hk.
    rewrite kinds_lookup in Hk.
    destruct (heap o.2 !! o.1) as [pn|] eqn:Hpn; [|done].
    simpl in Hk. injection Hk as Hk.
    split; [eapply tree_ok_new_node; [done..|by rewrite Hk]|].
    apply (processor_ok_grows fp r); [|done].
    eapply grows_trans; [|apply grows_add].
    eapply grows_trans; [|apply grows_add_text].
    eapply grows_trans; [|apply grows_alloc]. apply grows_module.
Qed.

End tree.

(** ** The tree of a run *)

Section run_tree.
Import Str Re.
Implicit Types (r : RootNode) (fp : FileProcessor) (line : string).
Implicit Types (n : Node) (k : Kind).

Lemma process_lines_tree_ok (lines : list string) fp r fp' r' :
  tree_ok r → processor_ok fp r →
  process_lines lines fp r = Ok (fp', r') →
  tree_ok r' ∧ processor_ok fp' r'.
Proof.
  revert fp r. induction lines as [|x lines IH]; intros fp r Hr Hfp; simpl.
  - by intros [= <- <-].
  - destruct (process_line (strip x) fp r) as [[fp1 r1]|] eqn:E; [|done].
    simpl. intros H.
    destruct (process_line_tree_ok _ _ _ _ _ Hr Hfp E). by eapply IH.
Qed.

Lemma process_lines_grows (lines : list string) fp r fp' r' :
  process_lines lines fp r = Ok (fp', r') → grows r r'.
Proof.
  revert fp r. induction lines as [|x lines IH]; intros fp r; simpl.
  - intros [= <- <-]. apply grows_refl.
  - destruct (process_line (strip x) fp r) as [[fp1 r1]|] eqn:E; [|done].
    simpl. intros H. eapply grows_trans; [by eapply process_line_grows|].
    by eapply IH.
Qed.

Lemma process_all_tree_ok (srcs : list source) r r' :
  tree_ok r → process_all srcs r = Ok r' → tree_ok r'.
Proof.
  revert r. induction srcs as [|[p lines] srcs IH]; intros r Hr; simpl.
  - by intros [= <-].
  - destruct (process lines _ r) as [[fp1 r1]|] eqn:E; [|done].
    simpl. apply IH. unfold process in E.
    eapply process_lines_tree_ok; [done| |done]. by split.
Qed.

Lemma process_all_grows (srcs : list source) r r' :
  process_all srcs r = Ok r' → grows r r'.
Proof.
  revert r. induction srcs as [|[p lines] srcs IH]; intros r; simpl.
  - intros [= <-]. apply grows_refl.
  - destruct (process lines _ r) as [[fp1 r1]|] eqn:E; [|done].
    simpl. intros H. eapply grows_trans; [|by eapply IH].
    by eapply process_lines_grows.
Qed.

Lemma main_tree_ok (srcs : list source) r idx :
  main srcs = Ok (r, idx) → tree_ok r.
Proof.
  unfold main.
  destruct (process_all srcs RootNode_init) as [r0|] eqn:E; [|done].
  simpl. intros [= <- _].
  eapply process_all_tree_ok; [apply tree_ok_init|done].
Qed.

(** X8. The tree is append-only. What a run has built after some of
    the source files is still there after the rest: every node at the
    same place, of the same class and with the same attributes, its
    contents the same or longer at the end, and every module name and
    file name with the node it had. *)
Theorem tree_is_append_only (srcs more : list source) r0 r' :
  process_all (srcs ++ more) r0 = Ok r' →
  ∃ r, process_all srcs r0 = Ok r ∧ grows r r'.
Proof.
  rewrite process_all_app.
  destruct (process_all srcs r0) as [r|]; [|done]. simpl. intros H.
  exists r. split; [done|]. by eapply process_all_grows.
Qed.

Lemma tree_is_append_only_witness :
  ∃ r, process_all [("src/a.js", ["// A"; "class A {"])] RootNode_init = Ok r
       ∧ grows r
           (mkRoot [mkNode (ModuleNode "a") [Child 1; Child 2];
                    mkNode (ClassNode 0 "A" "") [Text "A"];
                    mkNode (DataNode 0 "x") [Text "x"]]
              {[ "a" := 0 ]} {[ "modules/a.rst" := 0 ]}).
Proof.
  apply (tree_is_append_only
           [("src/a.js", ["// A"; "class A {"])]
           [("src/a.js", ["// x"; "export let x = 1"])] RootNode_init).
  reflexivity.
Defined.

(** X9. Every node has one owner. A domain node (class, method,
    attribute, data) is in the contents of the node it names as its
    module or class, once, and in the contents of no other node; that
    node was made before it and is of the level above. A codedoc node
    or a module node is in no contents: it is the node of a file. *)
Theorem every_node_has_one_owner (srcs : list source) r idx c n :
  main srcs = Ok (r, idx) → heap r !! c = Some n →
  match parent (kind n) with
  | Some p =>
      ∃ pn, heap r !! p = Some pn ∧ p < c ∧ under (kind pn) (kind n)
            ∧ c ∈ children pn ∧ NoDup (children pn)
            ∧ ∀ l ln, heap r !! l = Some ln → c ∈ children ln → l = p
  | None =>
      (∃ f, files r !! f = Some c)
      ∧ ∀ l ln, heap r !! l = Some ln → c ∉ children ln
  end.
Proof.
  intros (Hn & Hm & Hf & Hreg & Hinj)%main_tree_ok Hc.
  assert (∀ l ln, heap r !! l = Some ln → c ∈ children ln →
                  parent (kind n) = Some l ∧ l < c) as Hup.
  { intros l ln Hl Hin. destruct (Hn l ln Hl) as [(_ & H2 & _) _].
    destruct (H2 c Hin) as (Hlt & k & Hk & Hp).
    rewrite kinds_lookup, Hc in Hk. simpl in Hk. by simplify_eq. }
  destruct (parent (kind n)) as [p|] eqn:Hp.
  - destruct (Hn c n Hc) as [_ Hown].
    destruct (Hown p Hp) as (pn & Hpn & Hin & Hu).
    exists pn. destruct (Hn p pn Hpn) as [(H1 & _) _].
    split_and!; try done.
    + by destruct (Hup p pn Hpn Hin).
    + intros l ln Hl Hin'. destruct (Hup l ln Hl Hin'). congruence.
  - split.
    + apply (Hreg c (kind n)); [|done]. by rewrite kinds_lookup, Hc.
    + intros l ln Hl Hin. by destruct (Hup l ln Hl Hin).
Qed.

Lemma every_node_has_one_owner_witness :
  ∃ pn, [mkNode (ModuleNode "a") [Child 1];
         mkNode (ClassNode 0 "A" "") [Text "A"; Child 2];
         mkNode (MethodNode 1 "f()") [Text "f"]] !! 1 = Some pn
        ∧ 1 < 2 ∧ under (kind pn) (MethodNode 1 "f()")
        ∧ 2 ∈ children pn ∧ NoDup (children pn)
        ∧ ∀ l ln, [mkNode (ModuleNode "a") [Child 1];
                   mkNode (ClassNode 0 "A" "") [Text "A"; Child 2];
                   mkNode (MethodNode 1 "f()") [Text "f"]] !! l = Some ln →
                  2 ∈ children ln → l = 1.
Proof.
  apply (every_node_has_one_owner
           [("src/a.js", ["// A"; "class A {"; "// f"; "f() {"])]
           (mkRoot [mkNode (ModuleNode "a") [Child 1];
                    mkNode (ClassNode 0 "A" "") [Text "A"; Child 2];
                    mkNode (MethodNode 1 "f()") [Text "f"]]
              {[ "a" := 0 ]} {[ "modules/a.rst" := 0 ]})
           (index_header ++ ["   a"]) 2
           (mkNode (MethodNode 1 "f()") [Text "f"]));
    reflexivity.
Defined.

(** A node in the contents of another is of the level below. *)
Lemma child_under r l n c :
  tree_ok r → heap r !! l = Some n → c ∈ children n →
  ∃ cn, heap r !! c = Some cn ∧ under (kind n) (kind cn)
        ∧ parent (kind cn) = Some l ∧ l < c.
Proof.
  intros (Hn & _) Hl Hin. destruct (Hn l n Hl) as [(_ & H2 & _) _].
  destruct (H2 c Hin) as (Hlt & k & Hk & Hp).
  rewrite kinds_lookup in Hk.
  destruct (heap r !! c) as [cn|] eqn:Hc; [|done].
  simpl in Hk. injection Hk as <-. exists cn. split_and!; try done.
  destruct (Hn c cn Hc) as [_ Hown].
  destruct (Hown l Hp) as (pn & Hpn & _ & Hu). by simplify_eq.
Qed.

Lemma leaf_children r l n :
  tree_ok r → heap r !! l = Some n →
  (∀ k, ¬ under (kind n) k) → children n = [].
Proof.
  intros Hr Hl Hleaf. destruct (children n) as [|c cs] eqn:E; [done|].
  destruct (child_under r l n c Hr Hl) as (cn & _ & Hu & _).
  { rewrite E. by left. }
  by apply Hleaf in Hu.
Qed.

(** X10. The contents of a node, by its class. A codedoc file holds
    strings only; a module holds nodes only, classes and data; a class
    holds its documentation and then nodes only, methods and
    attributes; a method, an attribute or a data node holds its
    documentation and nothing else. So the tree is three levels deep at
    most. *)
Theorem contents_by_class (srcs : list source) r idx l n :
  main srcs = Ok (r, idx) → heap r !! l = Some n →
  (∀ c, c ∈ children n →
        ∃ cn, heap r !! c = Some cn ∧ under (kind n) (kind cn))
  ∧ match kind n with
    | PlainNode => contents n = Text <$> texts n
    | ModuleNode _ => contents n = Child <$> children n
    | ClassNode _ _ _ => ∃ doc, contents n = Text doc :: (Child <$> children n)
    | _ => ∃ doc, contents n = [Text doc]
    end.
Proof.
  intros Hr%main_tree_ok Hl. split.
  - intros c Hc. destruct (child_under r l n c Hr Hl Hc) as (cn & ? & ? & _).
    eauto.
  - pose proof Hr as (Hn & _). destruct (Hn l n Hl) as [(_ & _ & H3) _].
    assert ((∀ k, ¬ under (kind n) k) →
            (∃ doc, contents n = Text doc :: (Child <$> children n)) →
            ∃ doc, contents n = [Text doc]) as Hleaf.
    { intros Hu [doc Hd]. exists doc.
      by rewrite (leaf_children r l n Hr Hl Hu) in Hd. }
    destruct (kind n) eqn:Hk; try done;
      (apply Hleaf; [intros k Hu; destruct k; exact Hu|done]).
Qed.

Lemma contents_by_class_witness :
  (∀ c, c ∈ children (mkNode (ClassNode 0 "A" "") [Text "A"; Child 2]) →
        ∃ cn, [mkNode (ModuleNode "a") [Child 1];
               mkNode (ClassNode 0 "A" "") [Text "A"; Child 2];
               mkNode (MethodNode 1 "f()") [Text "f"]] !! c = Some cn
              ∧ under (ClassNode 0 "A" "") (kind cn))
  ∧ ∃ doc, [Text "A"; Child 2]
           = Text doc
             :: (Child <$> children (mkNode (ClassNode 0 "A" "")
                                       [Text "A"; Child 2])).
Proof.
  apply (contents_by_class
           [("src/a.js", ["// A"; "class A {"; "// f"; "f() {"])]
           (mkRoot [mkNode (ModuleNode "a") [Child 1];
                    mkNode (ClassNode 0 "A" "") [Text "A"; Child 2];
                    mkNode (MethodNode 1 "f()") [Text "f"]]
              {[ "a" := 0 ]} {[ "modules/a.rst" := 0 ]})
           (index_header ++ ["   a"]) 1
           (mkNode (ClassNode 0 "A" "") [Text "A"; Child 2]));
    reflexivity.
Defined.

(** X11. The files of a run. A file name of [root.files] is that of a
    codedoc file, whose node is a plain [Node], or [modules/<name>.rst]
    for a module name, whose node is the [ModuleNode] of that name;
    every module has its file, with the same node; and no two file
    names have the same node. *)
Theorem files_of_a_run (srcs : list source) r idx :
  main srcs = Ok (r, idx) →
  (∀ f l, files r !! f = Some l →
     (∃ tok, f = "_codedoc/" +:+ tok +:+ ".txt"
             ∧ kinds r !! l = Some PlainNode)
     ∨ (∃ name, f = "modules/" +:+ name +:+ ".rst"
                ∧ kinds r !! l = Some (ModuleNode name)))
  ∧ (∀ name l, modules r !! name = Some l ↔
               files r !! ("modules/" +:+ name +:+ ".rst") = Some l)
  ∧ (∀ f f' l, files r !! f = Some l → files r !! f' = Some l → f = f').
Proof.
  intros (Hn & Hm & Hf & Hreg & Hinj)%main_tree_ok. split_and!; [| |done].
  - intros f l Hl.
    destruct (Hf f l Hl) as [(tok & -> & Hp)|(name & -> & Hmn)]; [eauto|].
    right. exists name. split; [done|]. by apply Hm.
  - intros name l. split; [intros H; by destruct (Hm name l H)|]. intros Hl.
    destruct (Hf _ l Hl) as [(tok & Htok & _)|(name' & Hname & Hmn)].
    + symmetry in Htok. by apply codedoc_not_module in Htok.
    + by apply module_file_inj in Hname as <-.
Qed.

Lemma files_of_a_run_witness :
  ({[ "a" := 0 ]} : gmap string nat) !! "a" = Some 0 ↔
  ({[ "modules/a.rst" := 0 ]} : gmap string nat)
    !! ("modules/" +:+ "a" +:+ ".rst") = Some 0.
Proof.
  exact (proj1 (proj2 (files_of_a_run
           [("src/a.js", ["// A"; "class A {"])]
           (mkRoot [mkNode (ModuleNode "a") [Child 1];
                    mkNode (ClassNode 0 "A" "") [Text "A"]]
              {[ "a" := 0 ]} {[ "modules/a.rst" := 0 ]})
           (index_header ++ ["   a"]) eq_refl)) "a" 0).
Defined.

End run_tree.

(** ** Rendering *)

Section rendering.
Import Str Re.
Implicit Types (r : RootNode) (fp : FileProcessor) (line : string).
Implicit Types (n : Node) (k : Kind).
Local Arguments String.append : simpl nomatch.
Local Arguments str : simpl never.
Local Arguments text_contents : simpl never.

Lemma str_S d r l :
  str (S d) r l
  = n ← heap r !! l;
    body ← text_contents (str d r) n;
    match kind n with
    | PlainNode => Some body
    | ModuleNode name => Some (ModuleNode_str name body)
    | _ => i ← index r l; dr ← directive r l;
           Some (DomainNode_str i dr body)
    end.
Proof. done. Qed.

Lemma text_contents_mono (f g : nat → option string) n body :
  (∀ c s, f c = Some s → g c = Some s) →
  text_contents f n = Some body → text_contents g n = Some body.
Proof.
  intros Hfg. unfold text_contents.
  destruct (mapM _ (contents n)) as [parts|] eqn:E; [|done].
  simpl. intros [= <-]. apply mapM_Some in E.
  erewrite (proj2 (mapM_Some _ _ parts)); [done|].
  eapply Forall2_impl; [done|]. intros [s|c] y; simpl; [done|]. apply Hfg.
Qed.

(** A rendering does not depend on the depth allowed, once it is
    enough. *)
Lemma str_mono d r l s : str d r l = Some s → str (S d) r l = Some s.
Proof.
  revert l s. induction d as [|d IH]; intros l s; [done|].
  rewrite (str_S (S d)), (str_S d).
  destruct (heap r !! l) as [n|]; [|done]. simpl.
  destruct (text_contents (str d r) n) as [body|] eqn:E; [|done].
  by rewrite (text_contents_mono _ (str (S d) r) n body IH E).
Qed.

Lemma str_le d d' r l s : d ≤ d' → str d r l = Some s → str d' r l = Some s.
Proof.
  induction 1 as [|d' _ IH]; [done|]. intros Hs. by apply str_mono, IH.
Qed.

Lemma text_contents_texts f n :
  contents n = Text <$> texts n →
  text_contents f n = Some (join (NL +:+ NL) (texts n)).
Proof.
  intros H. unfold text_contents. rewrite H at 1.
  erewrite (proj2 (mapM_Some _ _ (texts n))); [done|].
  apply Forall2_fmap_l, Forall2_same_length_lookup_2; [done|].
  intros i x y Hx Hy. by simplify_eq.
Qed.

(** [index()] and [directive()] of a domain node of the tree. *)
Lemma module_name_is_Some r l n p :
  tree_ok r → heap r !! l = Some n → parent (kind n) = Some p →
  (∃ name, kind n = MethodNode p name ∨ kind n = AttributeNode p name)
  ∨ ∃ mname, ModuleNode_name r p = Some mname.
Proof.
  intros (Hn & _) Hl Hp. destruct (Hn l n Hl) as [_ Hown].
  destruct (Hown p Hp) as (pn & Hpn & _ & Hu).
  destruct (kind n) eqn:Hk; simplify_eq/=; eauto;
    right; unfold ModuleNode_name; rewrite Hpn; simpl;
    destruct (kind pn); try done; eauto.
Qed.

Lemma ClassNode_index_is_Some r l n m name a :
  tree_ok r → heap r !! l = Some n → kind n = ClassNode m name a →
  is_Some (ClassNode_index r l).
Proof.
  intros Hr Hl Hk. unfold ClassNode_index. rewrite Hl. simpl. rewrite Hk.
  assert (parent (kind n) = Some m) as Hp by by rewrite Hk.
  destruct (module_name_is_Some r l n m Hr Hl Hp)
    as [(x & [Hx|Hx])|[mname Hm]]; [congruence..|].
  rewrite Hm. by eexists.
Qed.

Lemma index_is_Some r l n p :
  tree_ok r → heap r !! l = Some n → parent (kind n) = Some p →
  is_Some (index r l) ∧ is_Some (directive r l).
Proof.
  intros Hr Hl Hp. split; [|unfold directive; rewrite Hl; simpl;
                            by destruct (kind n)].
  pose proof Hr as (Hn & _). destruct (Hn l n Hl) as [_ Hown].
  destruct (Hown p Hp) as (pn & Hpn & _ & Hu).
  unfold index. rewrite Hl. simpl.
  destruct (kind n) eqn:Hk; simplify_eq/=.
  - by eapply ClassNode_index_is_Some.
  - destruct (kind pn) eqn:Hpk; try done.
    destruct (ClassNode_index_is_Some r p pn _ _ _ Hr Hpn Hpk) as [ci ->].
    by eexists.
  - destruct (kind pn) eqn:Hpk; try done.
    destruct (ClassNode_index_is_Some r p pn _ _ _ Hr Hpn Hpk) as [ci ->].
    by eexists.
  - unfold ModuleNode_name. rewrite Hpn. simpl.
    by destruct (kind pn).
Qed.

(** A node renders once the nodes of its contents do. *)
Lemma str_S_is_Some d r l n :
  tree_ok r → heap r !! l = Some n →
  (∀ c, c ∈ children n → is_Some (str d r c)) →
  is_Some (str (S d) r l).
Proof.
  intros Hr Hl Hch. rewrite str_S, Hl. simpl.
  assert (is_Some (text_contents (str d r) n)) as [body ->].
  { unfold text_contents.
    destruct (mapM_is_Some_2
                (λ item, match item with
                         | Text s => Some s
                         | Child c => str d r c
                         end) (contents n)) as [parts ->]; [|by eexists].
    apply Forall_forall. intros [s|c] Hin; simpl; [by eexists|].
    apply Hch. unfold children. apply list_elem_of_omap.
    by exists (Child c). }
  simpl.
  destruct (parent (kind n)) as [p|] eqn:Hp.
  - destruct (index_is_Some r l n p Hr Hl Hp) as [[i ->] [dr ->]].
    simpl. by destruct (kind n).
  - by destruct (kind n).
Qed.

Lemma str_1_is_Some r l n :
  tree_ok r → heap r !! l = Some n →
  (∀ k, ¬ under (kind n) k) → is_Some (str 1 r l).
Proof.
  intros Hr Hl Hleaf. eapply str_S_is_Some; [done..|].
  rewrite (leaf_children r l n Hr Hl Hleaf). by intros c ?%elem_of_nil.
Qed.

Lemma str_2_is_Some r l n :
  tree_ok r → heap r !! l = Some n →
  (∀ name, kind n ≠ ModuleNode name) → is_Some (str 2 r l).
Proof.
  intros Hr Hl Hnm.
  assert ((∀ k, ¬ under (kind n) k) → is_Some (str 2 r l)) as Hleaf.
  { intros H. destruct (str_1_is_Some r l n Hr Hl H) as [s Hs].
    exists s. by apply str_mono. }
  destruct (kind n) eqn:Hk;
    try (apply Hleaf; intros k' Hu; destruct k'; exact Hu).
  - by destruct (Hnm name).
  - eapply str_S_is_Some; [done..|]. intros c Hc.
    destruct (child_under r l n c Hr Hl Hc) as (cn & Hcn & Hu & _).
    eapply str_1_is_Some; [done..|].
    rewrite Hk in Hu. intros k' Hk'. destruct (kind cn), k'; done.
Qed.

Lemma str_3_is_Some r l n :
  tree_ok r → heap r !! l = Some n → is_Some (str 3 r l).
Proof.
  intros Hr Hl.
  assert ((∀ name, kind n ≠ ModuleNode name) → is_Some (str 3 r l)) as Hnm.
  { intros H. destruct (str_2_is_Some r l n Hr Hl H) as [s Hs].
    exists s. by apply str_mono. }
  destruct (kind n) eqn:Hk; try (apply Hnm; intros x; congruence).
  eapply str_S_is_Some; [done..|]. intros c Hc.
  destruct (child_under r l n c Hr Hl Hc) as (cn & Hcn & Hu & _).
  eapply str_2_is_Some; [done..|].
  rewrite Hk in Hu. intros x Hx. rewrite Hx in Hu. done.
Qed.

(** *** The files written *)

Lemma file_node r f l :
  tree_ok r → files r !! f = Some l → ∃ n, heap r !! l = Some n.
Proof.
  intros (_ & Hm & Hf & _) Hl.
  assert (is_Some (kinds r !! l)) as [k Hk].
  { destruct (Hf f l Hl) as [(tok & _ & Hp)|(name & _ & Hmn)]; [eauto|].
    destruct (Hm name l Hmn). eauto. }
  rewrite kinds_lookup in Hk. destruct (heap r !! l); [eauto|done].
Qed.

Lemma write_files_eq depth r :
  tree_ok r → 3 ≤ depth →
  write_files depth r
  = Some (<["modules/index.rst" := print_lines (index_rst r)]>
            ((λ l, default "" (str 3 r l)) <$> files r)).
Proof.
  intros Hr Hd. unfold write_files.
  erewrite (proj2 (mapM_Some _ (map_to_list (files r))
              (prod_map id (λ l, default "" (str 3 r l))
                 <$> map_to_list (files r)))).
  - simpl. by rewrite list_to_map_fmap, list_to_map_to_list.
  - apply Forall2_fmap_r, Forall2_same_length_lookup_2; [done|].
    intros i [f l] y Hx Hy. simplify_eq.
    apply list_elem_of_lookup_2, elem_of_map_to_list in Hx.
    destruct (file_node r f l Hr Hx) as [n Hn].
    destruct (str_3_is_Some r l n Hr Hn) as [s Hs].
    rewrite (str_le 3 depth r l s Hd Hs). simpl. by rewrite Hs.
Qed.

(** X12. Rendering never fails, and three levels are all it takes.
    After a run that returns, every node of [root.files] renders to a
    string, the same at every depth from 3 on; so the second half of
    [main] writes every file: each file name of [root.files] holds the
    rendering of its node and [modules/index.rst] holds the index,
    which is written last. *)
Theorem every_file_is_written (srcs : list source) r idx depth :
  main srcs = Ok (r, idx) → 3 ≤ depth →
  (∀ f l, files r !! f = Some l →
          ∃ text, str 3 r l = Some text ∧ str depth r l = Some text)
  ∧ ∃ fs, write_files depth r = Some fs
      ∧ fs !! "modules/index.rst" = Some (print_lines idx)
      ∧ ∀ f, f ≠ "modules/index.rst" →
             fs !! f = (l ← files r !! f; str 3 r l).
Proof.
  intros Hmain Hd. pose proof (main_tree_ok _ _ _ Hmain) as Hr.
  assert (idx = index_rst r) as ->.
  { unfold main in Hmain.
    destruct (process_all srcs RootNode_init); by simplify_eq/=. }
  assert (∀ f l, files r !! f = Some l →
            ∃ text, str 3 r l = Some text ∧ str depth r l = Some text)
    as Hall.
  { intros f l Hl. destruct (file_node r f l Hr Hl) as [n Hn].
    destruct (str_3_is_Some r l n Hr Hn) as [s Hs].
    exists s. split; [done|]. by eapply str_le. }
  split; [done|]. eexists. split; [by apply write_files_eq|].
  split; [apply lookup_insert_eq|].
  intros f Hf. rewrite lookup_insert_ne by done. rewrite lookup_fmap.
  destruct (files r !! f) as [l|] eqn:Hl; [|done]. simpl.
  destruct (Hall f l Hl) as (text & -> & _). done.
Qed.

Lemma every_file_is_written_witness :
  ∃ text,
    str 3 (mkRoot [mkNode (ModuleNode "a") [Child 1];
                   mkNode (ClassNode 0 "A" "") [Text "A"; Child 2];
                   mkNode (MethodNode 1 "f()") [Text "f"]]
             {[ "a" := 0 ]} {[ "modules/a.rst" := 0 ]}) 0 = Some text
    ∧ str 5 (mkRoot [mkNode (ModuleNode "a") [Child 1];
                     mkNode (ClassNode 0 "A" "") [Text "A"; Child 2];
                     mkNode (MethodNode 1 "f()") [Text "f"]]
               {[ "a" := 0 ]} {[ "modules/a.rst" := 0 ]}) 0 = Some text.
Proof.
  refine (proj1 (every_file_is_written
            [("src/a.js", ["// A"; "class A {"; "// f"; "f() {"])]
            (mkRoot [mkNode (ModuleNode "a") [Child 1];
                     mkNode (ClassNode 0 "A" "") [Text "A"; Child 2];
                     mkNode (MethodNode 1 "f()") [Text "f"]]
               {[ "a" := 0 ]} {[ "modules/a.rst" := 0 ]})
            (index_header ++ ["   a"]) 5 eq_refl _)
            "modules/a.rst" 0 eq_refl).
  lia.
Defined.

(** X13. A codedoc file is its blocks. The node of
    [_codedoc/<token>.txt] is a plain [Node] that holds strings only,
    and it renders as these strings in the order they were appended,
    with an empty line between two of them. *)
Theorem codedoc_file_is_its_blocks (srcs : list source) r idx tok l :
  main srcs = Ok (r, idx) →
  files r !! ("_codedoc/" +:+ tok +:+ ".txt") = Some l →
  ∃ n, heap r !! l = Some n ∧ kind n = PlainNode
       ∧ contents n = Text <$> texts n
       ∧ ∀ d, str (S d) r l = Some (join (NL +:+ NL) (texts n)).
Proof.
  intros Hr%main_tree_ok Hl.
  destruct (file_node r _ l Hr Hl) as [n Hn].
  pose proof Hr as (Hnodes & Hm & Hf & _).
  assert (kind n = PlainNode) as Hk.
  { destruct (Hf _ l Hl) as [(tok' & _ & Hp)|(name & Hname & _)].
    - rewrite kinds_lookup, Hn in Hp. by simplify_eq/=.
    - by apply codedoc_not_module in Hname. }
  destruct (Hnodes l n Hn) as [(_ & _ & H3) _]. rewrite Hk in H3.
  exists n. split_and!; [done..|].
  intros d. by rewrite str_S, Hn; simpl; rewrite (text_contents_texts _ n H3),
    Hk.
Qed.

Lemma codedoc_file_is_its_blocks_witness :
  ∃ n, [mkNode PlainNode [Text "one"; Text "two"]] !! 0 = Some n
       ∧ kind n = PlainNode ∧ contents n = Text <$> texts n
       ∧ ∀ d, str (S d) (mkRoot [mkNode PlainNode [Text "one"; Text "two"]]
                           ∅ {[ "_codedoc/x.txt" := 0 ]}) 0
              = Some (join (NL +:+ NL) (texts n)).
Proof.
  apply (codedoc_file_is_its_blocks
           [("docs/x.py", ["# >> x"; "# one"; ""; "# >>"; "# two"; ""])]
           (mkRoot [mkNode PlainNode [Text "one"; Text "two"]]
              ∅ {[ "_codedoc/x.txt" := 0 ]})
           index_header "x" 0); reflexivity.
Defined.

(** X14. A module named [index] loses its file. Its node is the node
    of [modules/index.rst], the very file the modules index is written
    to after all the others: what the file holds in the end is the
    index, which is not the rendering of the module. *)
Theorem module_named_index_is_overwritten (srcs : list source) r idx l
    depth :
  main srcs = Ok (r, idx) → modules r !! "index" = Some l → 3 ≤ depth →
  ∃ fs text,
    write_files depth r = Some fs
    ∧ files r !! "modules/index.rst" = Some l
    ∧ str depth r l = Some text
    ∧ fs !! "modules/index.rst" = Some (print_lines idx)
    ∧ print_lines idx ≠ text.
Proof.
  intros Hmain Hl Hd. pose proof (main_tree_ok _ _ _ Hmain) as Hr.
  pose proof Hr as (_ & Hm & _). destruct (Hm "index" l Hl) as [Hk Hf].
  change ("modules/" +:+ "index" +:+ ".rst") with "modules/index.rst" in Hf.
  rewrite kinds_lookup in Hk.
  destruct (heap r !! l) as [n|] eqn:Hn; [|done].
  simpl in Hk. injection Hk as Hk.
  destruct (str_3_is_Some r l n Hr Hn) as [text H3].
  eexists _, text. split; [by apply write_files_eq|].
  split_and!; [done|by eapply str_le| |].
  { rewrite lookup_insert_eq. f_equal. f_equal. unfold main in Hmain.
    destruct (process_all srcs RootNode_init); by simplify_eq/=. }
  rewrite str_S, Hn in H3. simpl in H3.
  destruct (text_contents (str 2 r) n) as [body|]; [|done].
  rewrite Hk in H3. simpl in H3. injection H3 as <-.
  assert (idx = index_rst r) as ->.
  { unfold main in Hmain.
    destruct (process_all srcs RootNode_init); by simplify_eq/=. }
  destruct (index_body r); discriminate.
Qed.

Lemma module_named_index_is_overwritten_witness :
  ∃ fs text,
    write_files 3
      (mkRoot [mkNode (ModuleNode "index") [Child 1];
               mkNode (ClassNode 0 "A" "") [Text "A"]]
         {[ "index" := 0 ]} {[ "modules/index.rst" := 0 ]}) = Some fs
    ∧ ({[ "modules/index.rst" := 0 ]} : gmap string nat)
        !! "modules/index.rst" = Some 0
    ∧ str 3
        (mkRoot [mkNode (ModuleNode "index") [Child 1];
                 mkNode (ClassNode 0 "A" "") [Text "A"]]
           {[ "index" := 0 ]} {[ "modules/index.rst" := 0 ]}) 0 = Some text
    ∧ fs !! "modules/index.rst"
      = Some (print_lines (index_header ++ ["   index"]))
    ∧ print_lines (index_header ++ ["   index"]) ≠ text.
Proof.
  refine (module_named_index_is_overwritten
            [("src/index.js", ["// A"; "class A {"])]
            (mkRoot [mkNode (ModuleNode "index") [Child 1];
                     mkNode (ClassNode 0 "A" "") [Text "A"]]
               {[ "index" := 0 ]} {[ "modules/index.rst" := 0 ]})
            (index_header ++ ["   index"]) 0 3 eq_refl eq_refl _).
  lia.
Defined.

(** *** Indentation *)

(** X15. [indent3] puts three spaces before every line and keeps the
    lines as they are: the lines of the result are the lines of the
    text, each after three spaces. An empty last line is no line, so
    the empty text stays empty. *)
Theorem indent3_indents_every_line (x : string) :
  splitlines (indent3 x) = (λ line, "   " +:+ line) <$> splitlines x.
Proof.
  unfold indent3. apply splitlines_join.
  - apply indent_no_break, splitlines_no_break.
  - apply last_indent.
Qed.

Lemma indent3_join (buf : list string) :
  Forall (λ l, all (λ c, negb (is_break c)) l = true) buf →
  last buf ≠ Some "" →
  indent3 (join NL buf) = join NL ((λ line, "   " +:+ line) <$> buf).
Proof. intros Hb Hl. unfold indent3. by rewrite splitlines_join. Qed.

(** X16. The body of a documented construct. A comment block whose
    lines have no line break inside and whose last line is not empty
    is joined with line feeds by [add_text] and split again by
    [indent3]: it comes out as the same lines, each after three
    spaces. One empty comment line at the end of the block leaves no
    trace. *)
Theorem comment_block_is_indented (buf : list string) :
  Forall (λ l, all (λ c, negb (is_break c)) l = true) buf →
  last buf ≠ Some "" →
  indent3 (join NL buf) = join NL ((λ line, "   " +:+ line) <$> buf)
  ∧ indent3 (join NL (buf ++ [""])) = indent3 (join NL buf).
Proof.
  intros Hb Hl. unfold indent3.
  by rewrite splitlines_join, splitlines_join_empty.
Qed.

Lemma comment_block_is_indented_witness :
  indent3 (join NL ["Reports the progress."; ""; "Twice."])
  = join NL ["   Reports the progress."; "   "; "   Twice."].
Proof.
  refine (proj1 (comment_block_is_indented
                   ["Reports the progress."; ""; "Twice."] _ _)).
  - by repeat constructor.
  - done.
Defined.

(** X17. What a documented method looks like. When the method rule
    takes a line, with a comment block as above, the new node renders
    as the index entry [<module>; <Class>#<signature>], the directive
    [js:function:: <signature>] with [:noindex:], an empty line, and
    the lines of the comment block, each after three spaces. *)
Theorem documented_method_rendering raw fp r c m cname cargs mname
    b0 rest sig :
  current_class fp = Some c →
  kinds r !! c = Some (ClassNode m cname cargs) →
  kinds r !! m = Some (ModuleNode mname) →
  buffer fp = Some (b0 :: rest) →
  plain_buffer b0 →
  METHOD_RE (strip raw) = Some sig →
  Forall (λ l, all (λ c, negb (is_break c)) l = true) (b0 :: rest) →
  last (b0 :: rest) ≠ Some "" →
  ∃ fp' r',
    process_line (strip raw) fp r = Ok (fp', r')
    ∧ ∀ d, str (S d) r' (length (heap r))
           = Some (".. index::" +:+ NL +:+
                   "   single: " +:+ mname +:+ "; " +:+ cname +:+ "#"
                     +:+ sig +:+ NL +:+ NL +:+
                   ".. js:function:: " +:+ sig +:+ NL +:+
                   "   :noindex:" +:+ NL +:+ NL +:+
                   join NL ((λ line, "   " +:+ line) <$> b0 :: rest)).
Proof.
  intros Hcc Hc Hm Hb Hp H4 Hbr Hlast.
  eexists _, _. split; [by apply (method_rule _ _ _ c b0 rest sig)|].
  intros d.
  pose proof (kinds_method_rule c sig (b0 :: rest) r) as E.
  assert (c < length (heap r)) as Hlt.
  { rewrite <-length_kinds. by eapply lookup_lt_Some. }
  pose proof (lookup_new_node c (MethodNode c sig) (b0 :: rest) r
                (length (heap r)) Hlt) as Hn.
  rewrite decide_True in Hn by done.
  set (r' := add c _ _) in *.
  assert (index r' (length (heap r))
          = Some (mname +:+ "; " +:+ cname +:+ "#" +:+ sig)) as Hi.
  { unfold index. rewrite Hn. simpl. unfold ClassNode_index, ModuleNode_name.
    rewrite (kind_lookup_app _ _ _ _ _ E Hc), (kind_lookup_app _ _ _ _ _ E Hm).
    simpl. by rewrite !str_app_assoc. }
  assert (directive r' (length (heap r)) = Some ("js:function:: " +:+ sig))
    as Hd.
  { unfold directive. by rewrite Hn. }
  rewrite str_S, Hn, Hi, Hd.
  match goal with
  | |- _ = ?rhs =>
      change (Some (DomainNode_str
                      (mname +:+ "; " +:+ cname +:+ "#" +:+ sig)
                      ("js:function:: " +:+ sig) (join NL (b0 :: rest)))
              = rhs)
  end.
  unfold DomainNode_str. rewrite (indent3_join _ Hbr Hlast).
  rewrite !str_app_assoc. reflexivity.
Qed.

Lemma documented_method_rendering_witness :
  ∃ fp' r',
    process_line (strip "  report(current, total) {")
      (mkFP "src/progress.js"
         (Some ["Reports the progress."; "Twice."]) None (Some 1) None)
      (mkRoot [mkNode (ModuleNode "progress") [Child 1];
               mkNode (ClassNode 0 "Progress" "") [Text "doc"]]
         {[ "progress" := 0 ]} {[ "modules/progress.rst" := 0 ]})
    = Ok (fp', r')
    ∧ ∀ d, str (S d) r' 2
           = Some (".. index::" +:+ NL +:+
                   "   single: progress; Progress#report(current, total)"
                     +:+ NL +:+ NL +:+
                   ".. js:function:: report(current, total)" +:+ NL +:+
                   "   :noindex:" +:+ NL +:+ NL +:+
                   "   Reports the progress." +:+ NL +:+ "   Twice.").
Proof.
  refine (documented_method_rendering "  report(current, total) {"
            (mkFP "src/progress.js"
               (Some ["Reports the progress."; "Twice."]) None (Some 1) None)
            (mkRoot [mkNode (ModuleNode "progress") [Child 1];
                     mkNode (ClassNode 0 "Progress" "") [Text "doc"]]
               {[ "progress" := 0 ]} {[ "modules/progress.rst" := 0 ]})
            1 0 "Progress" "" "progress" "Reports the progress." ["Twice."]
            "report(current, total)"
            eq_refl eq_refl eq_refl eq_refl (conj eq_refl _) eq_refl _ _).
  - discriminate.
  - by repeat constructor.
  - discriminate.
Defined.

(** *** The file of a module *)

Lemma mul_length (n : nat) : String.length (mul "=" n) = n.
Proof. induction n as [|n IH]; simpl; [done|]. by rewrite IH. Qed.

Lemma text_contents_children f n :
  contents n = Child <$> children n →
  text_contents f n
  = parts ← mapM f (children n); Some (join (NL +:+ NL) parts).
Proof.
  intros H. unfold text_contents. rewrite H at 1.
  assert (∀ cs : list nat,
            mapM (λ item, match item with
                          | Text s => Some s
                          | Child c => f c
                          end) (Child <$> cs)
            = mapM f cs) as ->; [|done].
  induction cs as [|c cs IH]; [done|].
  cbn in *. destruct (f c); cbn; [|done]. by rewrite IH.
Qed.

(** X22. The file of a module. It starts with the name of the module
    on a line and as many [=] on the next; then come the renderings of
    the classes and data of the module, in the order they were
    documented, with an empty line between two of them. *)
Theorem module_file_layout (srcs : list source) r idx name l :
  main srcs = Ok (r, idx) → modules r !! name = Some l →
  ∃ n parts,
    files r !! ("modules/" +:+ name +:+ ".rst") = Some l
    ∧ heap r !! l = Some n
    ∧ Forall2 (λ c part, str 2 r c = Some part) (children n) parts
    ∧ str 3 r l
      = Some (name +:+ NL +:+ mul "=" (String.length name) +:+ NL +:+
              join (NL +:+ NL) parts)
    ∧ String.length (mul "=" (String.length name)) = String.length name.
Proof.
  intros Hr%main_tree_ok Hl.
  pose proof Hr as (Hn & Hm & _). destruct (Hm name l Hl) as [Hk Hf].
  rewrite kinds_lookup in Hk.
  destruct (heap r !! l) as [n|] eqn:Hnl; [|done].
  simpl in Hk. injection Hk as Hk.
  destruct (Hn l n Hnl) as [(_ & _ & H3) _]. rewrite Hk in H3.
  assert (is_Some (mapM (str 2 r) (children n))) as [parts Hparts].
  { apply mapM_is_Some_2, Forall_forall. intros c Hc.
    destruct (child_under r l n c Hr Hnl Hc) as (cn & Hcn & Hu & _).
    eapply str_2_is_Some; [done..|].
    rewrite Hk in Hu. intros x Hx. rewrite Hx in Hu. done. }
  exists n, parts. split_and!; [done..| | |apply mul_length].
  - by apply mapM_Some.
  - rewrite str_S, Hnl. simpl.
    rewrite (text_contents_children _ n H3), Hparts. simpl.
    by rewrite Hk.
Qed.

Lemma module_file_layout_witness :
  ∃ n parts,
    ({[ "modules/a.rst" := 0 ]} : gmap string nat)
      !! ("modules/" +:+ "a" +:+ ".rst") = Some 0
    ∧ [mkNode (ModuleNode "a") [Child 1; Child 2];
       mkNode (ClassNode 0 "A" "") [Text "A"];
       mkNode (DataNode 0 "x") [Text "x"]] !! 0 = Some n
    ∧ Forall2 (λ c part,
                 str 2 (mkRoot [mkNode (ModuleNode "a") [Child 1; Child 2];
                                mkNode (ClassNode 0 "A" "") [Text "A"];
                                mkNode (DataNode 0 "x") [Text "x"]]
                          {[ "a" := 0 ]} {[ "modules/a.rst" := 0 ]}) c
                 = Some part) (children n) parts
    ∧ str 3 (mkRoot [mkNode (ModuleNode "a") [Child 1; Child 2];
                     mkNode (ClassNode 0 "A" "") [Text "A"];
                     mkNode (DataNode 0 "x") [Text "x"]]
               {[ "a" := 0 ]} {[ "modules/a.rst" := 0 ]}) 0
      = Some ("a" +:+ NL +:+ mul "=" (String.length "a") +:+ NL +:+
              join (NL +:+ NL) parts)
    ∧ String.length (mul "=" (String.length "a")) = String.length "a".
Proof.
  exact (module_file_layout
           [("src/a.js", ["// A"; "class A {"; "// x"; "export let x = 1"])]
           (mkRoot [mkNode (ModuleNode "a") [Child 1; Child 2];
                    mkNode (ClassNode 0 "A" "") [Text "A"];
                    mkNode (DataNode 0 "x") [Text "x"]]
              {[ "a" := 0 ]} {[ "modules/a.rst" := 0 ]})
           (index_header ++ ["   a"]) "a" 0 eq_refl eq_refl).
Defined.

End rendering.

(** ** The source files and their modules *)

Section source_files.
Import Str Re.
Implicit Types (r : RootNode) (fp : FileProcessor) (line : string).
Local Arguments String.append : simpl nomatch.

Lemma endswith_spec (s suf : string) :
  endswith s suf = true → ∃ pre, s = pre +:+ suf.
Proof.
  induction s as [|c s IH]; cbn [endswith].
  - rewrite orb_false_r. intros ->%String.eqb_eq. by exists "".
  - intros [->%String.eqb_eq|H]%orb_true_iff; [by exists ""|].
    destruct (IH H) as [pre ->]. by exists (String c pre).
Qed.

Lemma str_app_inj_length (a b x y : string) :
  String.length x = String.length y → a +:+ x = b +:+ y → a = b ∧ x = y.
Proof.
  intros Hlen. revert b. induction a as [|c a IH]; intros [|d b] H.
  - done.
  - apply (f_equal String.length) in H.
    rewrite (str_app_length (String d b)) in H. simpl in H. lia.
  - apply (f_equal String.length) in H.
    rewrite (str_app_length (String c a)) in H. simpl in H. lia.
  - change (String c (a +:+ x) = String d (b +:+ y)) in H.
    injection H as -> H. destruct (IH b H) as [-> ->]. done.
Qed.

(** Where [MODULE_RE] matches, the subject ends with [.js], a line feed
    after it at most. *)
Lemma MODULE_RE_search_Some (s g : string) :
  MODULE_RE_search s = Some g →
  ∃ pre, s = pre +:+ ".js" ∨ s = pre +:+ ".js" +:+ NL.
Proof.
  induction s as [|c s IH]; cbn [MODULE_RE_search].
  - intros H. vm_compute in H. discriminate H.
  - destruct (MODULE_RE_at (String c s)) as [g'|] eqn:E.
    + intros _. unfold MODULE_RE_at in E.
      destruct (lit "src/" (String c s)) as [x|] eqn:El; [|done].
      simpl in E. apply lit_Some in El. rewrite El.
      apply lazy_dot_Some in E as (_ & y & -> & Hy).
      apply lit_eol_true in Hy as [->| ->].
      * exists ("src/" +:+ g'). left. by rewrite !str_app_assoc.
      * exists ("src/" +:+ g'). right. by rewrite !str_app_assoc.
    + intros H. destruct (IH H) as [pre [->| ->]].
      * exists (String c pre). by left.
      * exists (String c pre). by right.
Qed.

Lemma MODULE_RE_search_py (p : string) :
  endswith p ".py" = true → MODULE_RE_search p = None.
Proof.
  intros [q ->]%endswith_spec.
  destruct (MODULE_RE_search (q +:+ ".py")) as [g|] eqn:E; [|done].
  apply MODULE_RE_search_Some in E as [pre [H|H]].
  - by apply str_app_inj_length in H as [_ H].
  - change (q +:+ ".py") with (q +:+ ".p" +:+ "y") in H.
    rewrite <-!str_app_assoc in H.
    by apply str_app_inj_length in H as [_ H].
Qed.

Lemma module_doc_py fp r :
  endswith (path fp) ".py" = true → module_doc fp r = Raise AttributeError.
Proof.
  intros H. unfold module_doc. by rewrite (MODULE_RE_search_py _ H).
Qed.

(** X18. A Python file can hold narrative blocks only. Its path ends
    with [.py], where [MODULE_RE] finds no module: a comment block
    right before a line that starts with [class <Name>] (a Python class
    is such a line) or with [export let <name>] makes [module_doc]
    raise [AttributeError], and the run ends. *)
Theorem python_file_holds_narrative_only line fp r b0 rest :
  endswith (path fp) ".py" = true →
  current_class fp = None →
  buffer fp = Some (b0 :: rest) → plain_buffer b0 →
  COMMENT_RE line = None →
  is_Some (CLASS_RE line) ∨ is_Some (EXPORT_LET_RE line) →
  process_line line fp r = Raise AttributeError.
Proof.
  intros Hpy Hcc Hb [H1 H2] Hc Hline.
  rewrite (process_line_route _ _ _ _ Hc Hb).
  destruct (CLASS_RE line) as [name|] eqn:H3.
  - rewrite (route_class _ _ _ _ _ name Hb H1 H2 H3).
    by rewrite module_doc_py.
  - destruct Hline as [[? ?]|[name H6]]; [done|].
    rewrite (route_data _ _ _ _ _ name Hb H1 H2 H3 (or_introl Hcc) H6).
    by rewrite module_doc_py.
Qed.

Lemma python_file_holds_narrative_only_witness :
  process_line "class FileProcessor(object):"
    (mkFP "../docs/generate.py" (Some ["Scans one file."]) None None None)
    RootNode_init
  = Raise AttributeError.
Proof.
  refine (python_file_holds_narrative_only "class FileProcessor(object):"
            (mkFP "../docs/generate.py" (Some ["Scans one file."])
               None None None)
            RootNode_init "Scans one file." []
            eq_refl eq_refl eq_refl (conj eq_refl _) eq_refl
            (or_introl (ex_intro _ "FileProcessor" eq_refl))).
  discriminate.
Defined.

(** *** get_source_files *)

Lemma elem_of_walk_files (w : walk) (ext p : string) :
  p ∈ walk_files w ext ↔
  ∃ root filenames filename,
    (root, filenames) ∈ w ∧ filename ∈ filenames
    ∧ endswith filename ext = true ∧ p = root +:+ "/" +:+ filename.
Proof.
  unfold walk_files. rewrite list_elem_of_bind. split.
  - intros ([root filenames] & Hp & Hw).
    apply list_elem_of_fmap in Hp as (filename & -> & Hf).
    unfold fnmatch_filter in Hf.
    apply list_elem_of_In, filter_In in Hf as [Hf He].
    apply list_elem_of_In in Hf. eauto 10.
  - intros (root & filenames & filename & Hw & Hf & He & ->).
    exists (root, filenames). split; [|done].
    apply list_elem_of_fmap. exists filename. split; [done|].
    unfold fnmatch_filter. apply list_elem_of_In, filter_In.
    split; [by apply list_elem_of_In|done].
Qed.

Lemma endswith_path (root filename ext : string) :
  endswith filename ext = true →
  endswith (root +:+ "/" +:+ filename) ext = true.
Proof.
  intros [pre ->]%endswith_spec.
  rewrite <-!str_app_assoc. apply endswith_app.
Qed.

(** X19. What [get_source_files] yields. Every path is a directory
    of one of the two walks, a slash and a file name of it; the paths
    of the first walk end with [.js] and those of the second with
    [.py]. A path of the second walk has no module: [module_doc]
    raises [AttributeError] there. *)
Theorem source_files_found (src docs : walk) :
  (∀ p, p ∈ get_source_files src docs ↔
        p ∈ walk_files src ".js" ∨ p ∈ walk_files docs ".py")
  ∧ (∀ p, p ∈ walk_files src ".js" →
          endswith p ".js" = true
          ∧ ∃ root filenames filename,
              (root, filenames) ∈ src ∧ filename ∈ filenames
              ∧ p = root +:+ "/" +:+ filename)
  ∧ (∀ p, p ∈ walk_files docs ".py" →
          endswith p ".py" = true
          ∧ (∃ root filenames filename,
               (root, filenames) ∈ docs ∧ filename ∈ filenames
               ∧ p = root +:+ "/" +:+ filename)
          ∧ modulename_of p = None
          ∧ ∀ fp r, path fp = p → module_doc fp r = Raise AttributeError).
Proof.
  split; [intros p; apply elem_of_app|]. split.
  - intros p (root & filenames & filename & Hw & Hf & He & ->)
      %elem_of_walk_files.
    split; [by apply endswith_path|eauto 10].
  - intros p (root & filenames & filename & Hw & Hf & He & ->)
      %elem_of_walk_files.
    pose proof (endswith_path root filename ".py" He) as Hpy.
    split_and!; [done|eauto 10| |].
    + unfold modulename_of. by rewrite (MODULE_RE_search_py _ Hpy).
    + intros fp r Hp. apply module_doc_py. by rewrite Hp.
Qed.

(** X20. A JavaScript file that is found has a module. For a file
    [<base>.js] in a directory of the first walk, with the path
    [../src/<rel>.js] and no line feed in it, the path is yielded and
    [module_doc] gives the module [<rel>], without [/index] when it
    ends so. *)
Theorem js_file_has_a_module (src docs : walk) root filenames
    (base rel : string) :
  (root, filenames) ∈ src → base +:+ ".js" ∈ filenames →
  root +:+ "/" +:+ base = "../src/" +:+ rel →
  all not_LF rel = true →
  root +:+ "/" +:+ base +:+ ".js" ∈ get_source_files src docs
  ∧ ∀ fp r, path fp = root +:+ "/" +:+ base +:+ ".js" →
      module_doc fp r
      = Ok (module (if endswith rel "/index"
                    then slice_to_neg 6 rel else rel) r).
Proof.
  intros Hw Hf Hrel Hlf. split.
  - unfold get_source_files. apply elem_of_app. left.
    apply elem_of_walk_files. exists root, filenames, (base +:+ ".js").
    split_and!; [done..|apply endswith_app|done].
  - intros fp r Hp. rewrite module_doc_eq, Hp.
    assert (root +:+ "/" +:+ base +:+ ".js"
            = "../" +:+ "src/" +:+ rel +:+ ".js") as ->.
    { change ("../" +:+ "src/" +:+ rel +:+ ".js")
        with ("../src/" +:+ rel +:+ ".js").
      rewrite <-(str_app_assoc "../src/"), <-Hrel.
      by rewrite !str_app_assoc. }
    rewrite modulename_of_src by eauto. done.
Qed.

Lemma js_file_has_a_module_witness :
  "../src/game" +:+ "/" +:+ "index" +:+ ".js"
    ∈ get_source_files [("../src/game", ["index.js"; "notes.txt"])]
        [("../docs", ["generate.py"])]
  ∧ ∀ fp r, path fp = "../src/game" +:+ "/" +:+ "index" +:+ ".js" →
      module_doc fp r
      = Ok (module (if endswith "game/index" "/index"
                    then slice_to_neg 6 "game/index" else "game/index") r).
Proof.
  apply (js_file_has_a_module
           [("../src/game", ["index.js"; "notes.txt"])]
           [("../docs", ["generate.py"])]
           "../src/game" ["index.js"; "notes.txt"] "index" "game/index").
  - by left.
  - by left.
  - reflexivity.
  - reflexivity.
Defined.

End source_files.

(** ** The class rule *)

Section class_rule.
Import Str Re.
Implicit Types (r : RootNode) (fp : FileProcessor) (line : string).
Implicit Types (n : Node) (k : Kind).

Lemma process_line_path line fp r fp' r' :
  process_line line fp r = Ok (fp', r') → path fp' = path fp.
Proof.
  revert fp' r'. apply by_outcome.
  by destruct (process_line_outcome line fp r).
Qed.

Lemma process_lines_path (lines : list string) fp r fp' r' :
  process_lines lines fp r = Ok (fp', r') → path fp' = path fp.
Proof.
  revert fp r. induction lines as [|x lines IH]; intros fp r; simpl.
  - by intros [= <- <-].
  - destruct (process_line (strip x) fp r) as [[fp1 r1]|] eqn:E; [|done].
    simpl. intros H. rewrite (IH _ _ H). by eapply process_line_path.
Qed.

(** The state a run is in after some files and some lines of the next:
    the tree is a tree, and the processor knows its nodes. *)
Lemma run_state_ok (before : list source) (p : string)
    (pre : list string) r0 fp r :
  process_all before RootNode_init = Ok r0 →
  process pre (FileProcessor_init p) r0 = Ok (fp, r) →
  tree_ok r ∧ processor_ok fp r ∧ path fp = p.
Proof.
  intros H0 H1.
  pose proof (process_all_tree_ok _ _ _ tree_ok_init H0) as Hr0.
  unfold process in H1.
  assert (processor_ok (set_current_class None (FileProcessor_init p)) r0)
    as Hfp by (split; intros ? [=]).
  destruct (process_lines_tree_ok _ _ _ _ _ Hr0 Hfp H1).
  split_and!; [done..|]. by apply process_lines_path in H1.
Qed.

Local Arguments alloc : simpl never.
Local Arguments add : simpl never.
Local Arguments add_text : simpl never.
Local Arguments module : simpl never.
Local Arguments file : simpl never.

(** X5. The class rule never merges. In a run, when a comment block
    that is no narrative block comes right before a class line, in a
    file that has a module, a new class node is made, whatever the
    module holds already (a class of the same name too): the node has
    the name of the line, no arguments, and the comment block as its
    only content; it is put last in the contents of the node of the
    module; and it becomes the active class. Nothing else changes but
    by growing. *)
Theorem class_rule_never_merges (before : list source) (p : string)
    (pre : list string) (t : string) r0 fp r b0 rest name mname :
  process_all before RootNode_init = Ok r0 →
  process pre (FileProcessor_init p) r0 = Ok (fp, r) →
  buffer fp = Some (b0 :: rest) → plain_buffer b0 →
  COMMENT_RE (strip t) = None → CLASS_RE (strip t) = Some name →
  modulename_of p = Some mname →
  ∃ fp' r' m mn c,
    process (pre ++ [t]) (FileProcessor_init p) r0 = Ok (fp', r')
    ∧ modules r' !! mname = Some m
    ∧ heap r' !! m = Some mn ∧ kind mn = ModuleNode mname
    ∧ last (contents mn) = Some (Child c)
    ∧ length (heap r) ≤ c
    ∧ heap r' !! c
      = Some (mkNode (ClassNode m name "")
                [Text (join (String LF "") (b0 :: rest))])
    ∧ current_class fp' = Some c
    ∧ grows r r'.
Proof.
  intros H0 H1 Hb [Hp1 Hp2] Hc H3 Hm.
  destruct (run_state_ok _ _ _ _ _ _ H0 H1) as (Hr & Hfp & Hpath).
  assert (process_line (strip t) fp r
          = let o := module mname r in
            let cn := length (heap o.2) in
            Ok (set_buffer None
                  (set_post_state (Some post_class)
                     (set_current_class (Some cn)
                        (set_post_state None fp))),
                add_text cn (b0 :: rest)
                  (add o.1 (Child cn) (alloc (ClassNode o.1 name "") o.2).2)))
    as Hstep.
  { rewrite (process_line_route _ _ _ _ Hc Hb).
    rewrite (route_class _ _ _ _ _ name Hb Hp1 Hp2 H3), module_doc_eq.
    rewrite Hpath, Hm. simpl. by destruct (module mname r). }
  simpl in Hstep.
  destruct (tree_ok_module mname r Hr) as [Ho Hk].
  set (o := module mname r) in *. set (cn := length (heap o.2)) in *.
  rewrite kinds_lookup in Hk.
  destruct (heap o.2 !! o.1) as [pn|] eqn:Hpn; [|done].
  simpl in Hk. injection Hk as Hk.
  apply lookup_lt_Some in Hpn as Hlt.
  unfold add_text in Hstep. rewrite add_add_ne in Hstep by (unfold cn; lia).
  fold (add_text cn (b0 :: rest) (alloc (ClassNode o.1 name "") o.2).2)
    in Hstep.
  pose proof (lookup_new_node o.1 (ClassNode o.1 name "") (b0 :: rest) o.2)
    as Hlook. fold cn in Hlook.
  eexists _, _, o.1, _, cn. split_and!.
  - unfold process in *. rewrite process_lines_app, H1. simpl.
    by rewrite Hstep.
  - apply module_lookup.
  - rewrite Hlook by done. rewrite decide_False by lia.
    rewrite Hpn. simpl. by rewrite decide_True.
  - done.
  - simpl. by rewrite last_snoc.
  - unfold cn. destruct (grows_module mname r) as (G & _).
    destruct (decide (length (heap r) ≤ length (heap o.2))); [done|].
    destruct (lookup_lt_is_Some_2 (heap r) (length (heap o.2))) as [x Hx];
      [lia|].
    destruct (G _ _ Hx) as (x' & Hx' & _).
    apply lookup_lt_Some in Hx'. fold o in Hx'. lia.
  - rewrite Hlook by done. by rewrite decide_True.
  - done.
  - eapply process_line_grows. by rewrite Hstep.
Qed.

Lemma class_rule_never_merges_witness :
  ∃ fp' r' m mn c,
    process (["// Doc"] ++ ["class Foo {"]) (FileProcessor_init "src/foo.js")
      (mkRoot [mkNode (ModuleNode "foo") [Child 1];
               mkNode (ClassNode 0 "Foo" "") [Text "Doc"]]
         {[ "foo" := 0 ]} {[ "modules/foo.rst" := 0 ]})
    = Ok (fp', r')
    ∧ modules r' !! "foo" = Some m
    ∧ heap r' !! m = Some mn ∧ kind mn = ModuleNode "foo"
    ∧ last (contents mn) = Some (Child c)
    ∧ 2 ≤ c
    ∧ heap r' !! c
      = Some (mkNode (ClassNode m "Foo" "") [Text "Doc"])
    ∧ current_class fp' = Some c
    ∧ grows (mkRoot [mkNode (ModuleNode "foo") [Child 1];
                     mkNode (ClassNode 0 "Foo" "") [Text "Doc"]]
               {[ "foo" := 0 ]} {[ "modules/foo.rst" := 0 ]}) r'.
Proof.
  refine (class_rule_never_merges
            [("src/foo.js", ["// Doc"; "class Foo {"])]
            "src/foo.js" ["// Doc"] "class Foo {"
            (mkRoot [mkNode (ModuleNode "foo") [Child 1];
                     mkNode (ClassNode 0 "Foo" "") [Text "Doc"]]
               {[ "foo" := 0 ]} {[ "modules/foo.rst" := 0 ]})
            (mkFP "src/foo.js" (Some ["Doc"]) None None None)
            (mkRoot [mkNode (ModuleNode "foo") [Child 1];
                     mkNode (ClassNode 0 "Foo" "") [Text "Doc"]]
               {[ "foo" := 0 ]} {[ "modules/foo.rst" := 0 ]})
            "Doc" [] "Foo" "foo"
            eq_refl eq_refl eq_refl (conj eq_refl _) eq_refl eq_refl eq_refl).
  discriminate.
Defined.

End class_rule.

(** ** The last narrative node and the lines of the file *)

Section continuation.
Import Str Re.
Implicit Types (r : RootNode) (fp : FileProcessor) (line : string).
Implicit Types (n : Node) (k : Kind).
Local Arguments alloc : simpl never.
Local Arguments add : simpl never.
Local Arguments add_text : simpl never.
Local Arguments module : simpl never.
Local Arguments file : simpl never.

(** The codedoc rule, by the block it takes. *)
Lemma opens_routed line fp r fp1 r1 b tok :
  COMMENT_RE line = None → buffer fp = Some b → opens (b, line) = Some tok →
  process_line line fp r = Ok (fp1, r1) →
  ∃ l, last_codedoc fp1 = Some l
       ∧ files r1 !! ("_codedoc/" +:+ tok +:+ ".txt") = Some l.
Proof.
  intros Hc Hb Ho. unfold opens in Ho. simpl in Ho.
  destruct b as [|b0 rest]; [done|]. simpl in Ho.
  rewrite (process_line_route _ _ _ _ Hc Hb).
  rewrite (route_codedoc _ _ _ _ _ tok Hb Ho).
  pose proof (file_lookup ("_codedoc/" +:+ tok +:+ ".txt") PlainNode r) as Hf.
  destruct (file _ PlainNode r) as [l r0]. simpl in *.
  intros [= <- <-]. exists l. split; [done|]. exact Hf.
Qed.

Lemma not_opens_routed line fp r fp1 r1 b :
  buffer fp = Some b → opens (b, line) = None →
  process_line line fp r = Ok (fp1, r1) →
  last_codedoc fp1 = last_codedoc fp.
Proof.
  intros Hb Ho H.
  destruct (last_codedoc_assigned _ _ _ _ _ H)
    as [?|(b0 & rest & tok & _ & Hb' & Ht & _)]; [done|].
  rewrite Hb in Hb'. injection Hb' as ->.
  unfold opens in Ho. simpl in Ho. congruence.
Qed.

(** What the processor holds after some lines, by the lines: its buffer
    is the block still open, and its last narrative node is the node of
    the last narrative block the lines have opened, the one it had
    before when they have opened none. *)
Lemma process_lines_scan (lines : list string) fp r fp' r' :
  process_lines lines fp r = Ok (fp', r') →
  buffer fp' = (scan (buffer fp) lines).2
  ∧ match last (omap opens (scan (buffer fp) lines).1) with
    | Some tok =>
        ∃ l, last_codedoc fp' = Some l
             ∧ files r' !! ("_codedoc/" +:+ tok +:+ ".txt") = Some l
    | None => last_codedoc fp' = last_codedoc fp
    end.
Proof.
  revert fp r. induction lines as [|raw lines IH]; intros fp r.
  { simpl. by intros [= <- <-]. }
  cbn [process_lines scan].
  destruct (process_line (strip raw) fp r) as [[fp1 r1]|] eqn:E; [|done].
  simpl. intros H. destruct (IH _ _ H) as [IH1 IH2].
  pose proof (process_lines_grows _ _ _ _ _ H) as (_ & _ & Hfiles).
  destruct (COMMENT_RE (strip raw)) as [g|] eqn:Hc.
  { rewrite (process_line_comment _ g) in E by done.
    injection E as <- <-. done. }
  pose proof (buffer_cleared _ _ _ _ _ Hc E) as Hb1. rewrite Hb1 in IH1, IH2.
  destruct (scan None lines) as [blocks open] eqn:Es. simpl in *.
  split; [done|].
  destruct (buffer fp) as [b|] eqn:Hb.
  - cbn [omap list_omap].
    destruct (opens (b, strip raw)) as [tok|] eqn:Ho.
    + rewrite last_cons.
      destruct (last (omap opens blocks)) as [tok'|]; [done|].
      destruct (opens_routed _ _ _ _ _ _ _ Hc Hb Ho E) as (l & Hl & Hf).
      exists l. split; [congruence|]. by eapply lookup_weaken.
    + destruct (last (omap opens blocks)) as [tok'|]; [done|].
      rewrite IH2. by eapply not_opens_routed.
  - rewrite process_line_idle in E by done. injection E as <- <-. done.
Qed.

(** C2, as the code has it. The last narrative node belongs to the
    processor of one file. Take a run that has gone through some files,
    whatever they opened, and through the lines [pre] of the file [p],
    which end in an open block with the bare marker [>>] first; the
    next line, [t], is no comment line. When the last narrative block
    that [pre] itself has opened is [>> tok], the reference names the
    node of [_codedoc/<tok>.txt], a plain node of the tree, and routing
    the block appends its remaining lines, joined, to the contents of
    that node. When [pre] has opened none, the processor has no such
    reference and the run raises [AttributeError], whatever follows. *)
Theorem continuation_is_per_file (before : list source) (p : string)
    (pre : list string) (t : string) r fp r1 rest :
  process_all before RootNode_init = Ok r →
  process pre (FileProcessor_init p) r = Ok (fp, r1) →
  open_block pre = Some (">>" :: rest) →
  COMMENT_RE (strip t) = None →
  match last (opened pre) with
  | Some tok =>
      ∃ l n,
        files r1 !! ("_codedoc/" +:+ tok +:+ ".txt") = Some l
        ∧ last_codedoc fp = Some l
        ∧ heap r1 !! l = Some n ∧ kind n = PlainNode
        ∧ process (pre ++ [t]) (FileProcessor_init p) r
          = Ok (set_buffer None (set_post_state None fp),
                add_text l rest r1)
        ∧ heap (add_text l rest r1) !! l
          = Some (mkNode PlainNode
                    (contents n ++ [Text (join (String LF "") rest)]))
  | None =>
      last_codedoc fp = None
      ∧ ∀ post after,
          main (before ++ (p, pre ++ t :: post) :: after)
          = Raise AttributeError
  end.
Proof.
  intros H0 H1 Ho Hc.
  destruct (run_state_ok _ _ _ _ _ _ H0 H1) as (Hr & Hfp & Hpath).
  pose proof H1 as Hs. unfold process in Hs.
  apply process_lines_scan in Hs as [Hbuf Hlast].
  change (buffer fp = open_block pre) in Hbuf. rewrite Ho in Hbuf.
  change (last (omap opens (scan _ pre).1)) with (last (opened pre))
    in Hlast.
  destruct (last (opened pre)) as [tok|].
  - destruct Hlast as (l & Hl & Hf).
    destruct (file_node r1 _ l Hr Hf) as [n Hn].
    assert (kind n = PlainNode) as Hk.
    { destruct Hfp as [_ F2]. specialize (F2 l Hl).
      rewrite kinds_lookup, Hn in F2. by simplify_eq/=. }
    exists l, n. split_and!; [done..| |].
    + unfold process in *. rewrite process_lines_app, H1. simpl.
      by rewrite (continue_appends _ _ _ rest l).
    + unfold add_text. rewrite lookup_add, Hn. simpl.
      rewrite decide_True by done. by rewrite Hk.
  - simpl in Hlast. split; [done|]. intros post after. unfold main.
    rewrite process_all_app, H0. simpl.
    rewrite (process_raise_later pre t post _ _ fp r1 AttributeError H1);
      [done|].
    by apply (continue_raises _ _ _ rest).
Qed.

Lemma continuation_is_per_file_witness :
  ∃ l n,
    ({[ "_codedoc/foo.txt" := 0; "_codedoc/bar.txt" := 1 ]}
       : gmap string nat) !! ("_codedoc/" +:+ "bar" +:+ ".txt") = Some l
    ∧ last_codedoc (mkFP "src/b.js" (Some [">>"; "more"]) None None (Some 1))
      = Some l
    ∧ [mkNode PlainNode [Text "one"]; mkNode PlainNode [Text "two"]] !! l
      = Some n
    ∧ kind n = PlainNode
    ∧ process (["// >> bar"; "// two"; "x"; "// >>"; "// more"] ++ ["y"])
        (FileProcessor_init "src/b.js")
        (mkRoot [mkNode PlainNode [Text "one"]] ∅
           {[ "_codedoc/foo.txt" := 0 ]})
      = Ok (mkFP "src/b.js" None None None (Some 1),
            add_text l ["more"]
              (mkRoot [mkNode PlainNode [Text "one"];
                       mkNode PlainNode [Text "two"]] ∅
                 {[ "_codedoc/foo.txt" := 0; "_codedoc/bar.txt" := 1 ]}))
    ∧ heap (add_text l ["more"]
              (mkRoot [mkNode PlainNode [Text "one"];
                       mkNode PlainNode [Text "two"]] ∅
                 {[ "_codedoc/foo.txt" := 0; "_codedoc/bar.txt" := 1 ]}))
        !! l
      = Some (mkNode PlainNode
                (contents n ++ [Text (join (String LF "") ["more"])])).
Proof.
  exact (continuation_is_per_file
           [("src/a.js", ["// >> foo"; "// one"; "x"])] "src/b.js"
           ["// >> bar"; "// two"; "x"; "// >>"; "// more"] "y"
           (mkRoot [mkNode PlainNode [Text "one"]] ∅
              {[ "_codedoc/foo.txt" := 0 ]})
           (mkFP "src/b.js" (Some [">>"; "more"]) None None (Some 1))
           (mkRoot [mkNode PlainNode [Text "one"];
                    mkNode PlainNode [Text "two"]] ∅
              {[ "_codedoc/foo.txt" := 0; "_codedoc/bar.txt" := 1 ]})
           ["more"] eq_refl eq_refl eq_refl eq_refl).
Defined.

End continuation.
